(** * Plaques2Gallery: the image scraper of [plaques2gallery/web_scraping.py]

    A shallow embedding of the scraping core (download, responsive-source
    resolver, largest-image selector, page pipeline and tiered dispatcher)
    together with the properties its specification states about it.  The
    model comes first, then the vocabulary of the properties, the earlier
    script [web_scrapping.py] where it differs from the package, a scripted
    outside world to run the model on, the rest of the package (cookie
    banners, the search, the preparation of the photograph), and last the
    properties: those of the specification, then further ones.

    Conventions of the embedding.
    - A Python [str] is a [string] that holds its UTF-8 encoding; its
      characters are read from it where the code looks at characters, with
      the classes ([str.isdigit], [str.isspace], [\w]) of CPython 3.11.
      [bytes] is a list of bytes.
    - A Python [int] is a [Z]; a browser length (a float) is a rational [Q].
    - A coroutine is a function of the world that returns a result or the
      exception it raised, and the world after it.  The world holds the state
      of the browser and of the network, which the model does not interpret,
      and the log of the calls made to them.
    - [dict] objects indexed by name are [gmap]s, the set of invalid URLs is
      a [gset], the museum table is an association list because
      [dict.items()] is walked in insertion order. *)

From Stdlib Require Import ZArith QArith Ascii String List Bool Lia.

From Stdlib Require Import Sorting.Sorted Sorting.Permutation.

From stdpp Require Import base option list gmap sets strings.

Local Open Scope Z_scope.

(** ** Python strings *)

Module Py.

(** *** Characters

    A [str] is held as its UTF-8 encoding.  A character starts at every byte
    that is not a continuation byte ([10xxxxxx]) and takes the continuation
    bytes that follow it. *)

Definition byte (b : ascii) : N := N_of_ascii b.

Definition is_continuation (b : ascii) : bool :=
  (128 <=? byte b)%N && (byte b <? 192)%N.

(** The bytes of [s] up to its first character boundary, and the characters
    from there on. *)
Fixpoint chars_go (s : string) : string * list string :=
  match s with
  | EmptyString => (EmptyString, [])
  | String b s' =>
      let '(tail, cs) := chars_go s' in
      if is_continuation b then (String b tail, cs)
      else (EmptyString, String b tail :: cs)
  end.

(** [list(s)]: the characters of [s], each of them a string of length one. *)
Definition chars (s : string) : list string :=
  let '(tail, cs) := chars_go s in
  match tail with
  | EmptyString => cs
  | _ => tail :: cs
  end.

(** [''.join(cs)] *)
Definition join (cs : list string) : string := fold_right append EmptyString cs.

(** [ord(c)], for a string of one character; U+FFFD for bytes that encode
    no character. *)
Definition ord (c : string) : N :=
  match c with
  | String b0 EmptyString =>
      if (byte b0 <? 128)%N then byte b0 else 65533%N
  | String b0 (String b1 EmptyString) =>
      if (192 <=? byte b0)%N && (byte b0 <? 224)%N
      then ((byte b0 - 192) * 64 + (byte b1 - 128))%N
      else 65533%N
  | String b0 (String b1 (String b2 EmptyString)) =>
      if (224 <=? byte b0)%N && (byte b0 <? 240)%N
      then ((byte b0 - 224) * 4096 + (byte b1 - 128) * 64 + (byte b2 - 128))%N
      else 65533%N
  | String b0 (String b1 (String b2 (String b3 EmptyString))) =>
      if (240 <=? byte b0)%N && (byte b0 <? 248)%N
      then ((byte b0 - 240) * 262144 + (byte b1 - 128) * 4096
            + (byte b2 - 128) * 64 + (byte b3 - 128))%N
      else 65533%N
  | _ => 65533%N
  end.

(** *** The classes of characters

    The tables of CPython 3.11 (Unicode 14.0), as ranges of code points. *)

Definition in_range (n : N) (r : N * N) : bool := (fst r <=? n)%N && (n <=? snd r)%N.

Definition in_ranges (table : list (N * N)) (n : N) : bool := existsb (in_range n) table.

(** The decimal digits ([Nd]): in each range the values 0 to 9 follow one
    another, starting with 0 at the lower end. *)
Definition DECIMAL : list (N * N) :=
  [ (48, 57); (1632, 1641); (1776, 1785); (1984, 1993); (2406, 2415);
    (2534, 2543); (2662, 2671); (2790, 2799); (2918, 2927); (3046, 3055);
    (3174, 3183); (3302, 3311); (3430, 3439); (3558, 3567); (3664, 3673);
    (3792, 3801); (3872, 3881); (4160, 4169); (4240, 4249); (6112, 6121);
    (6160, 6169); (6470, 6479); (6608, 6617); (6784, 6793); (6800, 6809);
    (6992, 7001); (7088, 7097); (7232, 7241); (7248, 7257); (42528, 42537);
    (43216, 43225); (43264, 43273); (43472, 43481); (43504, 43513);
    (43600, 43609); (44016, 44025); (65296, 65305); (66720, 66729);
    (68912, 68921); (69734, 69743); (69872, 69881); (69942, 69951);
    (70096, 70105); (70384, 70393); (70736, 70745); (70864, 70873);
    (71248, 71257); (71360, 71369); (71472, 71481); (71904, 71913);
    (72016, 72025); (72784, 72793); (73040, 73049); (73120, 73129);
    (92768, 92777); (92864, 92873); (93008, 93017); (120782, 120831);
    (123200, 123209); (123632, 123641); (125264, 125273);
    (130032, 130041) ]%N.

(** The digits that are not decimal: superscripts, subscripts, circled
    digits and the like. *)
Definition DIGIT : list (N * N) :=
  [ (178, 179); (185, 185); (4969, 4977); (6618, 6618); (8304, 8304);
    (8308, 8313); (8320, 8329); (9312, 9320); (9332, 9340); (9352, 9360);
    (9450, 9450); (9461, 9469); (9471, 9471); (10102, 10110); (10112, 10120);
    (10122, 10130); (68160, 68163); (69216, 69224); (69714, 69722);
    (127232, 127242) ]%N.

(** White space. *)
Definition SPACE : list (N * N) :=
  [ (9, 13); (28, 32); (133, 133); (160, 160); (5760, 5760); (8192, 8202);
    (8232, 8233); (8239, 8239); (8287, 8287); (12288, 12288) ]%N.

(** The alphanumeric characters: [str.isalnum]. *)
Definition ALNUM : list (N * N) :=
  [ (48, 57); (65, 90); (97, 122); (170, 170); (178, 179); (181, 181);
    (185, 186); (188, 190); (192, 214); (216, 246); (248, 705); (710, 721);
    (736, 740); (748, 748); (750, 750); (880, 884); (886, 887); (890, 893);
    (895, 895); (902, 902); (904, 906); (908, 908); (910, 929); (931, 1013);
    (1015, 1153); (1162, 1327); (1329, 1366); (1369, 1369); (1376, 1416);
    (1488, 1514); (1519, 1522); (1568, 1610); (1632, 1641); (1646, 1647);
    (1649, 1747); (1749, 1749); (1765, 1766); (1774, 1788); (1791, 1791);
    (1808, 1808); (1810, 1839); (1869, 1957); (1969, 1969); (1984, 2026);
    (2036, 2037); (2042, 2042); (2048, 2069); (2074, 2074); (2084, 2084);
    (2088, 2088); (2112, 2136); (2144, 2154); (2160, 2183); (2185, 2190);
    (2208, 2249); (2308, 2361); (2365, 2365); (2384, 2384); (2392, 2401);
    (2406, 2415); (2417, 2432); (2437, 2444); (2447, 2448); (2451, 2472);
    (2474, 2480); (2482, 2482); (2486, 2489); (2493, 2493); (2510, 2510);
    (2524, 2525); (2527, 2529); (2534, 2545); (2548, 2553); (2556, 2556);
    (2565, 2570); (2575, 2576); (2579, 2600); (2602, 2608); (2610, 2611);
    (2613, 2614); (2616, 2617); (2649, 2652); (2654, 2654); (2662, 2671);
    (2674, 2676); (2693, 2701); (2703, 2705); (2707, 2728); (2730, 2736);
    (2738, 2739); (2741, 2745); (2749, 2749); (2768, 2768); (2784, 2785);
    (2790, 2799); (2809, 2809); (2821, 2828); (2831, 2832); (2835, 2856);
    (2858, 2864); (2866, 2867); (2869, 2873); (2877, 2877); (2908, 2909);
    (2911, 2913); (2918, 2927); (2929, 2935); (2947, 2947); (2949, 2954);
    (2958, 2960); (2962, 2965); (2969, 2970); (2972, 2972); (2974, 2975);
    (2979, 2980); (2984, 2986); (2990, 3001); (3024, 3024); (3046, 3058);
    (3077, 3084); (3086, 3088); (3090, 3112); (3114, 3129); (3133, 3133);
    (3160, 3162); (3165, 3165); (3168, 3169); (3174, 3183); (3192, 3198);
    (3200, 3200); (3205, 3212); (3214, 3216); (3218, 3240); (3242, 3251);
    (3253, 3257); (3261, 3261); (3293, 3294); (3296, 3297); (3302, 3311);
    (3313, 3314); (3332, 3340); (3342, 3344); (3346, 3386); (3389, 3389);
    (3406, 3406); (3412, 3414); (3416, 3425); (3430, 3448); (3450, 3455);
    (3461, 3478); (3482, 3505); (3507, 3515); (3517, 3517); (3520, 3526);
    (3558, 3567); (3585, 3632); (3634, 3635); (3648, 3654); (3664, 3673);
    (3713, 3714); (3716, 3716); (3718, 3722); (3724, 3747); (3749, 3749);
    (3751, 3760); (3762, 3763); (3773, 3773); (3776, 3780); (3782, 3782);
    (3792, 3801); (3804, 3807); (3840, 3840); (3872, 3891); (3904, 3911);
    (3913, 3948); (3976, 3980); (4096, 4138); (4159, 4169); (4176, 4181);
    (4186, 4189); (4193, 4193); (4197, 4198); (4206, 4208); (4213, 4225);
    (4238, 4238); (4240, 4249); (4256, 4293); (4295, 4295); (4301, 4301);
    (4304, 4346); (4348, 4680); (4682, 4685); (4688, 4694); (4696, 4696);
    (4698, 4701); (4704, 4744); (4746, 4749); (4752, 4784); (4786, 4789);
    (4792, 4798); (4800, 4800); (4802, 4805); (4808, 4822); (4824, 4880);
    (4882, 4885); (4888, 4954); (4969, 4988); (4992, 5007); (5024, 5109);
    (5112, 5117); (5121, 5740); (5743, 5759); (5761, 5786); (5792, 5866);
    (5870, 5880); (5888, 5905); (5919, 5937); (5952, 5969); (5984, 5996);
    (5998, 6000); (6016, 6067); (6103, 6103); (6108, 6108); (6112, 6121);
    (6128, 6137); (6160, 6169); (6176, 6264); (6272, 6276); (6279, 6312);
    (6314, 6314); (6320, 6389); (6400, 6430); (6470, 6509); (6512, 6516);
    (6528, 6571); (6576, 6601); (6608, 6618); (6656, 6678); (6688, 6740);
    (6784, 6793); (6800, 6809); (6823, 6823); (6917, 6963); (6981, 6988);
    (6992, 7001); (7043, 7072); (7086, 7141); (7168, 7203); (7232, 7241);
    (7245, 7293); (7296, 7304); (7312, 7354); (7357, 7359); (7401, 7404);
    (7406, 7411); (7413, 7414); (7418, 7418); (7424, 7615); (7680, 7957);
    (7960, 7965); (7968, 8005); (8008, 8013); (8016, 8023); (8025, 8025);
    (8027, 8027); (8029, 8029); (8031, 8061); (8064, 8116); (8118, 8124);
    (8126, 8126); (8130, 8132); (8134, 8140); (8144, 8147); (8150, 8155);
    (8160, 8172); (8178, 8180); (8182, 8188); (8304, 8305); (8308, 8313);
    (8319, 8329); (8336, 8348); (8450, 8450); (8455, 8455); (8458, 8467);
    (8469, 8469); (8473, 8477); (8484, 8484); (8486, 8486); (8488, 8488);
    (8490, 8493); (8495, 8505); (8508, 8511); (8517, 8521); (8526, 8526);
    (8528, 8585); (9312, 9371); (9450, 9471); (10102, 10131); (11264, 11492);
    (11499, 11502); (11506, 11507); (11517, 11517); (11520, 11557);
    (11559, 11559); (11565, 11565); (11568, 11623); (11631, 11631);
    (11648, 11670); (11680, 11686); (11688, 11694); (11696, 11702);
    (11704, 11710); (11712, 11718); (11720, 11726); (11728, 11734);
    (11736, 11742); (11823, 11823); (12293, 12295); (12321, 12329);
    (12337, 12341); (12344, 12348); (12353, 12438); (12445, 12447);
    (12449, 12538); (12540, 12543); (12549, 12591); (12593, 12686);
    (12690, 12693); (12704, 12735); (12784, 12799); (12832, 12841);
    (12872, 12879); (12881, 12895); (12928, 12937); (12977, 12991);
    (13312, 19903); (19968, 42124); (42192, 42237); (42240, 42508);
    (42512, 42539); (42560, 42606); (42623, 42653); (42656, 42735);
    (42775, 42783); (42786, 42888); (42891, 42954); (42960, 42961);
    (42963, 42963); (42965, 42969); (42994, 43009); (43011, 43013);
    (43015, 43018); (43020, 43042); (43056, 43061); (43072, 43123);
    (43138, 43187); (43216, 43225); (43250, 43255); (43259, 43259);
    (43261, 43262); (43264, 43301); (43312, 43334); (43360, 43388);
    (43396, 43442); (43471, 43481); (43488, 43492); (43494, 43518);
    (43520, 43560); (43584, 43586); (43588, 43595); (43600, 43609);
    (43616, 43638); (43642, 43642); (43646, 43695); (43697, 43697);
    (43701, 43702); (43705, 43709); (43712, 43712); (43714, 43714);
    (43739, 43741); (43744, 43754); (43762, 43764); (43777, 43782);
    (43785, 43790); (43793, 43798); (43808, 43814); (43816, 43822);
    (43824, 43866); (43868, 43881); (43888, 44002); (44016, 44025);
    (44032, 55203); (55216, 55238); (55243, 55291); (63744, 64109);
    (64112, 64217); (64256, 64262); (64275, 64279); (64285, 64285);
    (64287, 64296); (64298, 64310); (64312, 64316); (64318, 64318);
    (64320, 64321); (64323, 64324); (64326, 64433); (64467, 64829);
    (64848, 64911); (64914, 64967); (65008, 65019); (65136, 65140);
    (65142, 65276); (65296, 65305); (65313, 65338); (65345, 65370);
    (65382, 65470); (65474, 65479); (65482, 65487); (65490, 65495);
    (65498, 65500); (65536, 65547); (65549, 65574); (65576, 65594);
    (65596, 65597); (65599, 65613); (65616, 65629); (65664, 65786);
    (65799, 65843); (65856, 65912); (65930, 65931); (66176, 66204);
    (66208, 66256); (66273, 66299); (66304, 66339); (66349, 66378);
    (66384, 66421); (66432, 66461); (66464, 66499); (66504, 66511);
    (66513, 66517); (66560, 66717); (66720, 66729); (66736, 66771);
    (66776, 66811); (66816, 66855); (66864, 66915); (66928, 66938);
    (66940, 66954); (66956, 66962); (66964, 66965); (66967, 66977);
    (66979, 66993); (66995, 67001); (67003, 67004); (67072, 67382);
    (67392, 67413); (67424, 67431); (67456, 67461); (67463, 67504);
    (67506, 67514); (67584, 67589); (67592, 67592); (67594, 67637);
    (67639, 67640); (67644, 67644); (67647, 67669); (67672, 67702);
    (67705, 67742); (67751, 67759); (67808, 67826); (67828, 67829);
    (67835, 67867); (67872, 67897); (67968, 68023); (68028, 68047);
    (68050, 68096); (68112, 68115); (68117, 68119); (68121, 68149);
    (68160, 68168); (68192, 68222); (68224, 68255); (68288, 68295);
    (68297, 68324); (68331, 68335); (68352, 68405); (68416, 68437);
    (68440, 68466); (68472, 68497); (68521, 68527); (68608, 68680);
    (68736, 68786); (68800, 68850); (68858, 68899); (68912, 68921);
    (69216, 69246); (69248, 69289); (69296, 69297); (69376, 69415);
    (69424, 69445); (69457, 69460); (69488, 69505); (69552, 69579);
    (69600, 69622); (69635, 69687); (69714, 69743); (69745, 69746);
    (69749, 69749); (69763, 69807); (69840, 69864); (69872, 69881);
    (69891, 69926); (69942, 69951); (69956, 69956); (69959, 69959);
    (69968, 70002); (70006, 70006); (70019, 70066); (70081, 70084);
    (70096, 70106); (70108, 70108); (70113, 70132); (70144, 70161);
    (70163, 70187); (70272, 70278); (70280, 70280); (70282, 70285);
    (70287, 70301); (70303, 70312); (70320, 70366); (70384, 70393);
    (70405, 70412); (70415, 70416); (70419, 70440); (70442, 70448);
    (70450, 70451); (70453, 70457); (70461, 70461); (70480, 70480);
    (70493, 70497); (70656, 70708); (70727, 70730); (70736, 70745);
    (70751, 70753); (70784, 70831); (70852, 70853); (70855, 70855);
    (70864, 70873); (71040, 71086); (71128, 71131); (71168, 71215);
    (71236, 71236); (71248, 71257); (71296, 71338); (71352, 71352);
    (71360, 71369); (71424, 71450); (71472, 71483); (71488, 71494);
    (71680, 71723); (71840, 71922); (71935, 71942); (71945, 71945);
    (71948, 71955); (71957, 71958); (71960, 71983); (71999, 71999);
    (72001, 72001); (72016, 72025); (72096, 72103); (72106, 72144);
    (72161, 72161); (72163, 72163); (72192, 72192); (72203, 72242);
    (72250, 72250); (72272, 72272); (72284, 72329); (72349, 72349);
    (72368, 72440); (72704, 72712); (72714, 72750); (72768, 72768);
    (72784, 72812); (72818, 72847); (72960, 72966); (72968, 72969);
    (72971, 73008); (73030, 73030); (73040, 73049); (73056, 73061);
    (73063, 73064); (73066, 73097); (73112, 73112); (73120, 73129);
    (73440, 73458); (73648, 73648); (73664, 73684); (73728, 74649);
    (74752, 74862); (74880, 75075); (77712, 77808); (77824, 78894);
    (82944, 83526); (92160, 92728); (92736, 92766); (92768, 92777);
    (92784, 92862); (92864, 92873); (92880, 92909); (92928, 92975);
    (92992, 92995); (93008, 93017); (93019, 93025); (93027, 93047);
    (93053, 93071); (93760, 93846); (93952, 94026); (94032, 94032);
    (94099, 94111); (94176, 94177); (94179, 94179); (94208, 100343);
    (100352, 101589); (101632, 101640); (110576, 110579); (110581, 110587);
    (110589, 110590); (110592, 110882); (110928, 110930); (110948, 110951);
    (110960, 111355); (113664, 113770); (113776, 113788); (113792, 113800);
    (113808, 113817); (119520, 119539); (119648, 119672); (119808, 119892);
    (119894, 119964); (119966, 119967); (119970, 119970); (119973, 119974);
    (119977, 119980); (119982, 119993); (119995, 119995); (119997, 120003);
    (120005, 120069); (120071, 120074); (120077, 120084); (120086, 120092);
    (120094, 120121); (120123, 120126); (120128, 120132); (120134, 120134);
    (120138, 120144); (120146, 120485); (120488, 120512); (120514, 120538);
    (120540, 120570); (120572, 120596); (120598, 120628); (120630, 120654);
    (120656, 120686); (120688, 120712); (120714, 120744); (120746, 120770);
    (120772, 120779); (120782, 120831); (122624, 122654); (123136, 123180);
    (123191, 123197); (123200, 123209); (123214, 123214); (123536, 123565);
    (123584, 123627); (123632, 123641); (124896, 124902); (124904, 124907);
    (124909, 124910); (124912, 124926); (124928, 125124); (125127, 125135);
    (125184, 125251); (125259, 125259); (125264, 125273); (126065, 126123);
    (126125, 126127); (126129, 126132); (126209, 126253); (126255, 126269);
    (126464, 126467); (126469, 126495); (126497, 126498); (126500, 126500);
    (126503, 126503); (126505, 126514); (126516, 126519); (126521, 126521);
    (126523, 126523); (126530, 126530); (126535, 126535); (126537, 126537);
    (126539, 126539); (126541, 126543); (126545, 126546); (126548, 126548);
    (126551, 126551); (126553, 126553); (126555, 126555); (126557, 126557);
    (126559, 126559); (126561, 126562); (126564, 126564); (126567, 126570);
    (126572, 126578); (126580, 126583); (126585, 126588); (126590, 126590);
    (126592, 126601); (126603, 126619); (126625, 126627); (126629, 126633);
    (126635, 126651); (127232, 127244); (130032, 130041); (131072, 173791);
    (173824, 177976); (177984, 178205); (178208, 183969); (183984, 191456);
    (194560, 195101); (196608, 201546) ]%N.

(** [unicodedata.decimal(c, None)]: the value of a decimal digit, which is
    the digit [int] reads. *)
Definition decimal (c : string) : option Z :=
  match find (in_range (ord c)) DECIMAL with
  | Some r => Some (Z.of_N ((ord c - fst r) mod 10))
  | None => None
  end.

(** [c.isdigit()], for a string of one character: a decimal digit or one of
    the other digits. *)
Definition isdigit (c : string) : bool :=
  in_ranges DECIMAL (ord c) || in_ranges DIGIT (ord c).

(** [c.isspace()], for a string of one character. *)
Definition isspace (c : string) : bool := in_ranges SPACE (ord c).

(** [c.isalnum()], for a string of one character. *)
Definition isalnum (c : string) : bool := in_ranges ALNUM (ord c).

(** *** Numbers *)

(** [sys.get_int_max_str_digits()], as the interpreter starts. *)
Definition INT_MAX_STR_DIGITS : Z := 4300.

Fixpoint int_digits (acc : Z) (cs : list string) : option Z :=
  match cs with
  | [] => Some acc
  | c :: cs' =>
      match decimal c with
      | Some d => int_digits (10 * acc + d) cs'
      | None => None
      end
  end.

(** [int(s)] for a string in which there is no sign, no white space and no
    underscore, which is how the resolver calls it; [None] where Python
    raises [ValueError]: on the empty string, on a character that is not a
    decimal digit, and on more digits than [INT_MAX_STR_DIGITS], leading
    zeros counted. *)
Definition int (s : string) : option Z :=
  match chars s with
  | [] => None
  | cs =>
      if INT_MAX_STR_DIGITS <? Z.of_nat (length cs) then None
      else int_digits 0 cs
  end.

(** *** Parts of a string *)

(** [s[-1]]: the last character, absent for the empty string (where Python
    raises [IndexError]). *)
Fixpoint last_char (cs : list string) : option string :=
  match cs with
  | [] => None
  | [c] => Some c
  | _ :: cs' => last_char cs'
  end.

Definition last (s : string) : option string := last_char (chars s).

(** [s[:-1]]: everything but the last character. *)
Definition init (s : string) : string := join (removelast (chars s)).

(** [s.startswith(p)]. *)
Definition startswith (p s : string) : bool := String.prefix p s.

(** [needle in hay]. *)
Fixpoint contains (needle hay : string) : bool :=
  String.prefix needle hay ||
  match hay with
  | EmptyString => false
  | String _ hay' => contains needle hay'
  end.

(** [s.rstrip(chars)] for ASCII characters to strip, given by a predicate on
    bytes. *)
Fixpoint rstrip (p : ascii -> bool) (s : string) : string :=
  match s with
  | EmptyString => EmptyString
  | String c s' =>
      match rstrip p s' with
      | EmptyString => if p c then EmptyString else String c EmptyString
      | r => String c r
      end
  end.

(** The characters left once the leading ones that satisfy [p] are gone. *)
Fixpoint lstrip_chars (p : string -> bool) (cs : list string) : list string :=
  match cs with
  | [] => []
  | c :: cs' => if p c then lstrip_chars p cs' else cs
  end.

(** [s.strip()]. *)
Definition strip (s : string) : string :=
  join (rev (lstrip_chars isspace (rev (lstrip_chars isspace (chars s))))).

(** [s.split()]: the maximal runs of characters that are not white space.
    [cur] is the run being read, last character first. *)
Definition flush (cur : list string) : list string :=
  match cur with
  | [] => []
  | _ => [join (rev cur)]
  end.

Fixpoint split_go (cur : list string) (cs : list string) : list string :=
  match cs with
  | [] => flush cur
  | c :: cs' =>
      if isspace c then flush cur ++ split_go [] cs'
      else split_go (c :: cur) cs'
  end.

Definition split (s : string) : list string := split_go [] (chars s).

(** [s.split(sep)[0]] for an ASCII separator: the part of [s] before the
    first [sep]. *)
Fixpoint before (sep : ascii) (s : string) : string :=
  match s with
  | EmptyString => EmptyString
  | String c s' => if Ascii.eqb c sep then EmptyString else String c (before sep s')
  end.

(** Truth value of a string, of an optional string and of optional bytes:
    [None] and the empty value are false. *)
Definition truthy (s : string) : bool :=
  match s with EmptyString => false | _ => true end.

Definition truthy_opt (o : option string) : bool :=
  match o with Some s => truthy s | None => false end.

Definition truthy_bytes (o : option (list Byte.byte)) : bool :=
  match o with Some (_ :: _) => true | _ => false end.

(** [a < b] on strings: by code point, a proper prefix first.  The order of
    the encodings is the order of the code points. *)
Definition str_lt (a b : string) : bool := String.ltb a b.

End Py.

(** ** Exceptions and results *)

(** The exception classes the module raises or meets.  All of them derive
    from [Exception]. *)
Inductive exn : Type :=
  | PlaywrightTimeout   (* playwright.async_api.TimeoutError *)
  | PlaywrightError     (* any other error of the browser *)
  | ClientError         (* aiohttp.ClientError *)
  | TimeoutError        (* the built-in TimeoutError *)
  | IndexError
  | KeyError
  | OSError             (* IOError is the same class *)
  | ValueError
  | OtherException.

Inductive Result (A : Type) : Type :=
  | Ok (a : A)
  | Raise (e : exn).

Arguments Ok {A} a.

Arguments Raise {A} e.

Abbreviation bytes := (list Byte.byte).

(** ** The page and the network, as the module sees them *)

(** [ElementHandle.bounding_box()]: the rendered box of an element. *)
Record Box : Type := { width : Q; height : Q }.

(** An [<img>] element: its box, absent when the element is not laid out,
    and its attributes in document order. *)
Record ImgBlock : Type := {
  bounding_box : option Box;
  attributes : list (string * string)
}.

(** A page once it has settled: [page.url] and the result of
    [page.query_selector_all("img")]. *)
Record Page : Type := {
  page_url : string;
  img_blocks : list ImgBlock
}.

(** An HTTP response: [response.status], [response.headers.get("Content-Type")]
    and the outcome of [await response.read()]. *)
Record Response : Type := {
  status : Z;
  content_type : option string;
  read : Result bytes
}.

(** The calls the log of the world keeps. *)
Inductive Call : Type :=
  | Goto (url : string)
  | HttpGet (url referer : string) (outcome : Result Response)
  | WriteFile (path : string) (data : bytes).

(** What the module does not define: the browser, the HTTP session, the file
    system, and the library functions it calls.  The state [Env] of the
    outside is threaded through every call, so a page or a server may answer
    differently each time. *)
Class Runtime : Type := {
  Env : Type;
  (** [browser.new_page()] *)
  browser_new_page : Env -> Result unit * Env;
  (** [page.goto(url)], [page.wait_for_load_state] and [page.inner_text("body")]:
      the text of the body *)
  page_goto : string -> Env -> Result string * Env;
  (** [page.wait_for_selector("img")], [page.wait_for_timeout] and
      [accept_cookies(page)]: the page as [get_img] then reads it *)
  page_settle : Env -> Result Page * Env;
  (** [page.close()] *)
  page_close : Env -> Result unit * Env;
  (** [session.get(url, headers)], the referer being the base URL *)
  session_get : string -> string -> Env -> Result Response * Env;
  (** [open(path, "wb")] and [f.write(data)] *)
  file_write : string -> bytes -> Env -> Result unit * Env;
  (** [urllib.parse.urljoin(base, url)] *)
  urljoin : string -> string -> string;
  (** [mimetypes.guess_extension(content_type)] *)
  guess_extension : string -> option string;
  (** PIL: open, verify, convert to RGB and save as JPEG *)
  image_to_jpeg : bytes -> Result bytes;
  (** [str.lower()] *)
  str_lower : string -> string
}.

(** ** [heapq]

    The module uses [heapq] through [heappush], [heapify], [heappop], the
    item [heap[0]] and the emptiness test.  A heap is modelled by the list of
    its items in the order [heappop] returns them: [heap[0]] is a smallest
    item and [heappop] removes it, which is all that [heapq] promises and all
    that the module observes.  [lt] is Python's [<] on the items. *)
Section Heapq.

Context {A : Type} (lt : A -> A -> bool).

Fixpoint heappush (heap : list A) (item : A) : list A :=
  match heap with
  | [] => [item]
  | x :: heap' => if lt item x then item :: heap else x :: heappush heap' item
  end.

Definition heapify (items : list A) : list A := fold_left heappush items [].

Definition heappop (heap : list A) : option (A * list A) :=
  match heap with
  | [] => None
  | x :: heap' => Some (x, heap')
  end.

End Heapq.

(** Python's [<] on the tuples [(-value, url)] of the resolver: the first
    components decide unless they are equal. *)
Definition weighted_lt (a b : Z * string) : bool :=
  if fst a =? fst b then Py.str_lt (snd a) (snd b) else fst a <? fst b.

(** Python's [<] on the tuples [(-area, i, img_block)] of [get_img]: the
    indices [i] differ, so the elements are never compared. *)
Definition area_lt (a b : Q * nat * ImgBlock) : bool :=
  let '(na, i, _) := a in
  let '(nb, j, _) := b in
  if Qeq_bool na nb then (i <? j)%nat
  else match Qcompare na nb with Lt => true | _ => false end.

(** ** Configuration ([config.py]) *)

Definition EXTRACTED_IMAGES_DIR : string := "extracted_images".

(** [KNOWN_MUSEUMS], in the order of the dictionary. *)
Definition KNOWN_MUSEUMS : list (string * string) :=
  [ ("mfa", "Museum of Fine Arts Boston");
    ("artic", "The Art Institute of Chicago");
    ("belvedere", "Austrian Gallery Belvedere");
    ("metmuseum", "The Metropolitan Museum of Art");
    ("nga", "The National Gallery of Art");
    ("sfmoma", "San Francisco Museum of Modern Art (SFMOMA)");
    ("guggenheim", "The Guggenheim Museum");
    ("philamuseum", "The Philadelphia Museum of Art");
    ("albertina", "Albertina Museum Wien");
    ("harvardartmuseums", "The Harvard Art Museums");
    ("leopoldmuseum", "The Leopold Museum");
    ("museodelnovecento", "The Museo del Novecento");
    ("moma", "Museum of Modern Art (MoMA)");
    ("galleriaborghese", "The Galleria Borghese");
    ("doriapamphilj", "Galleria Doria Pamphilji");
    ("famsf", "The Fine Arts Museums of San Francisco");
    ("noma", "The New Orleans Museum of Art (NOMA)");
    ("sjmusart", "The San José Museum of Art");
    ("bampfa", "Berkeley Art Museum and Pacific Film Archive (BAMPFA)");
    ("si", "Smithsonian Museums") ].

Definition CAPTCHA_KEYWORDS : list string :=
  [ "captcha"; "not a robot"; "cloudflare"; "verify you are human";
    "checking your browser"; "sicherheitsüberprüfung";
    "bestätigen sie, dass sie ein mensch sind"; "verifica di sicurezza";
    "verifica che tu sia un essere umano"; "verifica browser";
    "non sono ein robot" ].

(** ** The world and its monad *)

Section Scraper.

Context `{rt : Runtime}.

Record World : Type := { env : Env; calls : list Call }.

(** A coroutine returning an [A]. *)
Definition M (A : Type) : Type := World -> Result A * World.

Definition ret {A} (a : A) : M A := fun w => (Ok a, w).

Definition raise {A} (e : exn) : M A := fun w => (Raise e, w).

Definition bind {A B} (m : M A) (k : A -> M B) : M B :=
  fun w =>
    match m w with
    | (Ok a, w') => k a w'
    | (Raise e, w') => (Raise e, w')
    end.

(** [try: m  except ...: h e]; a handler re-raises what its clause does not
    catch. *)
Definition try_except {A} (m : M A) (h : exn -> M A) : M A :=
  fun w =>
    match m w with
    | (Ok a, w') => (Ok a, w')
    | (Raise e, w') => h e w'
    end.

(** A call of the outside world, logged or not. *)
Definition perform {A} (f : Env -> Result A * Env) (log : Result A -> list Call) : M A :=
  fun w =>
    let '(r, e) := f (env w) in
    (r, {| env := e; calls := calls w ++ log r |}).

Definition new_page : M unit := perform browser_new_page (fun _ => []).

Definition goto (url : string) : M string := perform (page_goto url) (fun _ => [Goto url]).

Definition settle : M Page := perform page_settle (fun _ => []).

Definition close : M unit := perform page_close (fun _ => []).

Definition get (url referer : string) : M Response :=
  perform (session_get url referer) (fun r => [HttpGet url referer r]).

Definition write (path : string) (data : bytes) : M unit :=
  perform (file_write path data) (fun _ => [WriteFile path data]).

(** The result of a coroutine that has already finished. *)
Definition lift {A} (r : Result A) : M A :=
  match r with Ok a => ret a | Raise e => raise e end.

End Scraper.

Declare Scope coroutine_scope.

Delimit Scope coroutine_scope with coroutine.

Notation "x <- m ;; k" := (bind m (fun x => k))
  (at level 20, m at level 99, k at level 200, only parsing) : coroutine_scope.

Notation "' p <- m ;; k" := (bind m (fun p => k))
  (at level 20, p pattern, m at level 99, k at level 200, only parsing) : coroutine_scope.

Local Open Scope coroutine_scope.

(** ** Retrieval: [download_image_from_url] *)

(** [(image_bytes, resolved_image_url, extension)], each of them [None] on
    failure. *)
Abbreviation ImageData := (option bytes * option string * option string)%type.

Section Retrieval.

Context `{rt : Runtime}.

(** [response.headers.get("Content-Type", "")] *)
Definition content_type_or_empty (response : Response) : string :=
  default "" (content_type response).

(** [mimetypes.guess_extension(content_type) or ".jpg"] *)
Definition extension_of (content_type : string) : string :=
  match guess_extension content_type with
  | Some ext => if Py.truthy ext then ext else ".jpg"
  | None => ".jpg"
  end.

Definition download_image_from_url (url base_url : string) : M ImageData :=
  let absolute_url := urljoin base_url url in
  try_except
    (response <- get absolute_url base_url ;;
     if (status response =? 200)
        && Py.startswith "image/" (content_type_or_empty response)
     then
       let content_type := Py.before ";" (content_type_or_empty response) in
       let extension := extension_of content_type in
       content <- lift (read response) ;;
       ret (Some content, Some absolute_url, Some extension)
     else ret (None, None, None))
    (fun e =>
       match e with
       | ClientError => ret (None, None, None)
       | TimeoutError => ret (None, None, None)
       | _ => raise e
       end).

(** The loop shared by every stage of the resolver:
    [for url in urls: r = await download_image_from_url(url, base_url);
     if img_bytes: return r].  [None] when the loop ends without returning. *)
Fixpoint try_downloads (urls : list string) (base_url : string) : M (option ImageData) :=
  match urls with
  | [] => ret None
  | url :: urls' =>
      r <- download_image_from_url url base_url ;;
      if Py.truthy_bytes (fst (fst r)) then ret (Some r)
      else try_downloads urls' base_url
  end.

End Retrieval.

(** ** Responsive sources: [extract_best_image_from_url] *)

(** [img_block.get_attribute(name)] *)
Definition get_attribute (img_block : ImgBlock) (name : string) : option string :=
  snd <$> find (fun kv => String.eqb (fst kv) name) (attributes img_block).

(** [[token.rstrip(",") for token in srcset.strip().split()]] *)
Definition srcset_tokens (srcset : string) : list string :=
  map (Py.rstrip (Ascii.eqb ",")) (Py.split (Py.strip srcset)).

(** [descriptor[-1] in ("w", "x") and any(c.isdigit() for c in descriptor[:-1])];
    [descriptor[-1]] raises on the empty string. *)
Definition is_descriptor (descriptor : string) : Result bool :=
  match Py.last descriptor with
  | None => Raise IndexError
  | Some c =>
      Ok ((String.eqb c "w" || String.eqb c "x")
          && existsb Py.isdigit (Py.chars (Py.init descriptor)))
  end.

(** [int(''.join(filter(str.isdigit, descriptor)))] *)
Definition descriptor_value (descriptor : string) : Result Z :=
  match Py.int (Py.join (List.filter Py.isdigit (Py.chars descriptor))) with
  | Some value => Ok value
  | None => Raise ValueError
  end.

(** The pairing loop.  [tokens] is [srcset_tokens[i:]]: the loop stops when
    fewer than two tokens are left, moves on by two after a pair and by one
    otherwise. *)
Fixpoint parse_srcset (tokens : list string) : Result (list (string * Z)) :=
  match tokens with
  | [] => Ok []
  | url :: tokens' =>
      match tokens' with
      | [] => Ok []
      | descriptor :: rest =>
          match is_descriptor descriptor with
          | Raise e => Raise e
          | Ok true =>
              match descriptor_value descriptor with
              | Raise e => Raise e
              | Ok value =>
                  match parse_srcset rest with
                  | Ok srcset_pairs => Ok ((url, value) :: srcset_pairs)
                  | Raise e => Raise e
                  end
              end
          | Ok false => parse_srcset tokens'
          end
      end
  end.

(** Which of the two branches the resolver takes after the pairing. *)
Inductive Strategy : Type := ReverseWalk | ByWeight.

(** The fallback branch: the tokens from the last to the first, those with
    no ["/"] skipped. *)
Definition fallback_candidates (srcset_tokens : list string) : list string :=
  List.filter (Py.contains "/") (rev srcset_tokens).

(** The weighted branch: [max_heap] after [heapq.heapify]. *)
Definition max_heap (srcset_pairs : list (string * Z)) : list (Z * string) :=
  heapify weighted_lt (map (fun p => (- snd p, fst p)) srcset_pairs).

(** [while max_heap: _, url = heapq.heappop(max_heap); ...]: the URLs in the
    order the loop meets them.  The loop makes at most [fuel] turns; the
    length of the heap is enough, since every turn removes an item. *)
Fixpoint pop_order (fuel : nat) (heap : list (Z * string)) : list string :=
  match fuel with
  | O => []
  | S fuel' =>
      match heappop heap with
      | None => []
      | Some (item, heap') => snd item :: pop_order fuel' heap'
      end
  end.

Definition weighted_candidates (srcset_pairs : list (string * Z)) : list string :=
  let heap := max_heap srcset_pairs in
  pop_order (length heap) heap.

(** The branch taken for a token list and the URLs it will try, in order. *)
Definition srcset_candidates (srcset_tokens : list string) : Result (Strategy * list string) :=
  match parse_srcset srcset_tokens with
  | Raise e => Raise e
  | Ok srcset_pairs =>
      if Z.of_nat (length srcset_pairs) * 2 <? Z.of_nat (length srcset_tokens)
      then Ok (ReverseWalk, fallback_candidates srcset_tokens)
      else Ok (ByWeight, weighted_candidates srcset_pairs)
  end.

(** The values of the attributes other than [src] and [srcset]. *)
Definition other_attribute_values (img_block : ImgBlock) : list string :=
  map snd
    (List.filter
       (fun kv => negb (String.eqb (fst kv) "src" || String.eqb (fst kv) "srcset"))
       (attributes img_block)).

Section Resolver.

Context `{rt : Runtime}.

Definition try_srcset (img_block : ImgBlock) (base_url : string) : M (option ImageData) :=
  match get_attribute img_block "srcset" with
  | Some srcset =>
      if Py.truthy srcset then
        plan <- lift (srcset_candidates (srcset_tokens srcset)) ;;
        try_downloads (snd plan) base_url
      else ret None
  | None => ret None
  end.

Definition try_src (img_block : ImgBlock) (base_url : string) : M (option ImageData) :=
  match get_attribute img_block "src" with
  | Some src => if Py.truthy src then try_downloads [src] base_url else ret None
  | None => ret None
  end.

Definition extract_best_image_from_url (img_block : ImgBlock) (base_url : string) : M ImageData :=
  found <- try_srcset img_block base_url ;;
  match found with
  | Some r => ret r
  | None =>
      found <- try_src img_block base_url ;;
      match found with
      | Some r => ret r
      | None =>
          found <- try_downloads (other_attribute_values img_block) base_url ;;
          match found with
          | Some r => ret r
          | None => ret (None, None, None)
          end
      end
  end.

End Resolver.

(** ** The largest image: [get_img] *)

(** [area = width * height] *)
Definition box_area (box : Box) : Q := (width box * height box)%Q.

(** One turn of the loop over [enumerate(img_blocks)]. *)
Definition push_img (heap : list (Q * nat * ImgBlock)) (entry : nat * ImgBlock)
  : list (Q * nat * ImgBlock) :=
  let '(i, img_block) := entry in
  match bounding_box img_block with
  | None => heap
  | Some box =>
      let area := box_area box in
      if Qeq_bool area 0 then heap
      else heappush area_lt heap ((- area)%Q, i, img_block)
  end.

(** [enumerate(l)] *)
Definition enumerate {A} (l : list A) : list (nat * A) :=
  combine (seq 0 (length l)) l.

(** The heap once the loop has ended. *)
Definition image_heap (img_blocks : list ImgBlock) : list (Q * nat * ImgBlock) :=
  fold_left push_img (enumerate img_blocks) [].

(** [heap[0][2]], when the heap is not empty. *)
Definition largest_image (img_blocks : list ImgBlock) : option ImgBlock :=
  match image_heap img_blocks with
  | [] => None
  | (_, _, img_block) :: _ => Some img_block
  end.

Section Selector.

Context `{rt : Runtime}.

Definition convert_to_jpeg (img_bytes : bytes) (img_extension : string)
  : Result (bytes * string) :=
  match image_to_jpeg img_bytes with
  | Ok jpeg => Ok (jpeg, ".jpg")
  | Raise OSError => Ok (img_bytes, img_extension)
  | Raise ValueError => Ok (img_bytes, img_extension)
  | Raise e => Raise e
  end.

(** What [get_img] does with the answer of the resolver: convert and save
    the image if all three components are there and none is empty. *)
Definition save_image (img_name : string) (found : ImageData)
  : M (option string * option string) :=
  let '(img_bytes, img_url, img_extension) := found in
  match img_bytes, img_url, img_extension with
  | Some data, Some url, Some ext =>
      if Py.truthy_bytes img_bytes && Py.truthy url && Py.truthy ext then
        '(data, ext) <- lift (convert_to_jpeg data ext) ;;
        let img_path := EXTRACTED_IMAGES_DIR +:+ "/" +:+ img_name +:+ ext in
        _ <- write img_path data ;;
        ret (Some img_path, Some url)
      else ret (None, None)
  | _, _, _ => ret (None, None)
  end.

Definition get_img (page : Page) (base_url img_name : string)
  : M (option string * option string) :=
  match largest_image (img_blocks page) with
  | None => ret (None, None)
  | Some img_to_download =>
      found <- extract_best_image_from_url img_to_download base_url ;;
      save_image img_name found
  end.

(** ** One page: [extract_main_image_from_page] *)

Definition _is_captcha_page (content : string) : bool :=
  let content_lower := str_lower content in
  existsb (fun keyword => Py.contains keyword content_lower) CAPTCHA_KEYWORDS.

(** A coroutine run inside a [try]: what it returned or raised. *)
Definition attempt {A} (m : M A) : M (Result A) :=
  fun w => let '(r, w') := m w in (Ok r, w').

Definition extract_main_image_from_page (painting_name url : string)
  : M (option string * option string) :=
  created <- attempt new_page ;;
  match created with
  | Raise _ => ret (None, None)          (* [page] is still [None] *)
  | Ok _ =>
      r <- attempt
             (content <- goto url ;;
              if _is_captcha_page content then
                _ <- close ;; ret (None, None)
              else
                page <- settle ;;
                r <- get_img page (page_url page) painting_name ;;
                _ <- close ;;
                ret r) ;;
      _ <- attempt close ;;              (* [finally], errors ignored *)
      match r with
      | Ok found => ret found
      | Raise _ => ret (None, None)      (* [except Exception] *)
      end
  end.

(** ** One painting: the tiers and [process_a_painting] *)

(** The first entry of [KNOWN_MUSEUMS] whose keyword occurs in the URL. *)
Definition museum_of (url : string) : option string :=
  snd <$> find (fun entry => Py.contains (fst entry) url) KNOWN_MUSEUMS.

Fixpoint _detect_museum_from_urls (urls : list string) : string :=
  match urls with
  | [] => "Unknown location"
  | url :: urls' =>
      match museum_of url with
      | Some museum_name => museum_name
      | None => _detect_museum_from_urls urls'
      end
  end.

(** The loop of [_try_wikipedia_urls], [invalid_urls] being the set so far. *)
Fixpoint wikipedia_loop (painting_name : string) (urls : list string)
    (invalid_urls : gset string) : M (option string * option string * gset string) :=
  match urls with
  | [] => ret (None, None, invalid_urls)
  | url :: urls' =>
      if Py.contains "wikipedia" url then
        '(img_path, img_url) <- extract_main_image_from_page painting_name url ;;
        if Py.truthy_opt img_path then ret (img_path, img_url, invalid_urls)
        else wikipedia_loop painting_name urls' ({[url]} ∪ invalid_urls)
      else wikipedia_loop painting_name urls' invalid_urls
  end.

Definition _try_wikipedia_urls (painting_name : string) (urls : list string)
  : M (option string * option string * gset string) :=
  wikipedia_loop painting_name urls ∅.

(** [_try_museum_urls] adds to the set it is given; the set it leaves is
    returned beside its three results. *)
Fixpoint _try_museum_urls (painting_name : string) (urls : list string)
    (invalid_urls : gset string)
  : M (option string * option string * string * gset string) :=
  match urls with
  | [] => ret (None, None, "Unknown location", invalid_urls)
  | url :: urls' =>
      if decide (url ∈ invalid_urls) then _try_museum_urls painting_name urls' invalid_urls
      else
        match museum_of url with
        | Some museum_name =>
            '(img_path, img_url) <- extract_main_image_from_page painting_name url ;;
            if Py.truthy_opt img_path then ret (img_path, img_url, museum_name, invalid_urls)
            else _try_museum_urls painting_name urls' ({[url]} ∪ invalid_urls)
        | None => _try_museum_urls painting_name urls' invalid_urls
        end
  end.

Fixpoint _try_remaining_urls (painting_name : string) (urls : list string)
    (invalid_urls : gset string) : M (option string * option string) :=
  match urls with
  | [] => ret (None, None)
  | url :: urls' =>
      if decide (url ∈ invalid_urls) then _try_remaining_urls painting_name urls' invalid_urls
      else
        '(img_path, img_url) <- extract_main_image_from_page painting_name url ;;
        if Py.truthy_opt img_path then ret (img_path, img_url)
        else _try_remaining_urls painting_name urls' invalid_urls
  end.

End Selector.

(** The [urls] argument: a list of URLs, or the string the search returns
    when it fails. *)
Inductive Urls : Type :=
  | UrlList (urls : list string)
  | UrlError (message : string).

(** The second component of a result: the path of the image, or [[]]. *)
Inductive PathOrList : Type :=
  | PathStr (path : string)
  | PathList (paths : list string).

(** [BatchResult], the five components in order. *)
Record BatchResult : Type := {
  plaque_text : string;
  image_path : PathOrList;
  source : string;      (* the page URL, or the status message *)
  location : string;
  image_url : string
}.

Section Dispatcher.

Context `{rt : Runtime}.

(** [d[key]] *)
Definition getitem {V} (d : gmap string V) (key : string) : M V :=
  match d !! key with
  | Some v => ret v
  | None => raise KeyError
  end.

(** [cur_batch_results[painting_name] = (...)] for a found image. *)
Definition record_success (painting_name : string) (urls0 : string)
    (img_path : option string) (painting_location : string) (img_url : option string)
    (cur_batch_names_to_imgs : gmap string string)
    (cur_batch_results : gmap string BatchResult) : M (gmap string BatchResult) :=
  text <- getitem cur_batch_names_to_imgs painting_name ;;
  ret (<[painting_name :=
          {| plaque_text := text;
             image_path := PathStr (default "" img_path);
             source := urls0;
             location := painting_location;
             image_url := default "" img_url     (* [img_url or ""] *) |}]>
       cur_batch_results).

Definition process_a_painting (painting_name : string) (urls : Urls)
    (cur_batch_names_to_imgs : gmap string string)
    (cur_batch_results : gmap string BatchResult) : M (gmap string BatchResult) :=
  match urls with
  | UrlList ((urls0 :: _) as urls) =>
      let painting_location := _detect_museum_from_urls urls in
      '(img_path, img_url, invalid_urls) <- _try_wikipedia_urls painting_name urls ;;
      if Py.truthy_opt img_path then
        record_success painting_name urls0 img_path painting_location img_url
          cur_batch_names_to_imgs cur_batch_results
      else
        '(img_path, img_url, museum_location, invalid_urls) <-
          _try_museum_urls painting_name urls invalid_urls ;;
        if Py.truthy_opt img_path then
          record_success painting_name urls0 img_path museum_location img_url
            cur_batch_names_to_imgs cur_batch_results
        else
          '(img_path, img_url) <- _try_remaining_urls painting_name urls invalid_urls ;;
          if Py.truthy_opt img_path then
            record_success painting_name urls0 img_path painting_location img_url
              cur_batch_names_to_imgs cur_batch_results
          else
            text <- getitem cur_batch_names_to_imgs painting_name ;;
            ret (<[painting_name :=
                    {| plaque_text := text;
                       image_path := PathList [];
                       source := "No image was downloaded even though some urls were found.";
                       location := painting_location;
                       image_url := "" |}]>
                 cur_batch_results)
  | _ =>
      (* [not urls or isinstance(urls, str)] *)
      text <- getitem cur_batch_names_to_imgs painting_name ;;
      ret (<[painting_name :=
              {| plaque_text := text;
                 image_path := PathList [];
                 source := "No image was downloaded (no urls were found).";
                 location := "Unknown location";
                 image_url := "No url to download the image was located." |}]>
           cur_batch_results)
  end.

End Dispatcher.

(** * The vocabulary of the properties

    The orders, traces and records in whose terms the properties below are
    stated. *)

(** A character, as [Py.chars] gives it: read again, it is one character. *)
Definition one_char (c : string) : Prop := Py.chars_go c = (EmptyString, [c]).

(** The digit characters of a token, in order. *)
Definition digits_of (token : string) : list string :=
  List.filter Py.isdigit (Py.chars token).

(** The weight of a descriptor, said without [int]: its digit characters,
    read left to right as one decimal numeral.  There is no such number when
    one of them is a digit without a decimal value. *)
Definition digits_as_number (token : string) : option Z :=
  fold_left
    (fun number c =>
       match number, Py.decimal c with
       | Some n, Some d => Some (10 * n + d)
       | _, _ => None
       end)
    (digits_of token) (Some 0).





(** An element is pushed when it has a box whose area is not zero. *)
Definition has_area (img_block : ImgBlock) (box : Box) : Prop :=
  bounding_box img_block = Some box /\ ~ (box_area box == 0)%Q.

(** The URLs a log of fetches names, in order. *)
Definition fetched (log : list Call) : list string :=
  omap (fun c => match c with HttpGet url _ _ => Some url | _ => None end) log.

(** The URLs a log navigates to, in order. *)
Definition navigations (log : list Call) : list string :=
  omap (fun c => match c with Goto url => Some url | _ => None end) log.

Section Vocabulary.
Context `{rt : Runtime}.

(** What [download_image_from_url] returns or raises, given how the fetch of
    the absolute URL ended. *)
Definition download_result (absolute_url : string) (outcome : Result Response)
  : Result ImageData :=
  match outcome with
  | Ok response =>
      if (status response =? 200)
         && Py.startswith "image/" (content_type_or_empty response)
      then
        match read response with
        | Ok content =>
            Ok (Some content, Some absolute_url,
                Some (extension_of (Py.before ";" (content_type_or_empty response))))
        | Raise ClientError => Ok (None, None, None)
        | Raise TimeoutError => Ok (None, None, None)
        | Raise e => Raise e
        end
      else Ok (None, None, None)
  | Raise ClientError => Ok (None, None, None)
  | Raise TimeoutError => Ok (None, None, None)
  | Raise e => Raise e
  end.

(** The fetches of a run of [try_downloads] over [urls], and its result:
    the URLs are fetched in order, each download before the last one gave no
    bytes, and the run ends at the first download that gives bytes or raises. *)
Inductive Attempts (base_url : string)
  : list string -> list Call -> Result (option ImageData) -> Prop :=
  | attempts_none :
      Attempts base_url [] [] (Ok None)
  | attempts_found url urls outcome r :
      download_result (urljoin base_url url) outcome = Ok r ->
      Py.truthy_bytes (fst (fst r)) = true ->
      Attempts base_url (url :: urls)
        [HttpGet (urljoin base_url url) base_url outcome] (Ok (Some r))
  | attempts_raise url urls outcome e :
      download_result (urljoin base_url url) outcome = Raise e ->
      Attempts base_url (url :: urls)
        [HttpGet (urljoin base_url url) base_url outcome] (Raise e)
  | attempts_next url urls outcome r log res :
      download_result (urljoin base_url url) outcome = Ok r ->
      Py.truthy_bytes (fst (fst r)) = false ->
      Attempts base_url urls log res ->
      Attempts base_url (url :: urls)
        (HttpGet (urljoin base_url url) base_url outcome :: log) res.

(** A coroutine that opens no page. *)
Definition quiet {A} (m : M A) : Prop :=
  forall w, navigations (calls (snd (m w))) = navigations (calls w).

End Vocabulary.

(** The record of a painting whose image was saved at [path]. *)
Definition success_record (text path urls0 painting_location : string)
    (img_url : option string) : BatchResult :=
  {| plaque_text := text;
     image_path := PathStr path;
     source := urls0;
     location := painting_location;
     image_url := default "" img_url |}.

(** The record of a painting none of whose URLs gave an image. *)
Definition exhausted_record (text painting_location : string) : BatchResult :=
  {| plaque_text := text;
     image_path := PathList [];
     source := "No image was downloaded even though some urls were found.";
     location := painting_location;
     image_url := "" |}.

(** The record of a painting that came with no URL. *)
Definition no_urls_record (text : string) : BatchResult :=
  {| plaque_text := text;
     image_path := PathList [];
     source := "No image was downloaded (no urls were found).";
     location := "Unknown location";
     image_url := "No url to download the image was located." |}.


(** * The earlier script, [web_scrapping.py]

    The repository keeps the script the package was made from.  Its resolver
    is the same; its downloads, its selector and its dispatcher differ, and
    three of the properties proved of the package fail on it. *)

Module Legacy.

Section Script.

Context `{rt : Runtime}.

(** The [except:] of the script catches every exception. *)
Definition download_image_from_url (url base_url : string) : M ImageData :=
  let absolute_url := urljoin base_url url in
  try_except
    (response <- get absolute_url base_url ;;
     if (status response =? 200)
        && Py.startswith "image/" (content_type_or_empty response)
     then
       let content_type := Py.before ";" (content_type_or_empty response) in
       let extension := extension_of content_type in
       content <- lift (read response) ;;
       ret (Some content, Some absolute_url, Some extension)
     else ret (None, None, None))
    (fun _ => ret (None, None, None)).

Fixpoint try_downloads (urls : list string) (base_url : string) : M (option ImageData) :=
  match urls with
  | [] => ret None
  | url :: urls' =>
      r <- download_image_from_url url base_url ;;
      if Py.truthy_bytes (fst (fst r)) then ret (Some r)
      else try_downloads urls' base_url
  end.

Definition extract_best_image_from_url (img_block : ImgBlock) (base_url : string)
  : M ImageData :=
  found <- match get_attribute img_block "srcset" with
           | Some srcset =>
               if Py.truthy srcset then
                 plan <- lift (srcset_candidates (srcset_tokens srcset)) ;;
                 try_downloads (snd plan) base_url
               else ret None
           | None => ret None
           end ;;
  match found with
  | Some r => ret r
  | None =>
      found <- match get_attribute img_block "src" with
               | Some src =>
                   if Py.truthy src then try_downloads [src] base_url else ret None
               | None => ret None
               end ;;
      match found with
      | Some r => ret r
      | None =>
          found <- try_downloads (other_attribute_values img_block) base_url ;;
          match found with
          | Some r => ret r
          | None => ret (None, None, None)
          end
      end
  end.

Definition convert_to_jpeg (img_bytes : bytes) (img_extension : string) : bytes * string :=
  match image_to_jpeg img_bytes with
  | Ok jpeg => (jpeg, ".jpg")
  | Raise _ => (img_bytes, img_extension)
  end.

(** [heap[0][2]] is read without asking whether the heap is empty. *)
Definition get_img (page : Page) (base_url img_name : string)
  : M (option string * option string) :=
  match image_heap (img_blocks page) with
  | [] => raise IndexError
  | (_, _, img_to_download) :: _ =>
      '(img_bytes, img_url, img_extension) <-
        extract_best_image_from_url img_to_download base_url ;;
      match img_bytes with
      | Some (b :: data) =>
          let '(jpeg, ext) := convert_to_jpeg (b :: data) (default "" img_extension) in
          let img_path := "final_results/extracted_images/" +:+ img_name +:+ ext in
          _ <- write img_path jpeg ;;
          ret (Some img_path, img_url)
      | _ => ret (None, None)
      end
  end.

Definition extract_main_image_from_page (painting_name url : string)
  : M (option string * option string) :=
  created <- attempt new_page ;;
  match created with
  | Raise _ => ret (None, None)        (* [page] is unbound: the close fails, unseen *)
  | Ok _ =>
      r <- attempt
             (content <- goto url ;;
              if _is_captcha_page content then
                _ <- close ;; ret (None, None)
              else
                page <- settle ;;
                r <- get_img page (page_url page) painting_name ;;
                _ <- close ;;
                ret r) ;;
      match r with
      | Ok found => ret found
      | Raise _ => _ <- attempt close ;; ret (None, None)
      end
  end.

(** The state of the three loops of the script: the location label, the set
    of invalid URLs, and the tuple written when a URL gave an image. *)
Definition found_record (text : string) (img_path : option string) (url : string)
    (painting_location : string) (img_url : option string) : BatchResult :=
  {| plaque_text := text;
     image_path := PathStr (default "" img_path);
     source := url;
     location := painting_location;
     image_url := default "" img_url |}.

(** Loop 1: the URLs that contain ["wikipedia"].  [inl] is the [return] out
    of the function, [inr] the set of invalid URLs when the loop ends. *)
Fixpoint wikipedia_loop (painting_name : string) (urls : list string)
    (invalid_urls : gset string)
  : M ((string * option string * option string) + gset string) :=
  match urls with
  | [] => ret (inr invalid_urls)
  | url :: urls' =>
      if Py.contains "wikipedia" url then
        '(img_path, img_url) <- extract_main_image_from_page painting_name url ;;
        if Py.truthy_opt img_path then ret (inl (url, img_path, img_url))
        else wikipedia_loop painting_name urls' ({[url]} ∪ invalid_urls)
      else wikipedia_loop painting_name urls' invalid_urls
  end.

(** Loop 2, inner part: every keyword of the table that occurs in the URL
    sets the label and opens the URL; the set of invalid URLs is not read. *)
Fixpoint museum_domains_loop (painting_name url : string)
    (table : list (string * string)) (painting_location : string)
    (invalid_urls : gset string)
  : M ((string * option string * option string * string) + (string * gset string)) :=
  match table with
  | [] => ret (inr (painting_location, invalid_urls))
  | (museum_domain, museum_name) :: table' =>
      if Py.contains museum_domain url then
        '(img_path, img_url) <- extract_main_image_from_page painting_name url ;;
        if Py.truthy_opt img_path then ret (inl (url, img_path, img_url, museum_name))
        else museum_domains_loop painting_name url table' museum_name
               ({[url]} ∪ invalid_urls)
      else museum_domains_loop painting_name url table' painting_location invalid_urls
  end.

Fixpoint museum_loop (painting_name : string) (urls : list string)
    (painting_location : string) (invalid_urls : gset string)
  : M ((string * option string * option string * string) + (string * gset string)) :=
  match urls with
  | [] => ret (inr (painting_location, invalid_urls))
  | url :: urls' =>
      r <- museum_domains_loop painting_name url KNOWN_MUSEUMS painting_location
             invalid_urls ;;
      match r with
      | inl found => ret (inl found)
      | inr (painting_location, invalid_urls) =>
          museum_loop painting_name urls' painting_location invalid_urls
      end
  end.

(** Loop 3. *)
Fixpoint remaining_loop (painting_name : string) (urls : list string)
    (invalid_urls : gset string) : M (option (string * option string * option string)) :=
  match urls with
  | [] => ret None
  | url :: urls' =>
      if decide (url ∈ invalid_urls) then remaining_loop painting_name urls' invalid_urls
      else
        '(img_path, img_url) <- extract_main_image_from_page painting_name url ;;
        if Py.truthy_opt img_path then ret (Some (url, img_path, img_url))
        else remaining_loop painting_name urls' invalid_urls
  end.

(** [process_a_painting] of the script, for a list of URLs. *)
Definition process_a_painting (painting_name : string) (urls : list string)
    (cur_batch_names_to_imgs : gmap string string)
    (cur_batch_results : gmap string BatchResult) : M (gmap string BatchResult) :=
  match urls with
  | [] =>
      text <- getitem cur_batch_names_to_imgs painting_name ;;
      ret (<[painting_name := no_urls_record text]> cur_batch_results)
  | _ =>
      let painting_location := _detect_museum_from_urls urls in
      r <- wikipedia_loop painting_name urls ∅ ;;
      match r with
      | inl (url, img_path, img_url) =>
          text <- getitem cur_batch_names_to_imgs painting_name ;;
          ret (<[painting_name := found_record text img_path url painting_location img_url]>
               cur_batch_results)
      | inr invalid_urls =>
          r <- museum_loop painting_name urls painting_location invalid_urls ;;
          match r with
          | inl (url, img_path, img_url, painting_location) =>
              text <- getitem cur_batch_names_to_imgs painting_name ;;
              ret (<[painting_name :=
                      found_record text img_path url painting_location img_url]>
                   cur_batch_results)
          | inr (painting_location, invalid_urls) =>
              r <- remaining_loop painting_name urls invalid_urls ;;
              match r with
              | Some (url, img_path, img_url) =>
                  text <- getitem cur_batch_names_to_imgs painting_name ;;
                  ret (<[painting_name :=
                          found_record text img_path url painting_location img_url]>
                       cur_batch_results)
              | None =>
                  text <- getitem cur_batch_names_to_imgs painting_name ;;
                  ret (<[painting_name := exhausted_record text painting_location]>
                       cur_batch_results)
              end
          end
      end
  end.

End Script.

End Legacy.

(** ** A scripted outside world

    A runtime whose pages and files are given by two tables, for running the
    module on concrete inputs.  Its state is the URL of the open page. *)

Module Demo.

Record Site : Type := {
  pages : list (string * (string * Page));   (* URL, body text, settled page *)
  files : list (string * Response)           (* URL, response *)
}.

Definition lookup {V} (key : string) (table : list (string * V)) : option V :=
  snd <$> find (fun entry => String.eqb (fst entry) key) table.

Definition runtime (site : Site) : Runtime := {|
  Env := string;
  browser_new_page := fun e => (Ok tt, e);
  page_goto := fun url _ =>
    (match lookup url (pages site) with
     | Some (text, _) => Ok text
     | None => Raise PlaywrightTimeout
     end, url);
  page_settle := fun e =>
    (match lookup e (pages site) with
     | Some (_, page) => Ok page
     | None => Raise PlaywrightError
     end, e);
  page_close := fun e => (Ok tt, e);
  session_get := fun url _ e =>
    (match lookup url (files site) with
     | Some response => Ok response
     | None => Raise ClientError
     end, e);
  file_write := fun _ _ e => (Ok tt, e);
  urljoin := fun _ url => url;
  guess_extension := fun content_type =>
    if String.eqb content_type "image/png" then Some ".png" else None;
  image_to_jpeg := fun data => Ok data;
  str_lower := fun s => s
|}.

(** The world before anything was called. *)
Definition start (site : Site) : @World (runtime site) :=
  {| env := EmptyString : @Env (runtime site); calls := [] |}.

(** A page with one image of 640 by 480 whose [src] is [src]. *)
Definition page_with_image (url src : string) : string * (string * Page) :=
  (url, ("a painting",
         {| page_url := url;
            img_blocks := [ {| bounding_box := Some {| width := 640; height := 480 |};
                               attributes := [("src", src)] |} ] |})).

(** A PNG of three bytes served at [url]. *)
Definition png_at (url : string) : string * Response :=
  (url, {| status := 200; content_type := Some "image/png";
           read := Ok [Byte.x89; Byte.x50; Byte.x4e] |}).

(** An image element with the given width and height, if any, and [src]. *)
Definition img_with_box (size : option (Q * Q)) (src : string) : ImgBlock :=
  {| bounding_box := option_map (fun s => {| width := fst s; height := snd s |}) size;
     attributes := [("src", src)] |}.

(** An image element with the given [srcset]. *)
Definition img_with_srcset (srcset : string) : ImgBlock :=
  {| bounding_box := Some {| width := 10; height := 10 |};
     attributes := [("srcset", srcset)] |}.

(** No page and no file: every navigation times out, every fetch fails. *)
Definition nothing : Site := {| pages := []; files := [] |}.

End Demo.

(** ** Scenarios *)

Module Scenario.

Definition wikipedia : string := "https://en.wikipedia.org/wiki/Mona_Lisa".

Definition elsewhere : string := "https://example.com/x".

Definition boston : string := "https://www.mfa.org/a".

Definition new_york : string := "https://www.metmuseum.org/b".

Definition image : string := "https://img.example/full.png".

Definition names : gmap string string := {["Mona Lisa" := "Mona Lisa, Leonardo da Vinci"]}.

(** The encyclopedia page loads and holds one large image. *)
Definition encyclopedia : Demo.Site :=
  {| Demo.pages := [Demo.page_with_image wikipedia image];
     Demo.files := [Demo.png_at image] |}.

(** The page of the first museum does not load, that of the second does. *)
Definition two_museums : Demo.Site :=
  {| Demo.pages := [Demo.page_with_image new_york image];
     Demo.files := [Demo.png_at image] |}.

(** What a run recorded for a painting. *)
Definition recorded (run : Result (gmap string BatchResult)) (painting_name : string)
  : option BatchResult :=
  match run with
  | Ok results => results !! painting_name
  | Raise _ => None
  end.


End Scenario.

(** * More of the package

    The vocabulary of the further properties of the scraper, and the parts
    of the package that the model above leaves to the outside: the button
    clicked on a cookie banner, the search that gives the URLs, and the two
    functions that prepare the photograph of a plaque for the recognition. *)

(** ** The resolver and the page, as the further properties see them *)

(** The paths a log writes to, in order. *)
Definition saved_paths (log : list Call) : list string :=
  omap (fun c => match c with WriteFile path _ => Some path | _ => None end) log.

(** The URLs the three stages of the resolver will try for an element, in
    order: those of the [srcset], the [src], the values of the other
    attributes.  Pairing the tokens of the [srcset] may raise. *)
Definition srcset_stage (img_block : ImgBlock) : Result (list string) :=
  match get_attribute img_block "srcset" with
  | Some srcset =>
      if Py.truthy srcset then
        match srcset_candidates (srcset_tokens srcset) with
        | Ok plan => Ok (snd plan)
        | Raise e => Raise e
        end
      else Ok []
  | None => Ok []
  end.

Definition src_stage (img_block : ImgBlock) : list string :=
  match get_attribute img_block "src" with
  | Some src => if Py.truthy src then [src] else []
  | None => []
  end.

Definition resolver_candidates (img_block : ImgBlock) : Result (list string) :=
  match srcset_stage img_block with
  | Ok candidates => Ok (candidates ++ src_stage img_block ++ other_attribute_values img_block)
  | Raise e => Raise e
  end.

(** What the resolver returns when its walk ended with [res]. *)
Definition found_or_nothing (res : Result (option ImageData)) : Result ImageData :=
  match res with
  | Ok (Some r) => Ok r
  | Ok None => Ok (None, None, None)
  | Raise e => Raise e
  end.

(** A file of the images directory named after a painting. *)
Definition image_file_of (painting_name path : string) : Prop :=
  exists ext, ext <> "" /\ path = EXTRACTED_IMAGES_DIR +:+ "/" +:+ painting_name +:+ ext.

Section PageVocabulary.

Context `{rt : Runtime}.

(** A coroutine none of whose calls [observe] sees. *)
Definition unseen {A B} (observe : Call -> option B) (m : M A) : Prop :=
  forall w, omap observe (calls (snd (m w))) = omap observe (calls w).

(** What [extract_main_image_from_page] does once the page is created: the
    body of its [try]. *)
Definition page_body (painting_name url : string) : M (option string * option string) :=
  content <- goto url ;;
  if _is_captcha_page content then
    _ <- close ;; ret (None, None)
  else
    page <- settle ;;
    r <- get_img page (page_url page) painting_name ;;
    _ <- close ;;
    ret r.

End PageVocabulary.

Section Provenance.

Context `{rt : Runtime}.

(** The last call of a log is a fetch that gave an image: the response had
    status 200 and an image type, and its body, which is not empty, was
    read. *)
Definition fetched_image (log : list Call) (absolute_url : string) (content : bytes)
  : Prop :=
  exists earlier referer response,
    log = earlier ++ [HttpGet absolute_url referer (Ok response)]
    /\ status response = 200
    /\ Py.startswith "image/" (content_type_or_empty response) = true
    /\ read response = Ok content
    /\ content <> [].

(** The last two calls of a log are the fetch of an image at [img_url] and
    the writing of that image to [path], converted to JPEG when it could
    be. *)
Definition delivered (log : list Call) (path : string) (img_url : option string) : Prop :=
  exists fetches absolute_url content data,
    log = fetches ++ [WriteFile path data]
    /\ fetched_image fetches absolute_url content
    /\ img_url = Some absolute_url
    /\ (image_to_jpeg content = Ok data \/ data = content).

End Provenance.

(** ** The script, as the further properties see it *)

(** What a loop of the script shows of its result, the set of invalid URLs
    left out. *)
Definition without_set {F L} (r : Result (F + (L * gset string))) : Result (F + L) :=
  match r with
  | Ok (inl found) => Ok (inl found)
  | Ok (inr (painting_location, _)) => Ok (inr painting_location)
  | Raise e => Raise e
  end.

Section LegacyVocabulary.

Context `{rt : Runtime}.

(** The visit of the script that ended a run in [w']: it opened [url], a URL
    of the list, and returned the path and the image URL. *)
Definition answered_by (painting_name : string) (urls : list string) (w' : World)
    (url : string) (img_path img_url : option string) : Prop :=
  In url urls
  /\ Py.truthy_opt img_path = true
  /\ exists w0,
       Legacy.extract_main_image_from_page painting_name url w0
       = (Ok (img_path, img_url), w').

End LegacyVocabulary.

(** ** Cookie banners: [accept_cookies]

    In the page pipeline above, [page_settle] stands for the waits and for
    this function, which returns nothing the pipeline reads.  Here it is
    modelled for itself, over the buttons of the page. *)

Definition COOKIE_CONSENT_KEYWORDS : list string :=
  [ "accept"; "allow"; "akzeptieren"; "consent"; "zustimmen"; "agree";
    "einwilligen"; "accetta"; "consenti"; "acconsenti"; "ho capito" ].

(** The buttons of a page, as [accept_cookies] reaches them.  The state
    [Dom] of the page is threaded through every call: a click may change what
    the next call answers. *)
Class Buttons : Type := {
  Dom : Type;
  ElementHandle : Type;
  (** [page.query_selector_all("button, input[type='button'], ...")] *)
  query_selector_all : Dom -> Result (list ElementHandle) * Dom;
  (** [b.is_visible()] *)
  is_visible : ElementHandle -> Dom -> Result bool * Dom;
  (** [b.get_attribute("disabled")] *)
  get_disabled : ElementHandle -> Dom -> Result (option string) * Dom;
  (** [button.evaluate("el => el.outerHTML")] *)
  outer_html : ElementHandle -> Dom -> Result string * Dom;
  (** [button.click()] *)
  click : ElementHandle -> Dom -> Result unit * Dom
}.

Module Re.

(** [\w] on a [str]: an alphanumeric character or the underscore. *)
Definition isword (c : string) : bool := Py.isalnum c || (Py.ord c =? 95)%N.

Definition isword_opt (c : option string) : bool :=
  match c with Some c => isword c | None => false end.

(** [\b] between the character before and the character after a position. *)
Definition word_boundary (prev next : option string) : bool :=
  xorb (isword_opt prev) (isword_opt next).

(** What follows the characters [p] in [s], when [s] starts with them. *)
Fixpoint after_prefix (p s : list string) : option (list string) :=
  match p, s with
  | [], _ => Some s
  | a :: p', b :: s' => if String.eqb a b then after_prefix p' s' else None
  | _ :: _, [] => None
  end.

(** [\b keyword \b] matched at the start of the characters [s], [prev] being
    the character before them. *)
Definition keyword_at (prev : option string) (s : list string) (keyword : string) : bool :=
  word_boundary prev (head s)
  && match after_prefix (Py.chars keyword) s with
     | Some rest =>
         word_boundary (match Py.last keyword with Some c => Some c | None => prev end)
           (head rest)
     | None => false
     end.

(** [re.compile(r"\b(" + "|".join(keywords) + r")\b").search(s)], as a truth
    value: some keyword matches at some position. *)
Fixpoint search_from (keywords : list string) (prev : option string) (s : list string)
  : bool :=
  existsb (keyword_at prev s) keywords
  || match s with
     | [] => false
     | c :: s' => search_from keywords (Some c) s'
     end.

Definition search (keywords : list string) (s : string) : bool :=
  search_from keywords None (Py.chars s).

End Re.

Section Cookies.

Context `{rt : Runtime} `{buttons : Buttons}.

(** The calls [accept_cookies] makes, with what they answered. *)
Inductive Event : Type :=
  | Queried (outcome : Result (list ElementHandle))
  | Visible (b : ElementHandle) (outcome : Result bool)
  | Disabled (b : ElementHandle) (outcome : Result (option string))
  | OuterHtml (button : ElementHandle) (outcome : Result string)
  | Clicked (button : ElementHandle) (outcome : Result unit).

Record Session : Type := { dom : Dom; events : list Event }.

(** One call of the page, logged. *)
Definition call {A} (f : Dom -> Result A * Dom) (event : Result A -> Event) (s : Session)
  : Result A * Session :=
  let '(r, d) := f (dom s) in (r, {| dom := d; events := events s ++ [event r] |}).

(** The first loop: the buttons that are visible and whose [disabled]
    attribute is absent or empty.  An exception of a call leaves the
    function. *)
Fixpoint filter_buttons (all_buttons : list ElementHandle) (s : Session)
  : Result (list ElementHandle) * Session :=
  match all_buttons with
  | [] => (Ok [], s)
  | b :: all_buttons' =>
      match call (is_visible b) (Visible b) s with
      | (Raise e, s1) => (Raise e, s1)
      | (Ok false, s1) => filter_buttons all_buttons' s1
      | (Ok true, s1) =>
          match call (get_disabled b) (Disabled b) s1 with
          | (Raise e, s2) => (Raise e, s2)
          | (Ok disabled, s2) =>
              if Py.truthy_opt disabled then filter_buttons all_buttons' s2
              else
                match filter_buttons all_buttons' s2 with
                | (Ok filtered_buttons, s3) => (Ok (b :: filtered_buttons), s3)
                | (Raise e, s3) => (Raise e, s3)
                end
          end
      end
  end.

(** The second loop: the function returns after the first click that does
    not raise; an exception of [evaluate] or of [click] moves on to the next
    button. *)
Fixpoint click_first (filtered_buttons : list ElementHandle) (s : Session) : Session :=
  match filtered_buttons with
  | [] => s
  | button :: filtered_buttons' =>
      match call (outer_html button) (OuterHtml button) s with
      | (Ok html, s1) =>
          if Re.search COOKIE_CONSENT_KEYWORDS (str_lower html) then
            match call (click button) (Clicked button) s1 with
            | (Ok _, s2) => s2
            | (Raise _, s2) => click_first filtered_buttons' s2
            end
          else click_first filtered_buttons' s1
      | (Raise _, s1) => click_first filtered_buttons' s1
      end
  end.

Definition accept_cookies (s : Session) : Result unit * Session :=
  match call query_selector_all Queried s with
  | (Raise e, s1) => (Raise e, s1)
  | (Ok all_buttons, s1) =>
      match filter_buttons all_buttons s1 with
      | (Raise e, s2) => (Raise e, s2)
      | (Ok filtered_buttons, s2) => (Ok tt, click_first filtered_buttons s2)
      end
  end.

(** The events of the first loop. *)
Definition is_probe (event : Event) : Prop :=
  match event with
  | Visible _ _ | Disabled _ _ => True
  | _ => False
  end.

(** A button the first loop keeps: it answered that it is visible and that
    it has no [disabled] attribute, or an empty one. *)
Definition kept (log : list Event) (b : ElementHandle) : Prop :=
  In (Visible b (Ok true)) log
  /\ exists disabled, In (Disabled b (Ok disabled)) log /\ Py.truthy_opt disabled = false.

(** The buttons whose [outerHTML] a log shows evaluated, in order. *)
Definition evaluated (log : list Event) : list ElementHandle :=
  omap (fun event => match event with OuterHtml button _ => Some button | _ => None end) log.

(** The events of the second loop over the buttons it is given. *)
Inductive Clicks : list ElementHandle -> list Event -> Prop :=
  | clicks_end : Clicks [] []
  | clicks_no_html button rest e log :
      Clicks rest log ->
      Clicks (button :: rest) (OuterHtml button (Raise e) :: log)
  | clicks_no_match button rest html log :
      Re.search COOKIE_CONSENT_KEYWORDS (str_lower html) = false ->
      Clicks rest log ->
      Clicks (button :: rest) (OuterHtml button (Ok html) :: log)
  | clicks_failed button rest html e log :
      Re.search COOKIE_CONSENT_KEYWORDS (str_lower html) = true ->
      Clicks rest log ->
      Clicks (button :: rest)
        (OuterHtml button (Ok html) :: Clicked button (Raise e) :: log)
  | clicks_done button rest html :
      Re.search COOKIE_CONSENT_KEYWORDS (str_lower html) = true ->
      Clicks (button :: rest) [OuterHtml button (Ok html); Clicked button (Ok tt)].

End Cookies.

(** ** The search: [google_search_top3] ([web_search.py]) *)

Definition SEARCH_RESULTS_COUNT : Z := 3.

(** The Custom Search service: [build("customsearch", "v1", developerKey)]
    and [service.cse().list(q, cx, num).execute()].  The response is a
    dictionary; its ["items"], when there are any, are dictionaries too. *)
Class SearchService : Type := {
  Service : Type;
  build : string -> Result Service;
  execute : Service -> string -> string -> Z -> Result (option (list (gmap string string)))
}.

Section Search.

Context `{api : SearchService}.

(** [tuple(item["link"] for item in items)]; a missing key raises. *)
Fixpoint links (items : list (gmap string string)) : Result (list string) :=
  match items with
  | [] => Ok []
  | item :: items' =>
      match item !! "link" with
      | None => Raise KeyError
      | Some link =>
          match links items' with
          | Ok urls => Ok (link :: urls)
          | Raise e => Raise e
          end
      end
  end.

Definition google_search_top3 (query api_key cse_id : string) : Result Urls :=
  match build api_key with
  | Raise e => Raise e                       (* outside the [try] *)
  | Ok service =>
      match execute service query cse_id SEARCH_RESULTS_COUNT with
      | Raise _ => Ok (UrlError "Unsuccessful search")
      | Ok res =>
          match default [] res with          (* [res.get("items", [])] *)
          | [] => Ok (UrlError "Unsuccessful search")
          | items =>
              match links items with
              | Ok urls => Ok (UrlList urls)
              | Raise _ => Ok (UrlError "Unsuccessful search")
              end
          end
      end
  end.

End Search.

(** ** Preparing the photograph: [invert] and [custom_binarize]
    ([ocr_text_extraction.py])

    An image is the list of its pixels, each an unsigned byte; the shape of
    the array plays no part in the two functions. *)

Module Ocr.

Abbreviation Image := (list Z).

(** [dtype=uint8] *)
Definition uint8 (p : Z) : Prop := 0 <= p <= 255.

(** [cv2.threshold(image, thresh, maxval, cv2.THRESH_BINARY)[1]] *)
Definition threshold (image : Image) (thresh maxval : Z) : Image :=
  map (fun p => if thresh <? p then maxval else 0) image.

(** [cv2.bitwise_not(image)], on bytes. *)
Definition bitwise_not (image : Image) : Image :=
  map (fun p => Z.lnot p mod 256) image.

(** [int(np.sum(image == value))] *)
Definition count (value : Z) (image : Image) : Z :=
  Z.of_nat (length (List.filter (Z.eqb value) image)).

Definition invert (image : Image) : Image :=
  let binarized := threshold image 125 255 in
  let num_black_px := count 0 binarized in
  let num_white_px := count 255 binarized in
  if num_white_px <? num_black_px then bitwise_not image else image.

(** [BINARIZE_THRESHOLD_RANGE] *)
Definition BINARIZE_THRESHOLD_RANGE : Z * Z * Z := (0, 240, 10).

(** [range(start, stop, step)] for a positive [step]; the loop makes at most
    [fuel] turns. *)
Fixpoint range_from (fuel : nat) (start stop step : Z) : list Z :=
  match fuel with
  | O => []
  | S fuel' =>
      if start <? stop then start :: range_from fuel' (start + step) stop step else []
  end.

Definition range (start stop step : Z) : list Z :=
  range_from (Z.to_nat (stop - start)) start stop step.

(** [sum(confidences) / len(confidences) if confidences else 0], as a
    rational. *)
Definition avg_conf (confidences : list Z) : Q :=
  match confidences with
  | [] => 0%Q
  | _ => (inject_Z (fold_right Z.add 0%Z confidences)
          / inject_Z (Z.of_nat (length confidences)))%Q
  end.

Section Sweep.

(** [pytesseract.image_to_data(binary, output_type=Output.DICT)['conf']] *)
Context (image_to_data_conf : Image -> Result (list Z)).

(** The loop of [custom_binarize], from the state
    [(best_conf, best_thresh_val, best_binary)]. *)
Fixpoint sweep (thresholds : list Z) (image : Image) (best : Q * Z * option Image)
  : Result (Q * Z * option Image) :=
  match thresholds with
  | [] => Ok best
  | t :: thresholds' =>
      let binary := threshold image t 255 in
      match image_to_data_conf binary with
      | Raise e => Raise e
      | Ok confidences =>
          let avg := avg_conf confidences in
          match Qcompare avg (fst (fst best)) with
          | Gt => sweep thresholds' image (avg, t, Some binary)
          | _ => sweep thresholds' image best
          end
      end
  end.

Definition custom_binarize (image : Image) : Result (Z * option Image) :=
  let '(start, stop, step) := BINARIZE_THRESHOLD_RANGE in
  match sweep (range start stop step) image (0%Q, 0, None) with
  | Ok (_, best_thresh_val, best_binary) => Ok (best_thresh_val, best_binary)
  | Raise e => Raise e
  end.

(** The average confidence at a threshold, when the recognition returns. *)
Definition confidence_at (image : Image) (t : Z) : option Q :=
  match image_to_data_conf (threshold image t 255) with
  | Ok confidences => Some (avg_conf confidences)
  | Raise _ => None
  end.

End Sweep.

(** The pixels [invert] counts as black and as white. *)
Definition dark (image : Image) : Z := Z.of_nat (length (List.filter (fun p => p <=? 125) image)).

Definition light (image : Image) : Z := Z.of_nat (length (List.filter (fun p => 125 <? p) image)).

End Ocr.

(** * Properties *)

(** ** Strings *)

Example split_srcset :
  Py.split (Py.strip "  a.jpg 100w,  b.jpg 800w, c.jpg 400w ")
  = ["a.jpg"; "100w,"; "b.jpg"; "800w,"; "c.jpg"; "400w"].
Proof. vm_compute. reflexivity. Qed.

Example rstrip_commas :
  map (Py.rstrip (Ascii.eqb ",")) ["100w,"; "a,b,,"; ","; "x"] = ["100w"; "a,b"; ""; "x"].
Proof. reflexivity. Qed.

Example int_leading_zero : Py.int "0015" = Some 15.
Proof. vm_compute. reflexivity. Qed.

Example contains_examples :
  Py.contains "si" "https://en.wikipedia.org/wiki/Persistence" = true
  /\ Py.contains "/" "a.jpg" = false /\ Py.contains "" "" = true.
Proof. repeat split. Qed.

(** Characters beyond ASCII: a superscript two is a digit that [int] does
    not read, an Arabic-Indic three is a digit that it reads. *)
Example chars_examples :
  Py.chars "2²٣" = ["2"; "²"; "٣"]
  /\ map Py.ord (Py.chars "2²٣é") = [50; 178; 1635; 233]%N
  /\ map Py.isdigit (Py.chars "2²٣é") = [true; true; true; false]
  /\ map Py.decimal (Py.chars "2²٣é") = [Some 2; None; Some 3; None]
  /\ Py.int "٣0" = Some 30
  /\ Py.int "²" = None
  /\ Py.split "a.jpg 2x" = ["a.jpg"; "2x"]
  /\ Py.last "2x" = Some "x" /\ Py.init "²x" = "²" /\ Py.last "" = None.
Proof. vm_compute. repeat split. Qed.

(** *** Characters *)

Lemma chars_go_join (s : string) :
  fst (Py.chars_go s) +:+ Py.join (snd (Py.chars_go s)) = s.
Proof.
  induction s as [|b s IH]; [reflexivity|]. cbn [Py.chars_go].
  destruct (Py.chars_go s) as [tail cs]. cbn [fst snd] in IH.
  destruct (Py.is_continuation b); cbn [fst snd Py.join fold_right].
  - change (String b (tail +:+ Py.join cs) = String b s). f_equal. exact IH.
  - change (String b (tail +:+ Py.join cs) = String b s). f_equal. exact IH.
Qed.

Lemma chars_join (s : string) : Py.join (Py.chars s) = s.
Proof.
  unfold Py.chars. pose proof (chars_go_join s) as H.
  destruct (Py.chars_go s) as [[|b tail] cs]; exact H.
Qed.

(** The leading continuation bytes of a string hold no character. *)
Lemma chars_go_fst (s : string) :
  Py.chars_go (fst (Py.chars_go s)) = (fst (Py.chars_go s), []).
Proof.
  induction s as [|b s IH]; [reflexivity|]. cbn [Py.chars_go].
  destruct (Py.chars_go s) as [tail cs]. cbn [fst] in IH.
  destruct (Py.is_continuation b) eqn:Hb; cbn [fst]; [|reflexivity].
  cbn [Py.chars_go]. rewrite IH, Hb. reflexivity.
Qed.

Lemma chars_go_chunks (s : string) : Forall one_char (snd (Py.chars_go s)).
Proof.
  induction s as [|b s IH]; [constructor|]. cbn [Py.chars_go].
  pose proof (chars_go_fst s) as Hfst.
  destruct (Py.chars_go s) as [tail cs]. cbn [fst snd] in *.
  destruct (Py.is_continuation b) eqn:Hb; cbn [snd]; [exact IH|].
  constructor; [|exact IH]. unfold one_char. cbn [Py.chars_go]. rewrite Hfst, Hb.
  reflexivity.
Qed.

Lemma chars_go_app (s t : string) :
  fst (Py.chars_go t) = EmptyString ->
  Py.chars_go (s +:+ t)
  = (fst (Py.chars_go s), snd (Py.chars_go s) ++ snd (Py.chars_go t)).
Proof.
  intros Ht. induction s as [|b s IH].
  - change (Py.chars_go t = (EmptyString, snd (Py.chars_go t))).
    rewrite <- Ht. destruct (Py.chars_go t); reflexivity.
  - change (Py.chars_go (String b (s +:+ t))
            = (fst (Py.chars_go (String b s)),
               snd (Py.chars_go (String b s)) ++ snd (Py.chars_go t))).
    cbn [Py.chars_go]. rewrite IH. destruct (Py.chars_go s) as [tail cs].
    cbn [fst snd]. destruct (Py.is_continuation b); reflexivity.
Qed.

Lemma chars_one_char (c : string) : one_char c -> Py.chars c = [c].
Proof. unfold one_char, Py.chars. intros ->. reflexivity. Qed.

Lemma chars_go_join_chars (cs : list string) :
  Forall one_char cs -> Py.chars_go (Py.join cs) = (EmptyString, cs).
Proof.
  induction 1 as [|c cs Hc _ IH]; [reflexivity|].
  cbn [Py.join fold_right]. fold (Py.join cs).
  rewrite chars_go_app by (rewrite IH; reflexivity).
  rewrite IH, Hc. reflexivity.
Qed.

(** Characters that are joined are the characters of the result. *)
Lemma chars_of_join (cs : list string) : Forall one_char cs -> Py.chars (Py.join cs) = cs.
Proof. intros H. unfold Py.chars. rewrite (chars_go_join_chars _ H). reflexivity. Qed.

Lemma chars_app (s t : string) :
  fst (Py.chars_go t) = EmptyString -> Py.chars (s +:+ t) = Py.chars s ++ Py.chars t.
Proof.
  intros Ht. unfold Py.chars. rewrite (chars_go_app _ _ Ht).
  destruct (Py.chars_go s) as [tail cs], (Py.chars_go t) as [tail' cs'].
  cbn [fst snd] in *. subst tail'. destruct tail; reflexivity.
Qed.

Lemma chars_nil (s : string) : Py.chars s = [] <-> s = EmptyString.
Proof.
  split; [|intros ->; reflexivity].
  intros H. rewrite <- (chars_join s), H. reflexivity.
Qed.

Lemma chars_go_fst_head (s : string) (b : ascii) (t : string) :
  fst (Py.chars_go s) = String b t -> Py.is_continuation b = true.
Proof.
  induction s as [|a s IH]; [discriminate|]. cbn [Py.chars_go].
  destruct (Py.chars_go s) as [tail cs]. cbn [fst] in IH.
  destruct (Py.is_continuation a) eqn:Ha; cbn [fst]; [|discriminate].
  intros [= <- _]. exact Ha.
Qed.

(** Bytes that start with a continuation byte encode no character. *)
Lemma ord_continuation (b : ascii) (t : string) :
  Py.is_continuation b = true -> Py.ord (String b t) = 65533%N.
Proof.
  unfold Py.is_continuation. intros H. apply andb_true_iff in H as [Hlo Hhi].
  apply N.leb_le in Hlo. apply N.ltb_lt in Hhi.
  assert (H1 : (Py.byte b <? 128)%N = false) by (apply N.ltb_ge; lia).
  assert (H2 : (192 <=? Py.byte b)%N = false) by (apply N.leb_gt; lia).
  assert (H3 : (224 <=? Py.byte b)%N = false) by (apply N.leb_gt; lia).
  assert (H4 : (240 <=? Py.byte b)%N = false) by (apply N.leb_gt; lia).
  destruct t as [|b1 [|b2 [|b3 [|b4 t]]]]; cbn [Py.ord];
    rewrite ?H1, ?H2, ?H3, ?H4; reflexivity.
Qed.

(** The characters of a string are characters, but for the continuation
    bytes a string that is no UTF-8 may start with. *)
Lemma chars_cases (s c : string) :
  In c (Py.chars s) -> one_char c \/ Py.ord c = 65533%N.
Proof.
  unfold Py.chars. pose proof (chars_go_chunks s) as Hchunks.
  pose proof (chars_go_fst_head s) as Hhead.
  destruct (Py.chars_go s) as [tail cs]. cbn [fst snd] in *.
  assert (Hcs : In c cs -> one_char c)
    by (intros Hin; exact (proj1 (List.Forall_forall _ _) Hchunks c Hin)).
  destruct tail as [|b t]; [auto|].
  intros [<- | Hin]; [right|auto].
  apply ord_continuation, (Hhead b t eq_refl).
Qed.

Lemma isdigit_one_char (s c : string) :
  In c (Py.chars s) -> Py.isdigit c = true -> one_char c.
Proof.
  intros Hin Hdigit. destruct (chars_cases s c Hin) as [H | H]; [exact H|].
  unfold Py.isdigit in Hdigit. rewrite H in Hdigit. vm_compute in Hdigit. discriminate.
Qed.

Lemma append_assoc (a b c : string) : (a +:+ b) +:+ c = a +:+ (b +:+ c).
Proof.
  induction a as [|x a IH]; [reflexivity|].
  change (String x ((a +:+ b) +:+ c) = String x (a +:+ (b +:+ c))). rewrite IH. reflexivity.
Qed.

Lemma append_nil_r (a : string) : a +:+ EmptyString = a.
Proof.
  induction a as [|x a IH]; [reflexivity|].
  change (String x (a +:+ EmptyString) = String x a). rewrite IH. reflexivity.
Qed.

Lemma join_app (l1 l2 : list string) : Py.join (l1 ++ l2) = Py.join l1 +:+ Py.join l2.
Proof.
  induction l1 as [|c l1 IH]; [reflexivity|].
  cbn [app Py.join fold_right]. fold (Py.join (l1 ++ l2)) (Py.join l1).
  rewrite IH. symmetry. apply append_assoc.
Qed.

Lemma last_char_snoc (cs : list string) (c : string) : Py.last_char (cs ++ [c]) = Some c.
Proof.
  induction cs as [|a cs IH]; [reflexivity|].
  cbn [app Py.last_char]. rewrite IH. destruct cs; reflexivity.
Qed.

Lemma last_char_removelast (cs : list string) (c : string) :
  Py.last_char cs = Some c -> cs = removelast cs ++ [c].
Proof.
  induction cs as [|a cs IH]; [discriminate|].
  destruct cs as [|b cs]; [intros [= ->]; reflexivity|].
  intros H. change (a :: b :: cs = a :: (removelast (b :: cs) ++ [c])).
  f_equal. apply IH, H.
Qed.

Lemma last_None (s : string) : Py.last s = None <-> s = EmptyString.
Proof.
  unfold Py.last. rewrite <- chars_nil.
  split; [|intros ->; reflexivity].
  induction (Py.chars s) as [|a cs IH]; [reflexivity|].
  destruct cs; [discriminate|]. intros H. specialize (IH H). discriminate.
Qed.

(** A string with a last character is its [init] followed by that character. *)
Lemma last_init (s c : string) : Py.last s = Some c -> s = Py.init s +:+ c.
Proof.
  unfold Py.last, Py.init. intros H. apply last_char_removelast in H.
  rewrite <- (chars_join s) at 1. rewrite H at 1. rewrite join_app.
  cbn [Py.join fold_right]. rewrite append_nil_r. reflexivity.
Qed.


(** A decimal digit is a digit. *)
Lemma decimal_isdigit (c : string) (d : Z) :
  Py.decimal c = Some d -> Py.isdigit c = true /\ 0 <= d <= 9.
Proof.
  unfold Py.decimal, Py.isdigit, Py.in_ranges.
  destruct (find (Py.in_range (Py.ord c)) Py.DECIMAL) as [r|] eqn:Hfind; [|discriminate].
  intros [= <-]. split.
  - apply orb_true_iff. left. apply existsb_exists. exists r.
    apply find_some in Hfind. exact Hfind.
  - pose proof (N.mod_upper_bound (Py.ord c - fst r) 10 ltac:(discriminate)) as Hmod.
    set (m := ((Py.ord c - fst r) mod 10)%N) in *. lia.
Qed.

(** ** Descriptors and the pairing loop *)

Lemma is_descriptor_true_iff (descriptor : string) :
  is_descriptor descriptor = Ok true <->
  exists body c,
    descriptor = body +:+ c
    /\ (c = "w" \/ c = "x")
    /\ exists digit, In digit (Py.chars body) /\ Py.isdigit digit = true.
Proof.
  unfold is_descriptor. split.
  - destruct (Py.last descriptor) as [c|] eqn:Hlast; [|discriminate].
    intros [= H]. apply andb_true_iff in H as [Hc Hany].
    exists (Py.init descriptor), c. split; [apply last_init, Hlast|]. split.
    + apply orb_true_iff in Hc as [Hc|Hc]; apply String.eqb_eq in Hc; auto.
    + apply existsb_exists in Hany as (digit & Hin & Hdigit). eauto.
  - intros (body & c & -> & Hc & digit & Hin & Hdigit).
    assert (Hchars : Py.chars (body +:+ c) = Py.chars body ++ [c])
      by (destruct Hc as [-> | ->]; apply chars_app; reflexivity).
    unfold Py.last, Py.init. rewrite Hchars, last_char_snoc, removelast_last, chars_join.
    f_equal. apply andb_true_iff. split.
    + destruct Hc as [-> | ->]; reflexivity.
    + apply existsb_exists. eauto.
Qed.

Lemma is_descriptor_raise (descriptor : string) (e : exn) :
  is_descriptor descriptor = Raise e <-> descriptor = "" /\ e = IndexError.
Proof.
  unfold is_descriptor. split.
  - destruct (Py.last descriptor) eqn:Hlast; [discriminate|].
    intros [= <-]. apply last_None in Hlast. auto.
  - intros [-> ->]. reflexivity.
Qed.

Lemma digits_of_chars (descriptor : string) : Forall one_char (digits_of descriptor).
Proof.
  apply List.Forall_forall. intros c Hc. apply filter_In in Hc as [Hin Hdigit].
  exact (isdigit_one_char _ _ Hin Hdigit).
Qed.

(** A descriptor has a digit. *)
Lemma is_descriptor_digits (descriptor : string) :
  is_descriptor descriptor = Ok true -> digits_of descriptor <> [].
Proof.
  intros H. apply is_descriptor_true_iff in H
    as (body & c & -> & Hc & digit & Hin & Hdigit).
  assert (Hchars : Py.chars (body +:+ c) = Py.chars body ++ [c])
    by (destruct Hc as [-> | ->]; apply chars_app; reflexivity).
  assert (Hmem : In digit (digits_of (body +:+ c))).
  { unfold digits_of. apply filter_In. rewrite Hchars. split; [|exact Hdigit].
    apply in_or_app. left. exact Hin. }
  intros Hnil. rewrite Hnil in Hmem. destruct Hmem.
Qed.

Lemma int_digits_fold (cs : list string) (acc : Z) :
  Py.int_digits acc cs
  = fold_left
      (fun number c =>
         match number, Py.decimal c with
         | Some n, Some d => Some (10 * n + d)
         | _, _ => None
         end)
      cs (Some acc).
Proof.
  revert acc. induction cs as [|c cs IH]; intros acc; [reflexivity|].
  cbn [Py.int_digits fold_left]. destruct (Py.decimal c) as [d|]; [apply IH|].
  clear. induction cs as [|c' cs IH]; [reflexivity|exact IH].
Qed.

(** What [int] makes of the digits of a token that has some. *)
Lemma descriptor_value_digits (descriptor : string) :
  digits_of descriptor <> [] ->
  descriptor_value descriptor
  = match digits_as_number descriptor with
    | Some value =>
        if Z.of_nat (length (digits_of descriptor)) <=? Py.INT_MAX_STR_DIGITS
        then Ok value else Raise ValueError
    | None => Raise ValueError
    end.
Proof.
  intros Hsome. unfold descriptor_value, digits_as_number, Py.int.
  fold (digits_of descriptor). rewrite (chars_of_join _ (digits_of_chars descriptor)).
  rewrite <- int_digits_fold.
  destruct (digits_of descriptor) as [|c cs] eqn:Hdigits; [contradiction|].
  rewrite Z.ltb_antisym.
  destruct (Z.of_nat (length (c :: cs)) <=? Py.INT_MAX_STR_DIGITS); cbn [negb].
  - destruct (Py.int_digits 0 (c :: cs)); reflexivity.
  - destruct (Py.int_digits 0 (c :: cs)); reflexivity.
Qed.

(** The digits spell no number exactly when one of them has no decimal
    value. *)
Lemma digits_as_number_None (token : string) :
  digits_as_number token = None <->
  exists digit, In digit (digits_of token) /\ Py.decimal digit = None.
Proof.
  unfold digits_as_number. rewrite <- int_digits_fold. generalize 0.
  induction (digits_of token) as [|c cs IH]; intros acc.
  - split; [discriminate|]. intros (d & [] & _).
  - cbn [Py.int_digits]. destruct (Py.decimal c) as [d|] eqn:Hc.
    + rewrite IH. split.
      * intros (digit & Hin & Hd). exists digit. split; [right; exact Hin|exact Hd].
      * intros (digit & [<- | Hin] & Hd); [congruence|eauto].
    + split; [|reflexivity]. intros _. exists c. split; [left; reflexivity|exact Hc].
Qed.



Example parse_example :
  parse_srcset (srcset_tokens "a.jpg 100w, b.jpg 800w, c.jpg 400w")
  = Ok [("a.jpg", 100); ("b.jpg", 800); ("c.jpg", 400)].
Proof. vm_compute. reflexivity. Qed.

(** A descriptor emptied by [rstrip(",")] makes the pairing raise. *)
Example parse_stray_comma :
  srcset_tokens "a.jpg , b.jpg 2x" = ["a.jpg"; ""; "b.jpg"; "2x"]
  /\ parse_srcset (srcset_tokens "a.jpg , b.jpg 2x") = Raise IndexError.
Proof. split; vm_compute; reflexivity. Qed.



(** ** The heap *)

Section HeapqFacts.

Context {A : Type} (lt : A -> A -> bool) (le : A -> A -> Prop).

Hypothesis lt_le : forall x y, lt x y = true -> le x y.

Hypothesis not_lt_le : forall x y, lt x y = false -> le y x.

Hypothesis le_trans : forall x y z, le x y -> le y z -> le x z.

Lemma heappush_perm (heap : list A) (item : A) :
  Permutation (heappush lt heap item) (item :: heap).
Proof.
  induction heap as [|x heap IH]; simpl; [reflexivity|].
  destruct (lt item x); [reflexivity|].
  rewrite IH. apply perm_swap.
Qed.








End HeapqFacts.

(** *** The order of the resolver's heap *)











(** ** Retrieval *)

Section RetrievalFacts.

Context `{rt : Runtime}.

(** One download is one fetch, of the resolved URL, with the base URL as
    referer; nothing else is called. *)
Lemma download_image_from_url_run (url base_url : string) (w : World) :
  download_image_from_url url base_url w
  = let absolute_url := urljoin base_url url in
    let outcome := session_get absolute_url base_url (env w) in
    (download_result absolute_url (fst outcome),
     {| env := snd outcome;
        calls := calls w ++ [HttpGet absolute_url base_url (fst outcome)] |}).
Proof.
  unfold download_image_from_url, try_except, bind, get, perform, download_result. simpl.
  destruct (session_get (urljoin base_url url) base_url (env w)) as [[response|e] env'];
    simpl.
  - destruct ((status response =? 200)
              && Py.startswith "image/" (content_type_or_empty response));
      [|reflexivity].
    destruct (read response) as [content|e]; simpl; [reflexivity|].
    destruct e; reflexivity.
  - destruct e; reflexivity.
Qed.

(** One turn of [try_downloads]. *)
Lemma try_downloads_cons (url : string) (urls : list string) (base_url : string) (w : World) :
  try_downloads (url :: urls) base_url w
  = let absolute_url := urljoin base_url url in
    let outcome := session_get absolute_url base_url (env w) in
    let w' := {| env := snd outcome;
                 calls := calls w ++ [HttpGet absolute_url base_url (fst outcome)] |} in
    match download_result absolute_url (fst outcome) with
    | Ok r =>
        if Py.truthy_bytes (fst (fst r)) then (Ok (Some r), w')
        else try_downloads urls base_url w'
    | Raise e => (Raise e, w')
    end.
Proof.
  cbn [try_downloads]. unfold bind. rewrite download_image_from_url_run. cbn zeta.
  destruct (download_result _ _) as [r|e]; [|reflexivity].
  destruct (Py.truthy_bytes _); reflexivity.
Qed.

Lemma try_downloads_attempts (urls : list string) (base_url : string) (w : World) :
  exists log,
    calls (snd (try_downloads urls base_url w)) = calls w ++ log
    /\ Attempts base_url urls log (fst (try_downloads urls base_url w)).
Proof.
  revert w. induction urls as [|url urls IH]; intros w.
  - exists []. simpl. rewrite app_nil_r. split; [reflexivity|constructor].
  - rewrite try_downloads_cons. cbn zeta.
    set (outcome := session_get (urljoin base_url url) base_url (env w)).
    set (w' := {| env := snd outcome; calls := _ |}).
    destruct (download_result (urljoin base_url url) (fst outcome)) as [r|e] eqn:Hres.
    + destruct (Py.truthy_bytes (fst (fst r))) eqn:Hbytes.
      * eexists. split; [reflexivity|]. apply attempts_found; assumption.
      * destruct (IH w') as (log & Hcalls & Hatt).
        exists (HttpGet (urljoin base_url url) base_url (fst outcome) :: log). split.
        -- rewrite Hcalls. simpl. rewrite <- app_assoc. reflexivity.
        -- eapply attempts_next; eassumption.
    + eexists. split; [reflexivity|]. apply attempts_raise. exact Hres.
Qed.


End RetrievalFacts.

Section RetrievalSpec.

Context `{rt : Runtime}.


End RetrievalSpec.

(** ** The responsive-source resolver *)



Section ResolverFacts.

Context `{rt : Runtime}.






End ResolverFacts.

(** The example of the specification: [b.jpg] (800w) before [c.jpg] (400w)
    before [a.jpg] (100w).  No file is served, so all three are fetched. *)
Example srcset_example_order :
  let img_block := Demo.img_with_srcset "a.jpg 100w, b.jpg 800w, c.jpg 400w" in
  srcset_candidates (srcset_tokens "a.jpg 100w, b.jpg 800w, c.jpg 400w")
  = Ok (ByWeight, ["b.jpg"; "c.jpg"; "a.jpg"])
  /\ fetched (calls (snd (@extract_best_image_from_url (Demo.runtime Demo.nothing)
                            img_block "https://example.org/" (Demo.start Demo.nothing))))
     = ["b.jpg"; "c.jpg"; "a.jpg"].
Proof. split; vm_compute; reflexivity. Qed.

(** The same with [b.jpg] served: the resolver stops there. *)
Example srcset_example_stops :
  let site := {| Demo.pages := []; Demo.files := [Demo.png_at "b.jpg"] |} in
  let img_block := Demo.img_with_srcset "a.jpg 100w, b.jpg 800w, c.jpg 400w" in
  let run := @extract_best_image_from_url (Demo.runtime site)
               img_block "https://example.org/" (Demo.start site) in
  fst run = Ok (Some [Byte.x89; Byte.x50; Byte.x4e], Some "b.jpg", Some ".png")
  /\ fetched (calls (snd run)) = ["b.jpg"].
Proof. split; vm_compute; reflexivity. Qed.

(** ** The largest image *)




Lemma push_img_In (heap : list (Q * nat * ImgBlock)) (i : nat) (img_block : ImgBlock)
    (item : Q * nat * ImgBlock) :
  In item (push_img heap (i, img_block))
  <-> In item heap
      \/ exists box, has_area img_block box /\ item = ((- box_area box)%Q, i, img_block).
Proof.
  unfold push_img, has_area.
  destruct (bounding_box img_block) as [box|].
  - cbn zeta. destruct (Qeq_bool (box_area box) 0) eqn:Hzero.
    + split; [auto|]. intros [H | (box' & [[= <-] Hne] & _)]; [exact H|].
      apply Qeq_bool_iff in Hzero. contradiction.
    + rewrite (Permutation_in' (eq_refl item) (heappush_perm area_lt heap _)). simpl.
      split.
      * intros [<- | H]; [|auto]. right. exists box. split; [|reflexivity].
        split; [reflexivity|]. intros Heq. apply Qeq_bool_iff in Heq. congruence.
      * intros [H | (box' & [[= <-] _] & ->)]; auto.
  - split; [auto|]. intros [H | (box & [[=] _] & _)]. exact H.
Qed.

Lemma image_heap_acc_In (img_blocks : list ImgBlock) (start : nat)
    (heap : list (Q * nat * ImgBlock)) (item : Q * nat * ImgBlock) :
  In item (fold_left push_img (combine (seq start (length img_blocks)) img_blocks) heap)
  <-> In item heap
      \/ exists k img_block box,
           img_blocks !! k = Some img_block
           /\ has_area img_block box
           /\ item = ((- box_area box)%Q, (start + k)%nat, img_block).
Proof.
  revert start heap. induction img_blocks as [|x img_blocks IH]; intros start heap.
  - simpl. split; [auto|]. intros [H | (k & y & box & Hk & _)]; [exact H|].
    destruct k; discriminate.
  - cbn [length seq combine fold_left]. rewrite IH, push_img_In. split.
    + intros [[H | (box & Hbox & ->)] | (k & y & box & Hk & Hbox & ->)].
      * auto.
      * right. exists 0%nat, x, box. rewrite Nat.add_0_r. auto.
      * right. exists (S k), y, box. rewrite Nat.add_succ_r. auto.
    + intros [H | (k & y & box & Hk & Hbox & ->)]; [auto|].
      destruct k as [|k]; simpl in Hk.
      * injection Hk as <-. left. right. exists box. rewrite Nat.add_0_r. auto.
      * right. exists k, y, box. rewrite Nat.add_succ_r. auto.
Qed.

(** The heap holds the elements that have an area, each with the opposite
    of its area and its index in the page. *)
Lemma image_heap_In (img_blocks : list ImgBlock) (item : Q * nat * ImgBlock) :
  In item (image_heap img_blocks)
  <-> exists k img_block box,
        img_blocks !! k = Some img_block
        /\ has_area img_block box
        /\ item = ((- box_area box)%Q, k, img_block).
Proof.
  unfold image_heap, enumerate. rewrite image_heap_acc_In. simpl. tauto.
Qed.



Lemma largest_image_None (img_blocks : list ImgBlock) :
  largest_image img_blocks = None <->
  forall img_block box,
    In img_block img_blocks -> bounding_box img_block = Some box -> (box_area box == 0)%Q.
Proof.
  unfold largest_image. pose proof (image_heap_In img_blocks) as Hin.
  destruct (image_heap img_blocks) as [|[[na j] x] heap].
  - split; [|reflexivity]. intros _ img_block box Hmem Hbox.
    destruct (Qeq_dec (box_area box) 0) as [Hzero|Hne]; [exact Hzero|].
    apply list_elem_of_In, list_elem_of_lookup in Hmem as [k Hk].
    destruct (proj2 (Hin ((- box_area box)%Q, k, img_block))).
    exists k, img_block, box. repeat split; assumption.
  - split; [discriminate|]. intros Hnone.
    destruct (proj1 (Hin _) (or_introl eq_refl)) as (k & y & box & Hk & [Hbox Hne] & _).
    destruct Hne. apply (Hnone y box); [|exact Hbox].
    apply list_elem_of_In, list_elem_of_lookup. eauto.
Qed.

Section SelectorFacts.

Context `{rt : Runtime}.


End SelectorFacts.

(** Two images of the same area: the first in the page is chosen, and an
    image of area zero or without a box never is. *)
Example largest_image_tie :
  let small := Demo.img_with_box (Some (10, 10)%Q) "s" in
  let first := Demo.img_with_box (Some (30, 20)%Q) "a" in
  let second := Demo.img_with_box (Some (20, 30)%Q) "b" in
  let flat := Demo.img_with_box (Some (900, 0)%Q) "f" in
  let hidden := Demo.img_with_box None "h" in
  largest_image [small; flat; first; hidden; second] = Some first
  /\ largest_image [flat; hidden] = None.
Proof. split; reflexivity. Qed.

(** ** Navigations *)

Lemma navigations_app (l1 l2 : list Call) :
  navigations (l1 ++ l2) = navigations l1 ++ navigations l2.
Proof. apply omap_app. Qed.

Section Quiet.

Context `{rt : Runtime}.

Lemma quiet_ret {A} (a : A) : quiet (ret a).
Proof. intros w. reflexivity. Qed.

Lemma quiet_raise {A} (e : exn) : quiet (raise (A := A) e).
Proof. intros w. reflexivity. Qed.

Lemma quiet_lift {A} (r : Result A) : quiet (lift r).
Proof. destruct r; [apply quiet_ret|apply quiet_raise]. Qed.

Lemma quiet_bind {A B} (m : M A) (k : A -> M B) :
  quiet m -> (forall a, quiet (k a)) -> quiet (bind m k).
Proof.
  intros Hm Hk w. unfold bind. specialize (Hm w).
  destruct (m w) as [[a|e] w']; simpl in *; [|exact Hm].
  rewrite (Hk a w'). exact Hm.
Qed.

Lemma quiet_try_except {A} (m : M A) (h : exn -> M A) :
  quiet m -> (forall e, quiet (h e)) -> quiet (try_except m h).
Proof.
  intros Hm Hh w. unfold try_except. specialize (Hm w).
  destruct (m w) as [[a|e] w']; simpl in *; [exact Hm|].
  rewrite (Hh e w'). exact Hm.
Qed.

Lemma quiet_attempt {A} (m : M A) : quiet m -> quiet (attempt m).
Proof.
  intros Hm w. unfold attempt. specialize (Hm w). destruct (m w). exact Hm.
Qed.

Lemma quiet_perform {A} (f : Env -> Result A * Env) (log : Result A -> list Call) :
  (forall r, navigations (log r) = []) -> quiet (perform f log).
Proof.
  intros Hlog w. unfold perform. destruct (f (env w)) as [r e]. simpl.
  rewrite navigations_app, Hlog, app_nil_r. reflexivity.
Qed.

Lemma quiet_new_page : quiet new_page.
Proof. apply quiet_perform. reflexivity. Qed.

Lemma quiet_settle : quiet settle.
Proof. apply quiet_perform. reflexivity. Qed.

Lemma quiet_close : quiet close.
Proof. apply quiet_perform. reflexivity. Qed.

Lemma quiet_get (url referer : string) : quiet (get url referer).
Proof. apply quiet_perform. reflexivity. Qed.

Lemma quiet_write (path : string) (data : bytes) : quiet (write path data).
Proof. apply quiet_perform. reflexivity. Qed.

Lemma quiet_download (url base_url : string) : quiet (download_image_from_url url base_url).
Proof.
  apply quiet_try_except.
  - apply quiet_bind; [apply quiet_get|]. intros response.
    destruct (_ && _); [|apply quiet_ret].
    apply quiet_bind; [apply quiet_lift|]. intros content. apply quiet_ret.
  - intros e. destruct e; first [apply quiet_ret|apply quiet_raise].
Qed.

Lemma quiet_try_downloads (urls : list string) (base_url : string) :
  quiet (try_downloads urls base_url).
Proof.
  induction urls as [|url urls IH]; [apply quiet_ret|]. cbn [try_downloads].
  apply quiet_bind; [apply quiet_download|]. intros r.
  destruct (Py.truthy_bytes _); [apply quiet_ret|exact IH].
Qed.

Lemma quiet_extract_best (img_block : ImgBlock) (base_url : string) :
  quiet (extract_best_image_from_url img_block base_url).
Proof.
  unfold extract_best_image_from_url, try_srcset, try_src.
  apply quiet_bind.
  { destruct (get_attribute img_block "srcset") as [srcset|]; [|apply quiet_ret].
    destruct (Py.truthy srcset); [|apply quiet_ret].
    apply quiet_bind; [apply quiet_lift|]. intros plan. apply quiet_try_downloads. }
  intros [r|]; [apply quiet_ret|]. apply quiet_bind.
  { destruct (get_attribute img_block "src") as [src|]; [|apply quiet_ret].
    destruct (Py.truthy src); [apply quiet_try_downloads|apply quiet_ret]. }
  intros [r|]; [apply quiet_ret|]. apply quiet_bind; [apply quiet_try_downloads|].
  intros [r|]; apply quiet_ret.
Qed.

Lemma quiet_save_image (img_name : string) (found : ImageData) :
  quiet (save_image img_name found).
Proof.
  destruct found as [[[data|] [url|]] [ext|]]; try apply quiet_ret.
  unfold save_image. destruct (_ && _); [|apply quiet_ret].
  apply quiet_bind; [apply quiet_lift|]. intros [data' ext'].
  apply quiet_bind; [apply quiet_write|]. intros _. apply quiet_ret.
Qed.

Lemma quiet_get_img (page : Page) (base_url img_name : string) :
  quiet (get_img page base_url img_name).
Proof.
  unfold get_img. destruct (largest_image (img_blocks page)); [|apply quiet_ret].
  apply quiet_bind; [apply quiet_extract_best|]. intros found. apply quiet_save_image.
Qed.

End Quiet.

(** ** One page *)

Section PageFacts.

Context `{rt : Runtime}.

Lemma goto_then_quiet {A} (url : string) (k : string -> M A) (w : World) :
  (forall content, quiet (k content)) ->
  navigations (calls (snd (bind (goto url) k w))) = navigations (calls w) ++ [url].
Proof.
  intros Hk. unfold bind, goto, perform.
  destruct (page_goto url (env w)) as [[content|e] env']; simpl.
  - rewrite (Hk content). simpl. rewrite navigations_app. reflexivity.
  - rewrite navigations_app. reflexivity.
Qed.

(** [extract_main_image_from_page] always returns: every exception is caught.
    It navigates to its URL, once, or not at all when no page could be
    created. *)
Lemma extract_main_image_from_page_run (painting_name url : string) (w : World) :
  exists found w',
    extract_main_image_from_page painting_name url w = (Ok found, w')
    /\ (navigations (calls w') = navigations (calls w)
        \/ navigations (calls w') = navigations (calls w) ++ [url]).
Proof.
  unfold extract_main_image_from_page.
  unfold bind at 1. unfold attempt at 1.
  pose proof (quiet_new_page w) as Hnew.
  destruct (new_page w) as [[[]|e] w1]; simpl in Hnew.
  2:{ eexists _, _. split; [reflexivity|]. left. exact Hnew. }
  unfold bind at 1. unfold attempt at 1.
  match goal with
  | |- context [bind (goto url) ?k w1] =>
      pose proof (goto_then_quiet url k w1) as Hbody;
      destruct (bind (goto url) k w1) as [r w2]
  end.
  simpl in Hbody.
  unfold bind at 1.
  pose proof (quiet_attempt close quiet_close w2) as Hclose.
  destruct (attempt close w2) as [[c|e] w3] eqn:Hrun; simpl in Hclose.
  - exists (match r with Ok found => found | Raise _ => (None, None) end), w3.
    split; [destruct r; reflexivity|]. right.
    rewrite Hclose, Hbody, Hnew; [reflexivity|].
    intros content. destruct (_is_captcha_page content).
    + apply quiet_bind; [apply quiet_close|]. intros _. apply quiet_ret.
    + apply quiet_bind; [apply quiet_settle|]. intros page.
      apply quiet_bind; [apply quiet_get_img|]. intros found.
      apply quiet_bind; [apply quiet_close|]. intros _. apply quiet_ret.
  - unfold attempt in Hrun. destruct (close w2). discriminate.
Qed.

End PageFacts.

(** ** The tiers *)

Section TierFacts.

Context `{rt : Runtime}.

(** The first tier returns, and only adds to the set of invalid URLs. *)
Lemma wikipedia_loop_run (painting_name : string) (urls : list string)
    (invalid_urls : gset string) (w : World) :
  exists img_path img_url invalid_urls' w' visited,
    wikipedia_loop painting_name urls invalid_urls w
    = (Ok (img_path, img_url, invalid_urls'), w')
    /\ invalid_urls ⊆ invalid_urls'
    /\ navigations (calls w') = navigations (calls w) ++ visited.
Proof.
  revert invalid_urls w. induction urls as [|url urls IH]; intros invalid_urls w.
  - exists None, None, invalid_urls, w, []. rewrite app_nil_r. auto.
  - cbn [wikipedia_loop]. destruct (Py.contains "wikipedia" url).
    + unfold bind.
      destruct (extract_main_image_from_page_run painting_name url w)
        as ([img_path img_url] & w1 & -> & Hnav).
      destruct (Py.truthy_opt img_path).
      * destruct Hnav as [Hnav | Hnav]; eexists _, _, _, _, _;
          (split; [reflexivity|]); (split; [reflexivity|]);
          [rewrite Hnav; symmetry; apply app_nil_r|exact Hnav].
      * destruct (IH ({[url]} ∪ invalid_urls) w1)
          as (p & u & inv' & w' & visited & -> & Hsub & Hvisited).
        destruct Hnav as [Hnav | Hnav]; eexists _, _, _, _, _;
          (split; [reflexivity|]);
          (split; [etrans; [apply union_subseteq_r|exact Hsub]|]);
          rewrite Hvisited, Hnav; [reflexivity|].
        rewrite <- app_assoc. reflexivity.
    + apply IH.
Qed.

(** The second tier returns, only adds to the set, and opens no URL that
    was in the set when it started.  When it finds an image, the label it
    returns is the museum of a URL of the list. *)
Lemma _try_museum_urls_run (painting_name : string) (urls : list string)
    (invalid_urls : gset string) (w : World) :
  exists img_path img_url museum_location invalid_urls' w' visited,
    _try_museum_urls painting_name urls invalid_urls w
    = (Ok (img_path, img_url, museum_location, invalid_urls'), w')
    /\ invalid_urls ⊆ invalid_urls'
    /\ navigations (calls w') = navigations (calls w) ++ visited
    /\ (forall url, url ∈ invalid_urls -> ~ In url visited)
    /\ (Py.truthy_opt img_path = true ->
        exists url, In url urls /\ (url ∉ invalid_urls)
                    /\ museum_of url = Some museum_location).
Proof.
  revert invalid_urls w. induction urls as [|url urls IH]; intros invalid_urls w.
  - exists None, None, "Unknown location", invalid_urls, w, []. rewrite app_nil_r.
    repeat split; auto. discriminate.
  - cbn [_try_museum_urls]. destruct (decide (url ∈ invalid_urls)) as [Hin|Hnotin].
    { destruct (IH invalid_urls w)
        as (p & u & loc & inv' & w' & visited & -> & Hsub & Hnav & Hskip & Hloc).
      eexists _, _, _, _, _, _. repeat split; eauto.
      intros Hp. destruct (Hloc Hp) as (url' & ? & ? & ?). exists url'. simpl. auto. }
    destruct (museum_of url) as [museum_name|] eqn:Hmuseum.
    2:{ destruct (IH invalid_urls w)
          as (p & u & loc & inv' & w' & visited & -> & Hsub & Hnav & Hskip & Hloc).
        eexists _, _, _, _, _, _. repeat split; eauto.
        intros Hp. destruct (Hloc Hp) as (url' & ? & ? & ?). exists url'. simpl. auto. }
    unfold bind.
    destruct (extract_main_image_from_page_run painting_name url w)
      as ([img_path img_url] & w1 & -> & Hnav).
    assert (Hone : exists here, navigations (calls w1) = navigations (calls w) ++ here
                                /\ forall x, x ∈ invalid_urls -> ~ In x here).
    { destruct Hnav as [Hnav | Hnav].
      - exists []. rewrite app_nil_r. split; [exact Hnav|]. intros x _ [].
      - exists [url]. split; [exact Hnav|]. intros x Hx [<- | []]. contradiction. }
    destruct Hone as (here & Hhere & Hfresh).
    destruct (Py.truthy_opt img_path) eqn:Hpath.
    + exists img_path, img_url, museum_name, invalid_urls, w1, here.
      repeat split; auto. intros _. exists url. simpl. auto.
    + destruct (IH ({[url]} ∪ invalid_urls) w1)
        as (p & u & loc & inv' & w' & visited & -> & Hsub & Hvisited & Hskip & Hloc).
      exists p, u, loc, inv', w', (here ++ visited).
      split; [reflexivity|].
      split; [etrans; [apply union_subseteq_r|exact Hsub]|].
      split; [rewrite Hvisited, Hhere, app_assoc; reflexivity|]. split.
      * intros x Hx Hmem. apply in_app_or in Hmem as [Hmem | Hmem].
        -- exact (Hfresh x Hx Hmem).
        -- apply (Hskip x); [apply elem_of_union_r, Hx|exact Hmem].
      * intros Hp. destruct (Hloc Hp) as (url' & Hmem & Hnew & Hname).
        exists url'. split; [simpl; auto|]. split; [|exact Hname].
        intros Hold. apply Hnew, elem_of_union_r, Hold.
Qed.


(** The third tier returns and opens no URL of the set. *)
Lemma _try_remaining_urls_run (painting_name : string) (urls : list string)
    (invalid_urls : gset string) (w : World) :
  exists img_path img_url w' visited,
    _try_remaining_urls painting_name urls invalid_urls w = (Ok (img_path, img_url), w')
    /\ navigations (calls w') = navigations (calls w) ++ visited
    /\ (forall url, url ∈ invalid_urls -> ~ In url visited).
Proof.
  revert w. induction urls as [|url urls IH]; intros w.
  - exists None, None, w, []. rewrite app_nil_r. repeat split; auto.
  - cbn [_try_remaining_urls]. destruct (decide (url ∈ invalid_urls)) as [Hin|Hnotin];
      [apply IH|].
    unfold bind.
    destruct (extract_main_image_from_page_run painting_name url w)
      as ([img_path img_url] & w1 & -> & Hnav).
    assert (Hone : exists here, navigations (calls w1) = navigations (calls w) ++ here
                                /\ forall x, x ∈ invalid_urls -> ~ In x here).
    { destruct Hnav as [Hnav | Hnav].
      - exists []. rewrite app_nil_r. split; [exact Hnav|]. intros x _ [].
      - exists [url]. split; [exact Hnav|]. intros x Hx [<- | []]. contradiction. }
    destruct Hone as (here & Hhere & Hfresh).
    destruct (Py.truthy_opt img_path).
    + exists img_path, img_url, w1, here. repeat split; auto.
    + destruct (IH w1) as (p & u & w' & visited & -> & Hvisited & Hskip).
      exists p, u, w', (here ++ visited). split; [reflexivity|].
      split; [rewrite Hvisited, Hhere, app_assoc; reflexivity|].
      intros x Hx Hmem. apply in_app_or in Hmem as [Hmem | Hmem];
        [exact (Hfresh x Hx Hmem)|exact (Hskip x Hx Hmem)].
Qed.

End TierFacts.

(** ** One painting *)


Section DispatcherFacts.

Context `{rt : Runtime}.

Lemma truthy_opt_Some (img_path : option string) :
  Py.truthy_opt img_path = true <-> exists path, img_path = Some path /\ path <> "".
Proof.
  destruct img_path as [[|c path]|]; simpl.
  - split; [discriminate|]. intros (path & [= <-] & Hne). contradiction.
  - split; [|reflexivity]. intros _. eexists. split; [reflexivity|discriminate].
  - split; [discriminate|]. intros (path & [=] & _).
Qed.

(** Writing the record of a found image calls nothing. *)
Lemma record_success_run (painting_name urls0 text path painting_location : string)
    (img_url : option string) (cur_batch_names_to_imgs : gmap string string)
    (cur_batch_results : gmap string BatchResult) (w : World) :
  cur_batch_names_to_imgs !! painting_name = Some text ->
  record_success painting_name urls0 (Some path) painting_location img_url
    cur_batch_names_to_imgs cur_batch_results w
  = (Ok (<[painting_name := success_record text path urls0 painting_location img_url]>
           cur_batch_results), w).
Proof.
  intros Htext. unfold record_success, bind, getitem. rewrite Htext. reflexivity.
Qed.

(** [process_a_painting] on a list that is not empty, in terms of its tiers:
    a tier is run only if the tiers before it found nothing. *)
Lemma process_a_painting_tiers (painting_name urls0 : string) (rest : list string)
    (cur_batch_names_to_imgs : gmap string string)
    (cur_batch_results : gmap string BatchResult) (w : World) :
  let urls := urls0 :: rest in
  let painting_location := _detect_museum_from_urls urls in
  process_a_painting painting_name (UrlList urls) cur_batch_names_to_imgs
    cur_batch_results w
  = match _try_wikipedia_urls painting_name urls w with
    | (Raise e, w1) => (Raise e, w1)
    | (Ok (img_path, img_url, invalid_urls), w1) =>
        if Py.truthy_opt img_path then
          record_success painting_name urls0 img_path painting_location img_url
            cur_batch_names_to_imgs cur_batch_results w1
        else
          match _try_museum_urls painting_name urls invalid_urls w1 with
          | (Raise e, w2) => (Raise e, w2)
          | (Ok (img_path, img_url, museum_location, invalid_urls), w2) =>
              if Py.truthy_opt img_path then
                record_success painting_name urls0 img_path museum_location img_url
                  cur_batch_names_to_imgs cur_batch_results w2
              else
                match _try_remaining_urls painting_name urls invalid_urls w2 with
                | (Raise e, w3) => (Raise e, w3)
                | (Ok (img_path, img_url), w3) =>
                    if Py.truthy_opt img_path then
                      record_success painting_name urls0 img_path painting_location
                        img_url cur_batch_names_to_imgs cur_batch_results w3
                    else
                      match cur_batch_names_to_imgs !! painting_name with
                      | Some text =>
                          (Ok (<[painting_name := exhausted_record text painting_location]>
                                 cur_batch_results), w3)
                      | None => (Raise KeyError, w3)
                      end
                end
          end
    end.
Proof.
  cbn zeta. unfold process_a_painting. unfold bind at 1.
  destruct (_try_wikipedia_urls painting_name (urls0 :: rest) w)
    as [[[[p1 u1] inv1]|e] w1]; [|reflexivity].
  destruct (Py.truthy_opt p1); [reflexivity|]. unfold bind at 1.
  destruct (_try_museum_urls painting_name (urls0 :: rest) inv1 w1)
    as [[[[[p2 u2] loc] inv2]|e] w2]; [|reflexivity].
  destruct (Py.truthy_opt p2); [reflexivity|]. unfold bind at 1.
  destruct (_try_remaining_urls painting_name (urls0 :: rest) inv2 w2)
    as [[[p3 u3]|e] w3]; [|reflexivity].
  destruct (Py.truthy_opt p3); [reflexivity|].
  unfold bind, getitem. destruct (cur_batch_names_to_imgs !! painting_name); reflexivity.
Qed.

End DispatcherFacts.

Section DispatcherSpec.

Context `{rt : Runtime}.

(** C2: given an empty list of URLs, or the string the search returns
    instead of a list, [process_a_painting] records the ["no urls were found"]
    status with the location ["Unknown location"], and leaves the world as
    it was: no page is opened, nothing is called. *)
Theorem no_urls_no_page (painting_name text : string) (urls : Urls)
    (cur_batch_names_to_imgs : gmap string string)
    (cur_batch_results : gmap string BatchResult) (w : World) :
  urls = UrlList [] \/ (exists message, urls = UrlError message) ->
  cur_batch_names_to_imgs !! painting_name = Some text ->
  process_a_painting painting_name urls cur_batch_names_to_imgs cur_batch_results w
  = (Ok (<[painting_name :=
            {| plaque_text := text;
               image_path := PathList [];
               source := "No image was downloaded (no urls were found).";
               location := "Unknown location";
               image_url := "No url to download the image was located." |}]>
          cur_batch_results), w)
  /\ navigations (calls (snd (process_a_painting painting_name urls
                                cur_batch_names_to_imgs cur_batch_results w))) 
     = navigations (calls w).
Proof.
  intros Hurls Htext.
  assert (Hrun : process_a_painting painting_name urls cur_batch_names_to_imgs
                   cur_batch_results w
                 = (Ok (<[painting_name := no_urls_record text]> cur_batch_results), w)).
  { destruct Hurls as [-> | [message ->]]; unfold process_a_painting, bind, getitem;
      rewrite Htext; reflexivity. }
  rewrite Hrun. split; reflexivity.
Qed.

(** C1: as soon as a tier returns an image path that is not empty,
    [process_a_painting] writes the record of the found image and returns in
    the world that tier left: the later tiers are not run, and no URL is
    opened after the one that gave the image. *)
Theorem tier_success_short_circuits (painting_name urls0 text : string)
    (rest : list string) (cur_batch_names_to_imgs : gmap string string)
    (cur_batch_results : gmap string BatchResult) (w : World) :
  cur_batch_names_to_imgs !! painting_name = Some text ->
  let urls := urls0 :: rest in
  let painting_location := _detect_museum_from_urls urls in
  let process :=
    process_a_painting painting_name (UrlList urls) cur_batch_names_to_imgs
      cur_batch_results w in
  let written path label img_url :=
    <[painting_name := success_record text path urls0 label img_url]> cur_batch_results in
  forall p1 u1 inv1 w1,
    _try_wikipedia_urls painting_name urls w = (Ok (p1, u1, inv1), w1) ->
    (forall path, p1 = Some path -> path <> "" ->
       process = (Ok (written path painting_location u1), w1))
    /\ (Py.truthy_opt p1 = false ->
        forall p2 u2 museum_location inv2 w2,
          _try_museum_urls painting_name urls inv1 w1
          = (Ok (p2, u2, museum_location, inv2), w2) ->
          (forall path, p2 = Some path -> path <> "" ->
             process = (Ok (written path museum_location u2), w2))
          /\ (Py.truthy_opt p2 = false ->
              forall p3 u3 w3,
                _try_remaining_urls painting_name urls inv2 w2 = (Ok (p3, u3), w3) ->
                forall path, p3 = Some path -> path <> "" ->
                  process = (Ok (written path painting_location u3), w3))).
Proof.
  intros Htext urls painting_location process written p1 u1 inv1 w1 Hwiki.
  subst process written painting_location urls. cbn beta.
  rewrite process_a_painting_tiers. cbn zeta. rewrite Hwiki.
  split.
  { intros path -> Hpath.
    rewrite (proj2 (truthy_opt_Some (Some path))) by eauto.
    apply record_success_run, Htext. }
  intros -> p2 u2 museum_location inv2 w2 Hmuseum. rewrite Hmuseum. split.
  { intros path -> Hpath.
    rewrite (proj2 (truthy_opt_Some (Some path))) by eauto.
    apply record_success_run, Htext. }
  intros -> p3 u3 w3 Hremaining path -> Hpath. rewrite Hremaining.
  rewrite (proj2 (truthy_opt_Some (Some path))) by eauto.
  apply record_success_run, Htext.
Qed.

(** C3: within one painting the set of invalid URLs only grows from tier
    to tier, and a URL that a tier put into the set is not opened by a later
    tier.  Every tier returns, and the pages [process_a_painting] opens are
    those of the tiers it ran. *)
Theorem invalid_urls_never_retried (painting_name urls0 : string) (rest : list string)
    (cur_batch_names_to_imgs : gmap string string)
    (cur_batch_results : gmap string BatchResult) (w : World) :
  let urls := urls0 :: rest in
  exists p1 u1 inv1 w1 visited1 p2 u2 museum_location inv2 w2 visited2 p3 u3 w3 visited3,
    _try_wikipedia_urls painting_name urls w = (Ok (p1, u1, inv1), w1)
    /\ _try_museum_urls painting_name urls inv1 w1
       = (Ok (p2, u2, museum_location, inv2), w2)
    /\ _try_remaining_urls painting_name urls inv2 w2 = (Ok (p3, u3), w3)
    /\ navigations (calls w1) = navigations (calls w) ++ visited1
    /\ navigations (calls w2) = navigations (calls w1) ++ visited2
    /\ navigations (calls w3) = navigations (calls w2) ++ visited3
    /\ inv1 ⊆ inv2
    /\ (forall url, url ∈ inv1 -> ~ In url visited2 /\ ~ In url visited3)
    /\ (forall url, url ∈ inv2 -> ~ In url visited3)
    /\ (let opened :=
          navigations (calls (snd (process_a_painting painting_name (UrlList urls)
                                     cur_batch_names_to_imgs cur_batch_results w))) in
        opened = navigations (calls w) ++ visited1
        \/ opened = navigations (calls w) ++ visited1 ++ visited2
        \/ opened = navigations (calls w) ++ visited1 ++ visited2 ++ visited3).
Proof.
  intros urls.
  destruct (wikipedia_loop_run painting_name urls ∅ w)
    as (p1 & u1 & inv1 & w1 & visited1 & Hwiki & _ & Hnav1).
  destruct (_try_museum_urls_run painting_name urls inv1 w1)
    as (p2 & u2 & loc & inv2 & w2 & visited2 & Hmuseum & Hsub & Hnav2 & Hskip2 & _).
  destruct (_try_remaining_urls_run painting_name urls inv2 w2)
    as (p3 & u3 & w3 & visited3 & Hremaining & Hnav3 & Hskip3).
  exists p1, u1, inv1, w1, visited1, p2, u2, loc, inv2, w2, visited2, p3, u3, w3, visited3.
  repeat (split; [assumption|]).
  split; [intros url Hurl; split; [apply Hskip2, Hurl|apply Hskip3, Hsub, Hurl]|].
  split; [exact Hskip3|].
  subst urls. cbn zeta. rewrite process_a_painting_tiers. cbn zeta.
  unfold _try_wikipedia_urls in *. rewrite Hwiki.
  assert (Hrecord : forall img_path label img_url w',
            navigations (calls (snd (record_success painting_name urls0 img_path label
                                       img_url cur_batch_names_to_imgs cur_batch_results w')))
            = navigations (calls w')).
  { intros. unfold record_success, bind, getitem.
    destruct (cur_batch_names_to_imgs !! painting_name); reflexivity. }
  destruct (Py.truthy_opt p1); [left; rewrite Hrecord; exact Hnav1|].
  rewrite Hmuseum.
  destruct (Py.truthy_opt p2);
    [right; left; rewrite Hrecord, Hnav2, Hnav1, app_assoc; reflexivity|].
  rewrite Hremaining. right. right.
  assert (Hall : navigations (calls w3)
                 = navigations (calls w) ++ visited1 ++ visited2 ++ visited3)
    by (rewrite Hnav3, Hnav2, Hnav1, !app_assoc; reflexivity).
  destruct (Py.truthy_opt p3); [rewrite Hrecord; exact Hall|].
  destruct (cur_batch_names_to_imgs !! painting_name); exact Hall.
Qed.

End DispatcherSpec.

Section DispatcherOutcome.

Context `{rt : Runtime}.

(** A goal that is a hypothesis or an identity. *)
Local Ltac known := first [assumption | reflexivity].

(** A run of [process_a_painting] that returns, read backwards: which tier
    ended it, in which world, and what it wrote. *)
Lemma process_a_painting_outcome (painting_name urls0 : string) (rest : list string)
    (cur_batch_names_to_imgs : gmap string string)
    (cur_batch_results results' : gmap string BatchResult) (w w' : World) :
  let urls := urls0 :: rest in
  let painting_location := _detect_museum_from_urls urls in
  process_a_painting painting_name (UrlList urls) cur_batch_names_to_imgs
    cur_batch_results w = (Ok results', w') ->
  exists text p1 u1 inv1 w1,
    cur_batch_names_to_imgs !! painting_name = Some text
    /\ _try_wikipedia_urls painting_name urls w = (Ok (p1, u1, inv1), w1)
    /\ ((exists path,
           p1 = Some path /\ path <> "" /\ w' = w1
           /\ results' = <[painting_name :=
                            success_record text path urls0 painting_location u1]>
                         cur_batch_results)
        \/ (Py.truthy_opt p1 = false
            /\ exists p2 u2 museum_location inv2 w2,
                 _try_museum_urls painting_name urls inv1 w1
                 = (Ok (p2, u2, museum_location, inv2), w2)
                 /\ ((exists path url,
                        p2 = Some path /\ path <> "" /\ w' = w2
                        /\ results' = <[painting_name :=
                                         success_record text path urls0 museum_location u2]>
                                      cur_batch_results
                        /\ In url urls /\ museum_of url = Some museum_location)
                     \/ (Py.truthy_opt p2 = false
                         /\ exists p3 u3,
                              _try_remaining_urls painting_name urls inv2 w2
                              = (Ok (p3, u3), w')
                              /\ ((exists path,
                                     p3 = Some path /\ path <> ""
                                     /\ results' = <[painting_name :=
                                                      success_record text path urls0
                                                        painting_location u3]>
                                                   cur_batch_results)
                                  \/ (Py.truthy_opt p3 = false
                                      /\ results' = <[painting_name :=
                                                       exhausted_record text
                                                         painting_location]>
                                                    cur_batch_results)))))).
Proof.
  cbn zeta. rewrite process_a_painting_tiers. cbn zeta.
  destruct (wikipedia_loop_run painting_name (urls0 :: rest) ∅ w)
    as (p1 & u1 & inv1 & w1 & visited1 & Hwiki & _ & _).
  unfold _try_wikipedia_urls. rewrite Hwiki.
  destruct (_try_museum_urls_run painting_name (urls0 :: rest) inv1 w1)
    as (p2 & u2 & loc & inv2 & w2 & visited2 & Hmuseum & _ & _ & _ & Hloc).
  destruct (_try_remaining_urls_run painting_name (urls0 :: rest) inv2 w2)
    as (p3 & u3 & w3 & visited3 & Hremaining & _ & _).
  assert (Hwritten : forall img_path label img_url w0,
            Py.truthy_opt img_path = true ->
            record_success painting_name urls0 img_path label img_url
              cur_batch_names_to_imgs cur_batch_results w0 = (Ok results', w') ->
            exists text path,
              cur_batch_names_to_imgs !! painting_name = Some text
              /\ img_path = Some path /\ path <> "" /\ w' = w0
              /\ results' = <[painting_name := success_record text path urls0 label img_url]>
                            cur_batch_results).
  { intros img_path label img_url w0 Htruthy Hrun.
    apply truthy_opt_Some in Htruthy as (path & -> & Hpath).
    destruct (cur_batch_names_to_imgs !! painting_name) as [text|] eqn:Htext.
    - rewrite (record_success_run _ _ text) in Hrun by exact Htext.
      injection Hrun as <- <-. exists text, path. auto.
    - unfold record_success, bind, getitem in Hrun. rewrite Htext in Hrun.
      discriminate. }
  destruct (Py.truthy_opt p1) eqn:Hp1.
  { intros Hrun.
    destruct (Hwritten _ _ _ _ Hp1 Hrun) as (text & path & ? & ? & ? & ? & ?).
    exists text, p1, u1, inv1, w1. do 2 (split; [known|]).
    left. exists path. auto. }
  rewrite Hmuseum. destruct (Py.truthy_opt p2) eqn:Hp2.
  { intros Hrun.
    destruct (Hwritten _ _ _ _ Hp2 Hrun) as (text & path & ? & ? & ? & ? & ?).
    destruct (Hloc eq_refl) as (url & Hurl & _ & Hname).
    exists text, p1, u1, inv1, w1. do 2 (split; [known|]).
    right. split; [known|]. exists p2, u2, loc, inv2, w2. split; [known|].
    left. exists path, url. auto 10. }
  rewrite Hremaining. destruct (Py.truthy_opt p3) eqn:Hp3.
  { intros Hrun.
    destruct (Hwritten _ _ _ _ Hp3 Hrun) as (text & path & ? & ? & ? & ? & ?).
    subst w3.
    exists text, p1, u1, inv1, w1. do 2 (split; [known|]).
    right. split; [known|]. exists p2, u2, loc, inv2, w2. split; [known|].
    right. split; [known|]. exists p3, u3. split; [exact Hremaining|].
    left. exists path. auto. }
  destruct (cur_batch_names_to_imgs !! painting_name) as [text|] eqn:Htext;
    [|discriminate].
  intros [= <- <-].
  exists text, p1, u1, inv1, w1. do 2 (split; [known|]).
  right. split; [known|]. exists p2, u2, loc, inv2, w2. split; [known|].
  right. split; [known|]. exists p3, u3. split; [exact Hremaining|].
  right. auto.
Qed.



End DispatcherOutcome.

(** The scenario of the specification: the encyclopedia gives the image and
    the other URL is never opened. *)
Lemma tier_success_short_circuits_witness :
  let site := Scenario.encyclopedia in
  let run := @process_a_painting (Demo.runtime site) "Mona Lisa"
               (UrlList [Scenario.wikipedia; Scenario.elsewhere])
               Scenario.names ∅ (Demo.start site) in
  fst run
  = Ok (<["Mona Lisa" :=
           success_record "Mona Lisa, Leonardo da Vinci" "extracted_images/Mona Lisa.jpg"
             Scenario.wikipedia "Unknown location" (Some Scenario.image)]> ∅)
  /\ navigations (calls (snd run)) = [Scenario.wikipedia].
Proof.
  cbn zeta. set (site := Scenario.encyclopedia).
  assert (Hwiki : @_try_wikipedia_urls (Demo.runtime site) "Mona Lisa"
                    [Scenario.wikipedia; Scenario.elsewhere] (Demo.start site)
                  = (Ok (Some "extracted_images/Mona Lisa.jpg", Some Scenario.image, ∅),
                     {| env := Scenario.wikipedia : @Env (Demo.runtime site);
                        calls := [Goto Scenario.wikipedia;
                                  HttpGet Scenario.image Scenario.wikipedia
                                    (Ok (snd (Demo.png_at Scenario.image)));
                                  WriteFile "extracted_images/Mona Lisa.jpg"
                                    [Byte.x89; Byte.x50; Byte.x4e]] |}))
    by (vm_compute; reflexivity).
  destruct (tier_success_short_circuits (rt := Demo.runtime site) "Mona Lisa"
              Scenario.wikipedia "Mona Lisa, Leonardo da Vinci" [Scenario.elsewhere]
              Scenario.names ∅ (Demo.start site) eq_refl _ _ _ _ Hwiki) as [Hfound _].
  rewrite (Hfound _ eq_refl ltac:(discriminate)). split; reflexivity.
Defined.

Lemma no_urls_no_page_witness :
  @process_a_painting (Demo.runtime Demo.nothing) "Mona Lisa"
    (UrlError "Unsuccessful search") Scenario.names ∅ (Demo.start Demo.nothing)
  = (Ok (<["Mona Lisa" := no_urls_record "Mona Lisa, Leonardo da Vinci"]> ∅),
     Demo.start Demo.nothing).
Proof.
  apply (no_urls_no_page (rt := Demo.runtime Demo.nothing) "Mona Lisa"
           "Mona Lisa, Leonardo da Vinci" (UrlError "Unsuccessful search")
           Scenario.names ∅ (Demo.start Demo.nothing)).
  - right. exists "Unsuccessful search". reflexivity.
  - reflexivity.
Defined.








(** ** Where the script departs from the package *)

(** With no image that has an area, [get_img] of the script raises
    [IndexError]; the page pipeline above it catches the exception. *)
Lemma legacy_get_img_raises_without_candidate `{rt : Runtime} (page : Page)
    (base_url img_name : string) (w : World) :
  match largest_image (img_blocks page) with
  | None => Legacy.get_img page base_url img_name w = (Raise IndexError, w)
  | Some _ => True
  end.
Proof.
  unfold largest_image, Legacy.get_img.
  destruct (image_heap (img_blocks page)) as [|[[na i] x] heap]; [reflexivity|exact I].
Qed.

(** The script records the URL that gave the image as the source page; the
    package records the first URL of the list. *)
Lemma legacy_source_is_the_url_that_answered :
  let site := Scenario.two_museums in
  let urls := [Scenario.boston; Scenario.new_york] in
  option_map source
    (Scenario.recorded
       (fst (@Legacy.process_a_painting (Demo.runtime site) "Mona Lisa" urls
               Scenario.names ∅ (Demo.start site))) "Mona Lisa")
  = Some Scenario.new_york
  /\ option_map source
       (Scenario.recorded
          (fst (@process_a_painting (Demo.runtime site) "Mona Lisa" (UrlList urls)
                  Scenario.names ∅ (Demo.start site))) "Mona Lisa")
     = Some Scenario.boston.
Proof. cbn zeta. split; vm_compute; reflexivity. Qed.

(** The museum loop of the script does not read the set of invalid URLs: an
    encyclopedia URL that failed and that contains a museum keyword (["si"]
    here) is opened a second time.  The package opens it once. *)
Lemma legacy_museum_loop_retries_invalid_url :
  let url := "https://en.wikipedia.org/wiki/Persistence" in
  navigations
    (calls (snd (@Legacy.process_a_painting (Demo.runtime Demo.nothing) "Mona Lisa"
                   [url] Scenario.names ∅ (Demo.start Demo.nothing))))
  = [url; url]
  /\ navigations
       (calls (snd (@process_a_painting (Demo.runtime Demo.nothing) "Mona Lisa"
                      (UrlList [url]) Scenario.names ∅ (Demo.start Demo.nothing))))
     = [url].
Proof. cbn zeta. split; vm_compute; reflexivity. Qed.

(** * Further properties

    What the code shows beyond its specification: how the resolver, the
    selector, the page pipeline and the dispatcher behave at their edges, and
    the properties of the functions modelled last. *)

(** ** Lists *)

Lemma sublist_step {A} (here visited rest : list A) (x : A) :
  here `sublist_of` [x] -> visited `sublist_of` rest ->
  here ++ visited `sublist_of` x :: rest.
Proof. intros Hhere Hvisited. exact (sublist_app here [x] visited rest Hhere Hvisited). Qed.

Lemma filter_sublist {A} (f : A -> bool) (l : list A) : List.filter f l `sublist_of` l.
Proof.
  induction l as [|x l IH]; [constructor|]. simpl.
  destruct (f x); [apply sublist_skip, IH|apply sublist_cons, IH].
Qed.

Lemma sublist_In {A} (l1 l2 : list A) (x : A) : l1 `sublist_of` l2 -> In x l1 -> In x l2.
Proof.
  intros Hsub Hx. apply list_elem_of_In. apply list_elem_of_In in Hx.
  exact (elem_of_sublist _ _ _ Hx Hsub).
Qed.

Lemma sublist_singleton_In {A} (here : list A) (x y : A) :
  here `sublist_of` [x] -> In y here -> y = x.
Proof.
  intros Hsub Hy. apply list_elem_of_In in Hy.
  apply (elem_of_sublist _ _ _ Hy) in Hsub. apply list_elem_of_singleton in Hsub. exact Hsub.
Qed.

(** ** What a log does not show *)

Section Unseen.

Context `{rt : Runtime} {B : Type} (observe : Call -> option B).

Lemma unseen_ret {A} (a : A) : unseen observe (ret a).
Proof. intros w. reflexivity. Qed.

Lemma unseen_raise {A} (e : exn) : unseen observe (raise (A := A) e).
Proof. intros w. reflexivity. Qed.

Lemma unseen_lift {A} (r : Result A) : unseen observe (lift r).
Proof. destruct r; [apply unseen_ret|apply unseen_raise]. Qed.

Lemma unseen_bind {A C} (m : M A) (k : A -> M C) :
  unseen observe m -> (forall a, unseen observe (k a)) -> unseen observe (bind m k).
Proof.
  intros Hm Hk w. unfold bind. specialize (Hm w).
  destruct (m w) as [[a|e] w']; simpl in *; [|exact Hm].
  rewrite (Hk a w'). exact Hm.
Qed.

Lemma unseen_try_except {A} (m : M A) (h : exn -> M A) :
  unseen observe m -> (forall e, unseen observe (h e)) -> unseen observe (try_except m h).
Proof.
  intros Hm Hh w. unfold try_except. specialize (Hm w).
  destruct (m w) as [[a|e] w']; simpl in *; [exact Hm|].
  rewrite (Hh e w'). exact Hm.
Qed.

Lemma unseen_attempt {A} (m : M A) : unseen observe m -> unseen observe (attempt m).
Proof.
  intros Hm w. unfold attempt. specialize (Hm w). destruct (m w). exact Hm.
Qed.

Lemma unseen_perform {A} (f : Env -> Result A * Env) (log : Result A -> list Call) :
  (forall r, omap observe (log r) = []) -> unseen observe (perform f log).
Proof.
  intros Hlog w. unfold perform. destruct (f (env w)) as [r e]. simpl.
  rewrite omap_app, Hlog, app_nil_r. reflexivity.
Qed.

Section Fetches.

(** [observe] does not see the fetches. *)
Hypothesis no_fetch : forall url referer outcome, observe (HttpGet url referer outcome) = None.

Lemma unseen_download (url base_url : string) :
  unseen observe (download_image_from_url url base_url).
Proof.
  apply unseen_try_except.
  - apply unseen_bind.
    + apply unseen_perform. intros r. simpl. rewrite no_fetch. reflexivity.
    + intros response. destruct (_ && _); [|apply unseen_ret].
      apply unseen_bind; [apply unseen_lift|]. intros content. apply unseen_ret.
  - intros e. destruct e; first [apply unseen_ret|apply unseen_raise].
Qed.

Lemma unseen_try_downloads (urls : list string) (base_url : string) :
  unseen observe (try_downloads urls base_url).
Proof.
  induction urls as [|url urls IH]; [apply unseen_ret|]. cbn [try_downloads].
  apply unseen_bind; [apply unseen_download|]. intros r.
  destruct (Py.truthy_bytes _); [apply unseen_ret|exact IH].
Qed.

Lemma unseen_extract_best (img_block : ImgBlock) (base_url : string) :
  unseen observe (extract_best_image_from_url img_block base_url).
Proof.
  unfold extract_best_image_from_url, try_srcset, try_src.
  apply unseen_bind.
  { destruct (get_attribute img_block "srcset") as [srcset|]; [|apply unseen_ret].
    destruct (Py.truthy srcset); [|apply unseen_ret].
    apply unseen_bind; [apply unseen_lift|]. intros plan. apply unseen_try_downloads. }
  intros [r|]; [apply unseen_ret|]. apply unseen_bind.
  { destruct (get_attribute img_block "src") as [src|]; [|apply unseen_ret].
    destruct (Py.truthy src); [apply unseen_try_downloads|apply unseen_ret]. }
  intros [r|]; [apply unseen_ret|]. apply unseen_bind; [apply unseen_try_downloads|].
  intros [r|]; apply unseen_ret.
Qed.

End Fetches.

End Unseen.

(** ** The resolver, as one walk *)

Section ResolverWalk.

Context `{rt : Runtime}.

(** A walk over two lists is a walk over the first and, when it found
    nothing, a walk over the second. *)
Lemma try_downloads_app (urls1 urls2 : list string) (base_url : string) (w : World) :
  try_downloads (urls1 ++ urls2) base_url w
  = match try_downloads urls1 base_url w with
    | (Ok None, w1) => try_downloads urls2 base_url w1
    | run => run
    end.
Proof.
  revert w. induction urls1 as [|url urls1 IH]; intros w; [reflexivity|].
  rewrite <- app_comm_cons, !try_downloads_cons. cbn zeta.
  destruct (download_result _ _) as [r|e]; [|reflexivity].
  destruct (Py.truthy_bytes _); [reflexivity|]. apply IH.
Qed.


Lemma try_srcset_stage (img_block : ImgBlock) (base_url : string) (w : World) :
  try_srcset img_block base_url w
  = match srcset_stage img_block with
    | Ok candidates => try_downloads candidates base_url w
    | Raise e => (Raise e, w)
    end.
Proof.
  unfold try_srcset, srcset_stage.
  destruct (get_attribute img_block "srcset") as [srcset|]; [|reflexivity].
  destruct (Py.truthy srcset); [|reflexivity]. unfold bind.
  destruct (srcset_candidates (srcset_tokens srcset)) as [plan|e]; reflexivity.
Qed.

Lemma try_src_stage (img_block : ImgBlock) (base_url : string) :
  try_src img_block base_url = try_downloads (src_stage img_block) base_url.
Proof.
  unfold try_src, src_stage.
  destruct (get_attribute img_block "src") as [src|]; [|reflexivity].
  destruct (Py.truthy src); reflexivity.
Qed.

(** The resolver is one walk over the candidates of its three stages. *)
Lemma extract_best_image_from_url_walk (img_block : ImgBlock) (base_url : string)
    (w : World) :
  extract_best_image_from_url img_block base_url w
  = match resolver_candidates img_block with
    | Ok candidates =>
        (found_or_nothing (fst (try_downloads candidates base_url w)),
         snd (try_downloads candidates base_url w))
    | Raise e => (Raise e, w)
    end.
Proof.
  unfold extract_best_image_from_url, resolver_candidates.
  unfold bind at 1. rewrite try_srcset_stage.
  destruct (srcset_stage img_block) as [candidates|e]; [|reflexivity].
  rewrite try_downloads_app.
  destruct (try_downloads candidates base_url w) as [[[r|]|e] w1]; [reflexivity| |reflexivity].
  unfold bind at 1. rewrite try_src_stage, try_downloads_app.
  destruct (try_downloads (src_stage img_block) base_url w1) as [[[r|]|e] w2];
    [reflexivity| |reflexivity].
  unfold bind.
  destruct (try_downloads (other_attribute_values img_block) base_url w2)
    as [[[r|]|e] w3]; reflexivity.
Qed.


End ResolverWalk.

(** ** A srcset that cannot be paired *)

Lemma rstrip_empty (p : ascii -> bool) (s : string) :
  Py.rstrip p s = "" -> forall c, In c (list_ascii_of_string s) -> p c = true.
Proof.
  induction s as [|a s IH]; [intros _ c []|]. simpl.
  destruct (Py.rstrip p s) as [|b r]; [|discriminate].
  destruct (p a) eqn:Ha; [|discriminate].
  intros _ c [<- | Hc]; [exact Ha|exact (IH eq_refl c Hc)].
Qed.

(** The pairing loop raises [IndexError] only on an empty token that stands
    where a descriptor is read, and [ValueError] only on a descriptor whose
    digits [int] does not convert; it raises nothing else. *)
Lemma parse_srcset_raise (tokens : list string) (e : exn) :
  parse_srcset tokens = Raise e ->
  (e = IndexError /\ In "" (tl tokens))
  \/ (e = ValueError
      /\ exists descriptor,
           In descriptor (tl tokens)
           /\ is_descriptor descriptor = Ok true
           /\ descriptor_value descriptor = Raise ValueError).
Proof.
  remember (length tokens) as n eqn:Hn.
  assert (Hle : (length tokens <= n)%nat) by lia. clear Hn.
  revert tokens Hle. induction n as [|n IH]; intros tokens Hle.
  - destruct tokens; [discriminate|simpl in Hle; lia].
  - destruct tokens as [|url [|descriptor rest]]; try discriminate.
    cbn [parse_srcset]. simpl in Hle.
    assert (Hlater : forall later,
              (e = IndexError /\ In "" (tl later)
               \/ e = ValueError
                  /\ exists d, In d (tl later) /\ is_descriptor d = Ok true
                               /\ descriptor_value d = Raise ValueError) ->
              (forall x, In x (tl later) -> In x (descriptor :: rest)) ->
              e = IndexError /\ In "" (tl (url :: descriptor :: rest))
              \/ e = ValueError
                 /\ exists d, In d (tl (url :: descriptor :: rest))
                              /\ is_descriptor d = Ok true
                              /\ descriptor_value d = Raise ValueError).
    { intros later [[-> Hin] | (-> & d & Hin & Hd)] Hsub; [left|right];
        (split; [reflexivity|]); [exact (Hsub _ Hin)|].
      exists d. split; [exact (Hsub _ Hin)|exact Hd]. }
    destruct (is_descriptor descriptor) as [[|]|e'] eqn:Hdesc.
    + destruct (descriptor_value descriptor) as [value|e'] eqn:Hvalue.
      * destruct (parse_srcset rest) as [ps|e'] eqn:Hrest; [discriminate|].
        intros [= <-]. apply (Hlater rest (IH rest ltac:(lia) Hrest)).
        intros x Hx. right. destruct rest; [destruct Hx|right; exact Hx].
      * intros [= <-]. right.
        assert (e' = ValueError) as ->.
        { unfold descriptor_value in Hvalue.
          destruct (Py.int _); [discriminate|]. injection Hvalue as <-. reflexivity. }
        split; [reflexivity|]. exists descriptor. split; [left; reflexivity|]. auto.
    + intros Hp. apply (Hlater (descriptor :: rest) (IH (descriptor :: rest) ltac:(simpl; lia) Hp)).
      intros x Hx. right. exact Hx.
    + intros [= <-]. apply is_descriptor_raise in Hdesc as [-> ->].
      left. split; [reflexivity|]. left. reflexivity.
Qed.

Section Unpaired.

Context `{rt : Runtime}.

(** X2: a [srcset] whose pairing raises makes the resolver raise, before
    anything is fetched and without trying the [src] of the element.  The
    pairing raises [IndexError] only when a comma stands alone where a
    descriptor is read (["a.jpg , b.jpg 2x"]): the comma is stripped to the
    empty string and [descriptor[-1]] is read.  It raises [ValueError] only
    when [int] does not convert the digits of an accepted descriptor: one of
    them is no decimal digit, or they are more than 4300.  It raises nothing
    else. *)
Theorem malformed_srcset_aborts_the_resolver (img_block : ImgBlock)
    (base_url srcset : string) (e : exn) (w : World) :
  get_attribute img_block "srcset" = Some srcset ->
  parse_srcset (srcset_tokens srcset) = Raise e ->
  (e = IndexError
   /\ (exists word,
         In word (Py.split (Py.strip srcset))
         /\ forall c, In c (list_ascii_of_string word) -> c = ","%char)
   \/ e = ValueError
      /\ exists descriptor,
           In descriptor (srcset_tokens srcset)
           /\ is_descriptor descriptor = Ok true
           /\ ((exists digit,
                  In digit (digits_of descriptor) /\ Py.decimal digit = None)
               \/ 4300 < Z.of_nat (length (digits_of descriptor))))
  /\ extract_best_image_from_url img_block base_url w = (Raise e, w).
Proof.
  intros Hattr Hparse. split.
  - assert (Htl : forall x, In x (tl (srcset_tokens srcset)) -> In x (srcset_tokens srcset))
      by (intros x Hx; destruct (srcset_tokens srcset); [destruct Hx|right; exact Hx]).
    destruct (parse_srcset_raise _ _ Hparse) as [[-> Hin] | (-> & d & Hin & Hdesc & Hvalue)];
      [left|right]; (split; [reflexivity|]).
    + apply Htl in Hin. unfold srcset_tokens in Hin.
      apply in_map_iff in Hin as (word & Hempty & Hword).
      exists word. split; [exact Hword|]. intros c Hc.
      symmetry. apply Ascii.eqb_eq. exact (rstrip_empty _ _ Hempty c Hc).
    + exists d. split; [exact (Htl _ Hin)|]. split; [exact Hdesc|].
      rewrite (descriptor_value_digits _ (is_descriptor_digits _ Hdesc)) in Hvalue.
      destruct (digits_as_number d) eqn:Hnumber.
      * right. change Py.INT_MAX_STR_DIGITS with 4300 in Hvalue.
        destruct (Z.leb_spec (Z.of_nat (length (digits_of d))) 4300); [discriminate|lia].
      * left. apply digits_as_number_None, Hnumber.
  - rewrite extract_best_image_from_url_walk.
    unfold resolver_candidates, srcset_stage, srcset_candidates.
    rewrite Hattr, Hparse.
    destruct srcset as [|c srcset]; [discriminate Hparse|reflexivity].
Qed.

End Unpaired.

Lemma malformed_srcset_aborts_the_resolver_witness :
  let img_block := {| bounding_box := Some {| width := 10; height := 10 |};
                      attributes := [("srcset", "a.jpg , b.jpg 2x"); ("src", "a.jpg")] |} in
  @extract_best_image_from_url (Demo.runtime Demo.nothing) img_block
    "https://example.org/" (Demo.start Demo.nothing)
  = (Raise IndexError, Demo.start Demo.nothing).
Proof.
  intros img_block.
  exact (proj2 (malformed_srcset_aborts_the_resolver (rt := Demo.runtime Demo.nothing)
                  img_block "https://example.org/" "a.jpg , b.jpg 2x" IndexError
                  (Demo.start Demo.nothing) eq_refl
                  ltac:(vm_compute; reflexivity))).
Defined.

(** ** What is saved *)

Lemma saved_paths_app (l1 l2 : list Call) :
  saved_paths (l1 ++ l2) = saved_paths l1 ++ saved_paths l2.
Proof. apply omap_app. Qed.


Section Saving.

Context `{rt : Runtime}.

(** The conversion keeps an extension that is not empty. *)
Lemma convert_to_jpeg_extension (img_bytes data : bytes) (img_extension ext : string) :
  convert_to_jpeg img_bytes img_extension = Ok (data, ext) ->
  img_extension <> "" -> ext <> "".
Proof.
  unfold convert_to_jpeg.
  destruct (image_to_jpeg img_bytes) as [jpeg|[]]; intros [= <- <-] Hext;
    solve [discriminate | exact Hext].
Qed.

(** [save_image] on an answer with bytes, a URL and an extension. *)
Lemma save_image_found (img_name : string) (data : bytes) (url ext : string) (w : World) :
  Py.truthy_bytes (Some data) && Py.truthy url && Py.truthy ext = true ->
  save_image img_name (Some data, Some url, Some ext) w
  = match convert_to_jpeg data ext with
    | Ok (jpeg, ext') =>
        let img_path := EXTRACTED_IMAGES_DIR +:+ "/" +:+ img_name +:+ ext' in
        let '(r, e) := file_write img_path jpeg (env w) in
        (match r with
         | Ok _ => Ok (Some img_path, Some url)
         | Raise e => Raise e
         end,
         {| env := e; calls := calls w ++ [WriteFile img_path jpeg] |})
    | Raise e => (Raise e, w)
    end.
Proof.
  intros Htruthy. unfold save_image. rewrite Htruthy. unfold bind at 1, lift.
  destruct (convert_to_jpeg data ext) as [[jpeg ext']|e]; [|reflexivity].
  unfold ret at 1. cbn zeta. unfold bind, write, perform.
  destruct (file_write _ jpeg (env w)) as [[[]|e] env']; reflexivity.
Qed.

Lemma save_image_run (img_name : string) (found : ImageData) (w : World) :
  let run := save_image img_name found w in
  exists tail,
    calls (snd run) = calls w ++ tail
    /\ fetched tail = []
    /\ navigations tail = []
    /\ (saved_paths tail = []
        \/ exists ext,
             ext <> ""
             /\ saved_paths tail = [EXTRACTED_IMAGES_DIR +:+ "/" +:+ img_name +:+ ext])
    /\ (forall path img_url,
          fst run = Ok (Some path, img_url) ->
          saved_paths tail = [path]
          /\ exists url, img_url = Some url /\ url <> "" /\ snd (fst found) = Some url)
    /\ (forall img_url, fst run = Ok (None, img_url) -> tail = [] /\ img_url = None).
Proof.
  cbn zeta.
  assert (Hnothing : exists tail,
            calls (snd (ret (A := option string * option string) (None, None) w))
            = calls w ++ tail
            /\ fetched tail = [] /\ navigations tail = []
            /\ (saved_paths tail = []
                \/ exists ext,
                     ext <> ""
                     /\ saved_paths tail
                        = [EXTRACTED_IMAGES_DIR +:+ "/" +:+ img_name +:+ ext])
            /\ (forall path img_url,
                  fst (ret (A := option string * option string) (None, None) w)
                  = Ok (Some path, img_url) ->
                  saved_paths tail = [path]
                  /\ exists url, img_url = Some url /\ url <> ""
                                 /\ snd (fst found) = Some url)
            /\ (forall img_url,
                  fst (ret (A := option string * option string) (None, None) w)
                  = Ok (None, img_url) -> tail = [] /\ img_url = None)).
  { exists []. rewrite app_nil_r. do 3 (split; [reflexivity|]). split; [left; reflexivity|].
    split; [intros path img_url [=]|]. intros img_url [= <-]. auto. }
  destruct found as [[[data|] [url|]] [ext|]]; try exact Hnothing.
  destruct (Py.truthy_bytes (Some data) && Py.truthy url && Py.truthy ext) eqn:Htruthy.
  2:{ unfold save_image. rewrite Htruthy. exact Hnothing. }
  clear Hnothing.
  rewrite (save_image_found img_name data url ext w Htruthy).
  apply andb_true_iff in Htruthy as [Htruthy Hext].
  apply andb_true_iff in Htruthy as [_ Hurl].
  assert (Hext' : ext <> "") by (destruct ext; discriminate).
  assert (Hurl' : url <> "") by (destruct url; discriminate).
  destruct (convert_to_jpeg data ext) as [[jpeg ext']|e] eqn:Hconvert.
  - pose proof (convert_to_jpeg_extension _ _ _ _ Hconvert Hext') as Hjpg. cbn zeta.
    destruct (file_write (EXTRACTED_IMAGES_DIR +:+ "/" +:+ img_name +:+ ext') jpeg (env w))
      as [[[]|e] env']; cbn [fst snd calls];
      eexists; (split; [reflexivity|]); (do 2 (split; [reflexivity|]));
      (split; [right; exists ext'; split; [exact Hjpg|reflexivity]|]); split;
      try discriminate.
    intros path img_url [= <- <-]. split; [reflexivity|]. exists url. auto.
  - exists []. rewrite app_nil_r. do 3 (split; [reflexivity|]). split; [left; reflexivity|].
    split; [intros path img_url [=]|intros img_url [=]].
Qed.

(** What [get_img] writes. *)
Lemma get_img_saved (page : Page) (base_url img_name : string) (w w' : World)
    (res : Result (option string * option string)) :
  get_img page base_url img_name w = (res, w') ->
  exists tail,
    saved_paths (calls w') = saved_paths (calls w) ++ tail
    /\ (tail = []
        \/ exists ext,
             ext <> "" /\ tail = [EXTRACTED_IMAGES_DIR +:+ "/" +:+ img_name +:+ ext])
    /\ (forall path img_url,
          res = Ok (Some path, img_url) ->
          tail = [path] /\ exists url, img_url = Some url /\ url <> "")
    /\ (forall img_url, res = Ok (None, img_url) -> tail = [] /\ img_url = None).
Proof.
  unfold get_img. destruct (largest_image (img_blocks page)) as [img_to_download|].
  2:{ intros [= <- <-]. exists []. rewrite app_nil_r.
      split; [reflexivity|]. split; [left; reflexivity|].
      split; [intros path img_url [=]|]. intros img_url [= <-]. auto. }
  unfold bind.
  pose proof (unseen_extract_best
                (fun c => match c with WriteFile path _ => Some path | _ => None end)
                ltac:(reflexivity) img_to_download base_url w) as Hquiet.
  change (saved_paths (calls (snd (extract_best_image_from_url img_to_download base_url w)))
          = saved_paths (calls w)) in Hquiet.
  destruct (extract_best_image_from_url img_to_download base_url w) as [[found|e] w1];
    cbn [snd] in Hquiet.
  2:{ intros [= <- <-]. exists []. rewrite app_nil_r.
      split; [exact Hquiet|]. split; [left; reflexivity|].
      split; [intros path img_url [=]|intros img_url [=]]. }
  destruct (save_image_run img_name found w1)
    as (tail & Hcalls & _ & _ & Hform & Hsome & Hnone).
  cbn zeta in *. intros Hrun. rewrite Hrun in *. cbn [fst snd] in *.
  exists (saved_paths tail). rewrite Hcalls, saved_paths_app, Hquiet.
  split; [reflexivity|]. split; [exact Hform|]. split.
  - intros path img_url Hres. destruct (Hsome path img_url Hres) as (Htail & url & ? & ? & _).
    eauto.
  - intros img_url Hres. destruct (Hnone img_url Hres) as [-> ->]. auto.
Qed.


End Saving.

(** ** One page, again *)

Section PageVisit.

Context `{rt : Runtime}.

Lemma unseen_saved_perform {A} (f : Env -> Result A * Env) (log : Result A -> list Call) :
  (forall r, saved_paths (log r) = []) ->
  forall w, saved_paths (calls (snd (perform f log w))) = saved_paths (calls w).
Proof. intros Hlog. exact (unseen_perform _ f log Hlog). Qed.

Lemma page_body_run (painting_name url : string) (w w' : World)
    (res : Result (option string * option string)) :
  page_body painting_name url w = (res, w') ->
  exists tail,
    saved_paths (calls w') = saved_paths (calls w) ++ tail
    /\ (tail = []
        \/ exists ext,
             ext <> ""
             /\ tail = [EXTRACTED_IMAGES_DIR +:+ "/" +:+ painting_name +:+ ext])
    /\ (forall path img_url,
          res = Ok (Some path, img_url) ->
          tail = [path] /\ exists found_url, img_url = Some found_url /\ found_url <> "")
    /\ (forall img_url, res = Ok (None, img_url) -> img_url = None).
Proof.
  assert (Hnothing : forall w0,
            saved_paths (calls w0) = saved_paths (calls w) ->
            (forall path img_url, res <> Ok (Some path, img_url)) ->
            (forall img_url, res = Ok (None, img_url) -> img_url = None) ->
            exists tail,
              saved_paths (calls w0) = saved_paths (calls w) ++ tail
              /\ (tail = []
                  \/ exists ext,
                       ext <> ""
                       /\ tail = [EXTRACTED_IMAGES_DIR +:+ "/" +:+ painting_name +:+ ext])
              /\ (forall path img_url,
                    res = Ok (Some path, img_url) ->
                    tail = [path]
                    /\ exists found_url, img_url = Some found_url /\ found_url <> "")
              /\ (forall img_url, res = Ok (None, img_url) -> img_url = None)).
  { intros w0 Hsaved Hnever Hnone. exists []. rewrite app_nil_r.
    split; [exact Hsaved|]. split; [left; reflexivity|].
    split; [|exact Hnone]. intros path img_url Hres. destruct (Hnever _ _ Hres). }
  unfold page_body. unfold bind at 1.
  pose proof (unseen_saved_perform (page_goto url) (fun _ => [Goto url])
                ltac:(reflexivity) w) as Hgoto.
  fold (goto url) in Hgoto.
  destruct (goto url w) as [[content|e] w1]; cbn [snd] in Hgoto.
  2:{ intros [= <- <-]. apply Hnothing; [exact Hgoto|discriminate|discriminate]. }
  destruct (_is_captcha_page content).
  { unfold bind.
    pose proof (unseen_saved_perform page_close (fun _ => []) ltac:(reflexivity) w1)
      as Hclose.
    fold close in Hclose.
    destruct (close w1) as [[[]|e] w2]; cbn [snd] in Hclose; intros [= <- <-];
      (apply Hnothing; [rewrite Hclose; exact Hgoto| |]); try discriminate.
    intros img_url [= <-]. reflexivity. }
  unfold bind at 1.
  pose proof (unseen_saved_perform page_settle (fun _ => []) ltac:(reflexivity) w1)
    as Hsettle.
  fold settle in Hsettle.
  destruct (settle w1) as [[page|e] w2]; cbn [snd] in Hsettle.
  2:{ intros [= <- <-].
      apply Hnothing; [rewrite Hsettle; exact Hgoto|discriminate|discriminate]. }
  clear Hnothing. unfold bind at 1.
  destruct (get_img page (page_url page) painting_name w2) as [r w3] eqn:Himg.
  destruct (get_img_saved _ _ _ _ _ _ Himg) as (tail & Hsaved & Hform & Hsome & Hnone).
  destruct r as [[img_path img_url]|e].
  2:{ intros [= <- <-]. exists tail. rewrite Hsaved, Hsettle, Hgoto.
      split; [reflexivity|]. split; [exact Hform|]. split; discriminate. }
  unfold bind.
  pose proof (unseen_saved_perform page_close (fun _ => []) ltac:(reflexivity) w3)
    as Hclose.
  fold close in Hclose.
  destruct (close w3) as [[[]|e] w4]; cbn [fst snd] in *; intros [= <- <-];
    exists tail; rewrite Hclose, Hsaved, Hsettle, Hgoto;
    (split; [reflexivity|]); (split; [exact Hform|]); split; try discriminate.
  - intros path u [= -> ->]. apply Hsome. reflexivity.
  - intros u [= -> ->]. apply (Hnone u). reflexivity.
Qed.

(** What a visit saves: one file at most, named after the painting, and
    the file of the path it returns. *)
Lemma extract_main_image_from_page_saved (painting_name url : string) (w : World) :
  exists found w' tail,
    extract_main_image_from_page painting_name url w = (Ok found, w')
    /\ saved_paths (calls w') = saved_paths (calls w) ++ tail
    /\ (tail = [] \/ exists path, image_file_of painting_name path /\ tail = [path])
    /\ (forall path, fst found = Some path ->
          tail = [path] /\ exists img_url, snd found = Some img_url /\ img_url <> "")
    /\ (fst found = None -> snd found = None).
Proof.
  unfold extract_main_image_from_page. fold (page_body painting_name url).
  unfold bind at 1. unfold attempt at 1.
  pose proof (unseen_saved_perform browser_new_page (fun _ => []) ltac:(reflexivity) w)
    as Hnew.
  fold new_page in Hnew.
  destruct (new_page w) as [[[]|e] w1]; cbn [snd] in Hnew.
  2:{ exists (None, None), w1, []. rewrite app_nil_r. split; [reflexivity|].
      split; [exact Hnew|]. split; [left; reflexivity|].
      split; [discriminate|reflexivity]. }
  unfold bind at 1. unfold attempt at 1.
  destruct (page_body painting_name url w1) as [r w2] eqn:Hbody.
  destruct (page_body_run _ _ _ _ _ Hbody) as (tail & Hsaved & Hform & Hsome & Hnone).
  unfold bind. unfold attempt.
  pose proof (unseen_saved_perform page_close (fun _ => []) ltac:(reflexivity) w2)
    as Hclose.
  fold close in Hclose.
  destruct (close w2) as [c w3]; cbn [snd] in Hclose.
  assert (Hfile : tail = [] \/ exists path, image_file_of painting_name path /\ tail = [path]).
  { destruct Hform as [-> | (ext & Hext & ->)]; [left; reflexivity|right].
    eexists. split; [exists ext; split; [exact Hext|reflexivity]|reflexivity]. }
  destruct r as [[img_path img_url]|e].
  - exists (img_path, img_url), w3, tail. split; [reflexivity|].
    split; [rewrite Hclose, Hsaved, Hnew; reflexivity|]. split; [exact Hfile|].
    cbn [fst snd]. split.
    + intros path ->. exact (Hsome path img_url eq_refl).
    + intros ->. exact (Hnone img_url eq_refl).
  - exists (None, None), w3, tail. split; [reflexivity|].
    split; [rewrite Hclose, Hsaved, Hnew; reflexivity|]. split; [exact Hfile|].
    split; [discriminate|reflexivity].
Qed.


(** X5: a page that was created is closed: the last call of
    [extract_main_image_from_page] is the [page.close()] of its [finally]
    clause, whatever happened before it, a first [close] included. When no
    page could be created, nothing else is called. *)
Theorem extract_main_image_from_page_closes_the_page (painting_name url : string)
    (w : World) :
  let run := extract_main_image_from_page painting_name url w in
  match browser_new_page (env w) with
  | (Ok _, e1) => exists e, env (snd run) = snd (page_close e)
  | (Raise _, e1) =>
      fst run = Ok (None, None) /\ env (snd run) = e1 /\ calls (snd run) = calls w
  end.
Proof.
  cbn zeta. destruct (browser_new_page (env w)) as [[[]|e] e1] eqn:Hnew.
  - unfold extract_main_image_from_page.
    unfold bind at 1. unfold attempt at 1. unfold new_page, perform. rewrite Hnew.
    unfold bind at 1. unfold attempt at 1.
    match goal with
    | |- context [bind (goto url) ?k ?w1] => destruct (bind (goto url) k w1) as [r w2]
    end.
    unfold bind, attempt, close, perform.
    exists (env w2). destruct (page_close (env w2)) as [c e3]. destruct r; reflexivity.
  - unfold extract_main_image_from_page, bind, attempt, new_page, perform.
    rewrite Hnew. cbn [fst snd env calls ret]. rewrite app_nil_r. auto.
Qed.

(** X6: a page whose text names a captcha is left alone: the page is closed,
    [(None, None)] is returned, and the visit has made one call, the
    navigation; nothing is fetched and nothing is saved. The page is closed
    a second time in the [finally] clause. *)
Theorem captcha_page_is_left_alone (painting_name url content : string) (w : World)
    (e1 e2 : Env) :
  browser_new_page (env w) = (Ok tt, e1) ->
  page_goto url e1 = (Ok content, e2) ->
  _is_captcha_page content = true ->
  extract_main_image_from_page painting_name url w
  = (Ok (None, None),
     {| env := snd (page_close (snd (page_close e2))); calls := calls w ++ [Goto url] |}).
Proof.
  intros Hnew Hgoto Hcaptcha.
  unfold extract_main_image_from_page, bind, attempt, new_page, goto, close, perform.
  rewrite Hnew. cbn [env calls]. rewrite Hgoto, Hcaptcha. cbn [env calls].
  destruct (page_close e2) as [[[]|e] e3]; cbn [env calls fst snd ret];
    destruct (page_close e3) as [c e4]; cbn [fst snd ret];
    rewrite ?app_nil_r; reflexivity.
Qed.

End PageVisit.

Lemma captcha_page_is_left_alone_witness :
  let url := "https://example.org/blocked" in
  let site := {| Demo.pages := [(url, ("please solve the captcha",
                                      {| page_url := url; img_blocks := [] |}))];
                 Demo.files := [] |} in
  @extract_main_image_from_page (Demo.runtime site) "Mona Lisa" url (Demo.start site)
  = (Ok (None, None), {| env := url : @Env (Demo.runtime site); calls := [Goto url] |}).
Proof.
  intros url site.
  exact (captcha_page_is_left_alone (rt := Demo.runtime site) "Mona Lisa" url
           "please solve the captcha" (Demo.start site) _ _ eq_refl eq_refl eq_refl).
Defined.

(** ** The tiers, URL by URL *)

Section TierVisits.

Context `{rt : Runtime}.

Lemma wikipedia_loop_visits (painting_name : string) (urls : list string)
    (invalid_urls : gset string) (w : World) :
  exists img_path img_url invalid_urls' w' visited,
    wikipedia_loop painting_name urls invalid_urls w
    = (Ok (img_path, img_url, invalid_urls'), w')
    /\ navigations (calls w') = navigations (calls w) ++ visited
    /\ visited `sublist_of` List.filter (Py.contains "wikipedia") urls
    /\ (forall url, url ∈ invalid_urls' ->
          url ∈ invalid_urls \/ (In url urls /\ Py.contains "wikipedia" url = true))
    /\ (Py.truthy_opt img_path = false ->
        img_path = None /\ img_url = None
        /\ forall url, url ∈ invalid_urls
                       \/ (In url urls /\ Py.contains "wikipedia" url = true) ->
                       url ∈ invalid_urls').
Proof.
  revert invalid_urls w. induction urls as [|url urls IH]; intros invalid_urls w.
  - exists None, None, invalid_urls, w, []. rewrite app_nil_r.
    split; [reflexivity|]. split; [reflexivity|]. split; [constructor|].
    split; [auto|]. intros _. do 2 (split; [reflexivity|]).
    intros x [Hx | [[] _]]. exact Hx.
  - cbn [wikipedia_loop List.filter]. destruct (Py.contains "wikipedia" url) eqn:Hwiki.
    + unfold bind.
      destruct (extract_main_image_from_page_run painting_name url w)
        as ([img_path img_url] & w1 & -> & Hnav).
      assert (Hone : exists here, navigations (calls w1) = navigations (calls w) ++ here
                                  /\ here `sublist_of` [url]).
      { destruct Hnav as [Hnav | Hnav].
        - exists []. rewrite app_nil_r. split; [exact Hnav|apply sublist_nil_l].
        - exists [url]. split; [exact Hnav|reflexivity]. }
      destruct Hone as (here & Hhere & Hsub).
      destruct (Py.truthy_opt img_path) eqn:Hpath.
      * exists img_path, img_url, invalid_urls, w1, here.
        split; [reflexivity|]. split; [exact Hhere|].
        split; [rewrite <- (app_nil_r here);
                apply sublist_step; [exact Hsub|apply sublist_nil_l]|].
        split; [auto|congruence].
      * destruct (IH ({[url]} ∪ invalid_urls) w1)
          as (p & u & inv' & w' & visited & -> & Hvisited & Hlist & Hupper & Hlower).
        exists p, u, inv', w', (here ++ visited).
        split; [reflexivity|].
        split; [rewrite Hvisited, Hhere, app_assoc; reflexivity|].
        split; [apply sublist_step; assumption|]. split.
        -- intros x Hx. destruct (Hupper x Hx) as [Hold | [Hmem Hw]].
           ++ apply elem_of_union in Hold as [Hnew | Hold]; [|left; exact Hold].
              apply elem_of_singleton in Hnew as ->. right. simpl. auto.
           ++ right. simpl. auto.
        -- intros Hp. destruct (Hlower Hp) as (-> & -> & Hall).
           do 2 (split; [reflexivity|]). intros x [Hx | [[<- | Hmem] Hw]]; apply Hall.
           ++ left. apply elem_of_union_r, Hx.
           ++ left. apply elem_of_union_l, elem_of_singleton. reflexivity.
           ++ right. auto.
    + destruct (IH invalid_urls w)
        as (p & u & inv' & w' & visited & -> & Hvisited & Hlist & Hupper & Hlower).
      exists p, u, inv', w', visited. do 3 (split; [assumption || reflexivity|]). split.
      * intros x Hx. destruct (Hupper x Hx) as [Hold | [Hmem Hw]]; [left; exact Hold|].
        right. simpl. auto.
      * intros Hp. destruct (Hlower Hp) as (-> & -> & Hall).
        do 2 (split; [reflexivity|]). intros x [Hx | [[<- | Hmem] Hw]].
        -- apply Hall. auto.
        -- congruence.
        -- apply Hall. auto.
Qed.

(** One page visit, as a list of at most one navigation. *)
Lemma extract_main_image_from_page_visit (painting_name url : string) (w : World) :
  exists found w' here,
    extract_main_image_from_page painting_name url w = (Ok found, w')
    /\ navigations (calls w') = navigations (calls w) ++ here
    /\ here `sublist_of` [url].
Proof.
  destruct (extract_main_image_from_page_run painting_name url w)
    as (found & w1 & Hrun & [Hnav | Hnav]).
  - exists found, w1, []. rewrite app_nil_r. split; [exact Hrun|].
    split; [exact Hnav|apply sublist_nil_l].
  - exists found, w1, [url]. split; [exact Hrun|]. split; [exact Hnav|reflexivity].
Qed.

Lemma _try_museum_urls_visits (painting_name : string) (urls : list string)
    (invalid_urls : gset string) (w : World) :
  exists img_path img_url museum_location invalid_urls' w' visited,
    _try_museum_urls painting_name urls invalid_urls w
    = (Ok (img_path, img_url, museum_location, invalid_urls'), w')
    /\ navigations (calls w') = navigations (calls w) ++ visited
    /\ visited `sublist_of` urls
    /\ (forall url, In url visited -> (url ∉ invalid_urls) /\ museum_of url <> None)
    /\ (forall url, url ∈ invalid_urls' ->
          url ∈ invalid_urls \/ (In url urls /\ museum_of url <> None))
    /\ (Py.truthy_opt img_path = false ->
        img_path = None /\ img_url = None /\ museum_location = "Unknown location"
        /\ forall url, url ∈ invalid_urls \/ (In url urls /\ museum_of url <> None) ->
                       url ∈ invalid_urls').
Proof.
  revert invalid_urls w. induction urls as [|url urls IH]; intros invalid_urls w.
  - exists None, None, "Unknown location", invalid_urls, w, []. rewrite app_nil_r.
    split; [reflexivity|]. split; [reflexivity|]. split; [constructor|].
    split; [intros x []|]. split; [auto|]. intros _. do 3 (split; [reflexivity|]).
    intros x [Hx | [[] _]]. exact Hx.
  - cbn [_try_museum_urls].
    assert (Hskip : (url ∈ invalid_urls \/ museum_of url = None) ->
              exists img_path img_url museum_location invalid_urls' w' visited,
                _try_museum_urls painting_name urls invalid_urls w
                = (Ok (img_path, img_url, museum_location, invalid_urls'), w')
                /\ navigations (calls w') = navigations (calls w) ++ visited
                /\ visited `sublist_of` url :: urls
                /\ (forall x, In x visited -> (x ∉ invalid_urls) /\ museum_of x <> None)
                /\ (forall x, x ∈ invalid_urls' ->
                      x ∈ invalid_urls \/ (In x (url :: urls) /\ museum_of x <> None))
                /\ (Py.truthy_opt img_path = false ->
                    img_path = None /\ img_url = None
                    /\ museum_location = "Unknown location"
                    /\ forall x, x ∈ invalid_urls
                                 \/ (In x (url :: urls) /\ museum_of x <> None) ->
                                 x ∈ invalid_urls')).
    { intros Hwhy.
      destruct (IH invalid_urls w)
        as (p & u & loc & inv' & w' & visited & Hrun & Hnav & Hlist & Hfresh & Hupper & Hlower).
      exists p, u, loc, inv', w', visited. do 2 (split; [assumption|]).
      split; [apply sublist_cons, Hlist|]. split; [exact Hfresh|]. split.
      - intros x Hx. destruct (Hupper x Hx) as [Hold | [Hmem Hm]]; [left; exact Hold|].
        right. simpl. auto.
      - intros Hp. destruct (Hlower Hp) as (-> & -> & -> & Hall).
        do 3 (split; [reflexivity|]). intros x [Hx | [[<- | Hmem] Hm]].
        + apply Hall. auto.
        + destruct Hwhy as [Hin | Hnone]; [apply Hall; auto|contradiction].
        + apply Hall. auto. }
    destruct (decide (url ∈ invalid_urls)) as [Hin|Hnotin]; [apply Hskip; auto|].
    destruct (museum_of url) as [museum_name|] eqn:Hmuseum; [clear Hskip|apply Hskip; auto].
    unfold bind.
    destruct (extract_main_image_from_page_visit painting_name url w)
      as ([img_path img_url] & w1 & here & -> & Hhere & Hsub).
    assert (Hmine : forall x, In x here -> (x ∉ invalid_urls) /\ museum_of x <> None).
    { intros x Hx. rewrite (sublist_singleton_In _ _ _ Hsub Hx), Hmuseum.
      split; [exact Hnotin|discriminate]. }
    destruct (Py.truthy_opt img_path) eqn:Hpath.
    + exists img_path, img_url, museum_name, invalid_urls, w1, here.
      split; [reflexivity|]. split; [exact Hhere|].
      split; [rewrite <- (app_nil_r here); apply sublist_step; [exact Hsub|apply sublist_nil_l]|].
      split; [exact Hmine|]. split; [auto|congruence].
    + destruct (IH ({[url]} ∪ invalid_urls) w1)
        as (p & u & loc & inv' & w' & visited & -> & Hvisited & Hlist & Hfresh & Hupper
            & Hlower).
      exists p, u, loc, inv', w', (here ++ visited).
      split; [reflexivity|].
      split; [rewrite Hvisited, Hhere, app_assoc; reflexivity|].
      split; [apply sublist_step; assumption|]. split; [|split].
      * intros x Hx. apply in_app_or in Hx as [Hx | Hx]; [exact (Hmine x Hx)|].
        destruct (Hfresh x Hx) as [Hnew Hm]. split; [|exact Hm].
        intros Hold. apply Hnew, elem_of_union_r, Hold.
      * intros x Hx. destruct (Hupper x Hx) as [Hold | [Hmem Hm]].
        -- apply elem_of_union in Hold as [Hnew | Hold]; [|left; exact Hold].
           apply elem_of_singleton in Hnew as ->. right. rewrite Hmuseum. simpl.
           split; [auto|discriminate].
        -- right. simpl. auto.
      * intros Hp. destruct (Hlower Hp) as (-> & -> & -> & Hall).
        do 3 (split; [reflexivity|]). intros x [Hx | [[<- | Hmem] Hm]]; apply Hall.
        -- left. apply elem_of_union_r, Hx.
        -- left. apply elem_of_union_l, elem_of_singleton. reflexivity.
        -- right. auto.
Qed.

Lemma _try_remaining_urls_visits (painting_name : string) (urls : list string)
    (invalid_urls : gset string) (w : World) :
  exists img_path img_url w' visited,
    _try_remaining_urls painting_name urls invalid_urls w = (Ok (img_path, img_url), w')
    /\ navigations (calls w') = navigations (calls w) ++ visited
    /\ visited `sublist_of` urls
    /\ (forall url, In url visited -> url ∉ invalid_urls).
Proof.
  revert w. induction urls as [|url urls IH]; intros w.
  - exists None, None, w, []. rewrite app_nil_r.
    split; [reflexivity|]. split; [reflexivity|]. split; [constructor|]. intros x [].
  - cbn [_try_remaining_urls]. destruct (decide (url ∈ invalid_urls)) as [Hin|Hnotin].
    { destruct (IH w) as (p & u & w' & visited & Hrun & Hnav & Hlist & Hfresh).
      exists p, u, w', visited. do 2 (split; [assumption|]).
      split; [apply sublist_cons, Hlist|exact Hfresh]. }
    unfold bind.
    destruct (extract_main_image_from_page_visit painting_name url w)
      as ([img_path img_url] & w1 & here & -> & Hhere & Hsub).
    assert (Hmine : forall x, In x here -> x ∉ invalid_urls).
    { intros x Hx. rewrite (sublist_singleton_In _ _ _ Hsub Hx). exact Hnotin. }
    destruct (Py.truthy_opt img_path).
    + exists img_path, img_url, w1, here.
      split; [reflexivity|]. split; [exact Hhere|].
      split; [rewrite <- (app_nil_r here); apply sublist_step; [exact Hsub|apply sublist_nil_l]|].
      exact Hmine.
    + destruct (IH w1) as (p & u & w' & visited & -> & Hvisited & Hlist & Hfresh).
      exists p, u, w', (here ++ visited). split; [reflexivity|].
      split; [rewrite Hvisited, Hhere, app_assoc; reflexivity|].
      split; [apply sublist_step; assumption|].
      intros x Hx. apply in_app_or in Hx as [Hx | Hx]; [exact (Hmine x Hx)|exact (Hfresh x Hx)].
Qed.

(** X7: the tier of the encyclopedia opens only URLs that contain
    ["wikipedia"], in the order of the list. The set it returns holds only
    such URLs of the list, and when the tier found nothing it holds all of
    them: every one of them was tried and failed. *)
Theorem _try_wikipedia_urls_marks_every_failure (painting_name : string)
    (urls : list string) (w : World) :
  exists img_path img_url invalid_urls w' visited,
    _try_wikipedia_urls painting_name urls w = (Ok (img_path, img_url, invalid_urls), w')
    /\ navigations (calls w') = navigations (calls w) ++ visited
    /\ visited `sublist_of` List.filter (Py.contains "wikipedia") urls
    /\ (forall url, url ∈ invalid_urls ->
          In url urls /\ Py.contains "wikipedia" url = true)
    /\ (Py.truthy_opt img_path = false ->
        img_path = None /\ img_url = None
        /\ forall url, url ∈ invalid_urls <->
                       In url urls /\ Py.contains "wikipedia" url = true).
Proof.
  destruct (wikipedia_loop_visits painting_name urls ∅ w)
    as (p & u & inv & w' & visited & Hrun & Hnav & Hlist & Hupper & Hlower).
  exists p, u, inv, w', visited. do 3 (split; [assumption|]).
  assert (Hin : forall url, url ∈ inv -> In url urls /\ Py.contains "wikipedia" url = true).
  { intros url Hurl. destruct (Hupper url Hurl) as [Hempty | Hmem]; [|exact Hmem].
    apply elem_of_empty in Hempty. destruct Hempty. }
  split; [exact Hin|]. intros Hp. destruct (Hlower Hp) as (-> & -> & Hall).
  do 2 (split; [reflexivity|]). intros url. split; [apply Hin|]. intros Hmem.
  apply Hall. right. exact Hmem.
Qed.

(** X8: the tier of the known museums opens, in the order of the list, only
    URLs that match the museum table and are not in the set of invalid URLs.
    When it finds an image, its label is the museum of a URL of the list
    that was not invalid. When it finds nothing, it returns the label
    ["Unknown location"], and the set then holds, beside what it held, every
    URL of the list that matches the table. *)
Theorem _try_museum_urls_skips_and_labels (painting_name : string) (urls : list string)
    (invalid_urls : gset string) (w : World) :
  exists img_path img_url museum_location invalid_urls' w' visited,
    _try_museum_urls painting_name urls invalid_urls w
    = (Ok (img_path, img_url, museum_location, invalid_urls'), w')
    /\ navigations (calls w') = navigations (calls w) ++ visited
    /\ visited `sublist_of` urls
    /\ (forall url, In url visited -> (url ∉ invalid_urls) /\ museum_of url <> None)
    /\ (Py.truthy_opt img_path = true ->
        exists url, In url urls /\ (url ∉ invalid_urls)
                    /\ museum_of url = Some museum_location)
    /\ (Py.truthy_opt img_path = false ->
        img_path = None /\ img_url = None /\ museum_location = "Unknown location"
        /\ forall url, url ∈ invalid_urls' <->
                       url ∈ invalid_urls \/ (In url urls /\ museum_of url <> None)).
Proof.
  destruct (_try_museum_urls_visits painting_name urls invalid_urls w)
    as (p & u & loc & inv' & w' & visited & Hrun & Hnav & Hlist & Hfresh & Hupper & Hlower).
  exists p, u, loc, inv', w', visited. do 4 (split; [assumption|]). split.
  - destruct (_try_museum_urls_run painting_name urls invalid_urls w)
      as (p0 & u0 & loc0 & inv0 & w0 & visited0 & Hrun0 & _ & _ & _ & Hloc).
    rewrite Hrun in Hrun0. injection Hrun0 as <- <- <- <- <-. exact Hloc.
  - intros Hp. destruct (Hlower Hp) as (-> & -> & -> & Hall).
    do 3 (split; [reflexivity|]). intros url. split; [apply Hupper|apply Hall].
Qed.

End TierVisits.

(** ** One painting, again *)

Section DispatcherFrame.

Context `{rt : Runtime}.

(** The world [record_success] leaves is the one it starts in. *)
Lemma record_success_world (painting_name urls0 : string) (img_path : option string)
    (label : string) (img_url : option string) (cur_batch_names_to_imgs : gmap string string)
    (cur_batch_results : gmap string BatchResult) (w : World) :
  snd (record_success painting_name urls0 img_path label img_url
         cur_batch_names_to_imgs cur_batch_results w) = w.
Proof.
  unfold record_success, bind, getitem.
  destruct (cur_batch_names_to_imgs !! painting_name); reflexivity.
Qed.

(** What [record_success] returns, with or without the plaque text. *)
Lemma record_success_result (painting_name urls0 : string) (img_path : option string)
    (label : string) (img_url : option string) (cur_batch_names_to_imgs : gmap string string)
    (cur_batch_results : gmap string BatchResult) (w : World) :
  match cur_batch_names_to_imgs !! painting_name with
  | Some text =>
      exists record,
        fst (record_success painting_name urls0 img_path label img_url
               cur_batch_names_to_imgs cur_batch_results w)
        = Ok (<[painting_name := record]> cur_batch_results)
        /\ plaque_text record = text
  | None =>
      fst (record_success painting_name urls0 img_path label img_url
             cur_batch_names_to_imgs cur_batch_results w) = Raise KeyError
  end.
Proof.
  unfold record_success, bind, getitem.
  destruct (cur_batch_names_to_imgs !! painting_name); [|reflexivity].
  eexists. split; reflexivity.
Qed.

Lemma process_a_painting_result (painting_name : string) (urls : Urls)
    (cur_batch_names_to_imgs : gmap string string)
    (cur_batch_results : gmap string BatchResult) (w : World) :
  match cur_batch_names_to_imgs !! painting_name with
  | Some text =>
      exists record,
        fst (process_a_painting painting_name urls cur_batch_names_to_imgs
               cur_batch_results w)
        = Ok (<[painting_name := record]> cur_batch_results)
        /\ plaque_text record = text
  | None =>
      fst (process_a_painting painting_name urls cur_batch_names_to_imgs
             cur_batch_results w) = Raise KeyError
  end.
Proof.
  assert (Hnone : match cur_batch_names_to_imgs !! painting_name with
                  | Some text =>
                      exists record,
                        fst (bind (getitem cur_batch_names_to_imgs painting_name)
                               (fun text =>
                                  ret (<[painting_name := no_urls_record text]>
                                       cur_batch_results)) w)
                        = Ok (<[painting_name := record]> cur_batch_results)
                        /\ plaque_text record = text
                  | None =>
                      fst (bind (getitem cur_batch_names_to_imgs painting_name)
                             (fun text =>
                                ret (<[painting_name := no_urls_record text]>
                                     cur_batch_results)) w) = Raise KeyError
                  end).
  { unfold bind, getitem. destruct (cur_batch_names_to_imgs !! painting_name);
      [|reflexivity]. eexists. split; reflexivity. }
  destruct urls as [[|urls0 rest]|message]; [exact Hnone| |exact Hnone]. clear Hnone.
  rewrite process_a_painting_tiers. cbn zeta.
  destruct (wikipedia_loop_run painting_name (urls0 :: rest) ∅ w)
    as (p1 & u1 & inv1 & w1 & visited1 & Hwiki & _ & _).
  unfold _try_wikipedia_urls. rewrite Hwiki.
  destruct (Py.truthy_opt p1); [apply record_success_result|].
  destruct (_try_museum_urls_run painting_name (urls0 :: rest) inv1 w1)
    as (p2 & u2 & loc & inv2 & w2 & visited2 & Hmuseum & _).
  rewrite Hmuseum. destruct (Py.truthy_opt p2); [apply record_success_result|].
  destruct (_try_remaining_urls_run painting_name (urls0 :: rest) inv2 w2)
    as (p3 & u3 & w3 & visited3 & Hremaining & _).
  rewrite Hremaining. destruct (Py.truthy_opt p3); [apply record_success_result|].
  destruct (cur_batch_names_to_imgs !! painting_name); [|reflexivity].
  eexists. split; reflexivity.
Qed.

(** X9: a run of [process_a_painting] that returns has set the entry of its
    own painting, with the plaque text of that painting, and has left every
    other entry of [cur_batch_results] as it was. A run that does not return
    has raised [KeyError]: the painting has no plaque text. *)
Theorem process_a_painting_sets_one_entry (painting_name : string) (urls : Urls)
    (cur_batch_names_to_imgs : gmap string string)
    (cur_batch_results : gmap string BatchResult) (w : World) :
  match fst (process_a_painting painting_name urls cur_batch_names_to_imgs
               cur_batch_results w) with
  | Ok results' =>
      (exists record,
         results' !! painting_name = Some record
         /\ cur_batch_names_to_imgs !! painting_name = Some (plaque_text record))
      /\ (forall other, other <> painting_name ->
            results' !! other = cur_batch_results !! other)
  | Raise e => e = KeyError /\ cur_batch_names_to_imgs !! painting_name = None
  end.
Proof.
  pose proof (process_a_painting_result painting_name urls cur_batch_names_to_imgs
                cur_batch_results w) as Hrun.
  destruct (cur_batch_names_to_imgs !! painting_name) as [text|].
  - destruct Hrun as (record & -> & <-). split.
    + exists record. split; [apply lookup_insert_eq|reflexivity].
    + intros other Hother. apply lookup_insert_ne. congruence.
  - rewrite Hrun. auto.
Qed.

(** X10: the plaque text is read last: the calls [process_a_painting] makes,
    and the world it leaves, do not depend on the two tables. A painting
    without plaque text has its pages opened and its image saved all the
    same, before [KeyError] is raised. *)
Theorem process_a_painting_reads_plaque_text_last (painting_name : string) (urls : Urls)
    (names names' : gmap string string) (results results' : gmap string BatchResult)
    (w : World) :
  snd (process_a_painting painting_name urls names results w)
  = snd (process_a_painting painting_name urls names' results' w).
Proof.
  assert (Hnone : forall (names : gmap string string) (results : gmap string BatchResult),
            snd (bind (getitem names painting_name)
                   (fun text => ret (<[painting_name := no_urls_record text]> results)) w)
            = w).
  { intros n r. unfold bind, getitem. destruct (n !! painting_name); reflexivity. }
  destruct urls as [[|urls0 rest]|message].
  - etrans; [apply Hnone|symmetry; apply Hnone].
  - rewrite !process_a_painting_tiers. cbn zeta.
    destruct (_try_wikipedia_urls painting_name (urls0 :: rest) w)
      as [[[[p1 u1] inv1]|e] w1]; [|reflexivity].
    destruct (Py.truthy_opt p1); [rewrite !record_success_world; reflexivity|].
    destruct (_try_museum_urls painting_name (urls0 :: rest) inv1 w1)
      as [[[[[p2 u2] loc] inv2]|e] w2]; [|reflexivity].
    destruct (Py.truthy_opt p2); [rewrite !record_success_world; reflexivity|].
    destruct (_try_remaining_urls painting_name (urls0 :: rest) inv2 w2)
      as [[[p3 u3]|e] w3]; [|reflexivity].
    destruct (Py.truthy_opt p3); [rewrite !record_success_world; reflexivity|].
    destruct (names !! painting_name), (names' !! painting_name); reflexivity.
  - etrans; [apply Hnone|symmetry; apply Hnone].
Qed.

(** X11: [process_a_painting] opens only URLs of its list, tier by tier and
    within a tier in the order of the list: first URLs that contain
    ["wikipedia"], then URLs that match the museum table, then any URL. When
    the list names no URL twice it opens no URL twice: a URL that failed in
    a tier is in the set of invalid URLs of the tiers after it. *)
Theorem each_url_opened_at_most_once (painting_name : string) (urls : list string)
    (cur_batch_names_to_imgs : gmap string string)
    (cur_batch_results : gmap string BatchResult) (w : World) :
  exists visited1 visited2 visited3,
    navigations (calls (snd (process_a_painting painting_name (UrlList urls)
                               cur_batch_names_to_imgs cur_batch_results w)))
    = navigations (calls w) ++ visited1 ++ visited2 ++ visited3
    /\ visited1 `sublist_of` List.filter (Py.contains "wikipedia") urls
    /\ visited2 `sublist_of` urls
    /\ (forall url, In url visited2 -> museum_of url <> None)
    /\ visited3 `sublist_of` urls
    /\ (NoDup urls -> NoDup (visited1 ++ visited2 ++ visited3)).
Proof.
  destruct urls as [|urls0 rest].
  { exists [], [], []. rewrite app_nil_r.
    split; [|repeat split; try constructor; intros x []].
    unfold process_a_painting, bind, getitem.
    destruct (cur_batch_names_to_imgs !! painting_name); reflexivity. }
  set (urls := urls0 :: rest).
  destruct (wikipedia_loop_visits painting_name urls ∅ w)
    as (p1 & u1 & inv1 & w1 & visited1 & Hwiki & Hnav1 & Hlist1 & _ & Hlower1).
  destruct (_try_museum_urls_visits painting_name urls inv1 w1)
    as (p2 & u2 & loc & inv2 & w2 & visited2 & Hmuseum & Hnav2 & Hlist2 & Hfresh2 & _
        & Hlower2).
  destruct (_try_remaining_urls_visits painting_name urls inv2 w2)
    as (p3 & u3 & w3 & visited3 & Hremaining & Hnav3 & Hlist3 & Hfresh3).
  assert (Hsub1 : visited1 `sublist_of` urls)
    by (etrans; [exact Hlist1|apply filter_sublist]).
  assert (Hwiki1 : Py.truthy_opt p1 = false -> forall x, In x visited1 -> x ∈ inv1).
  { intros Hp1 x Hx. destruct (Hlower1 Hp1) as (_ & _ & Hall). apply Hall. right.
    apply (sublist_In _ _ _ Hlist1) in Hx. apply filter_In in Hx. exact Hx. }
  assert (Hmuseum2 : Py.truthy_opt p2 = false ->
            forall x, (x ∈ inv1 \/ In x visited2) -> x ∈ inv2).
  { intros Hp2 x Hx. destruct (Hlower2 Hp2) as (_ & _ & _ & Hall). apply Hall.
    destruct Hx as [Hx | Hx]; [left; exact Hx|right].
    split; [exact (sublist_In _ _ _ Hlist2 Hx)|apply (Hfresh2 x Hx)]. }
  unfold urls in *. rewrite process_a_painting_tiers. cbn zeta.
  unfold _try_wikipedia_urls. rewrite Hwiki.
  destruct (Py.truthy_opt p1) eqn:Hp1.
  { exists visited1, [], []. rewrite record_success_world, !app_nil_r.
    split; [exact Hnav1|]. split; [exact Hlist1|]. split; [apply sublist_nil_l|].
    split; [intros x []|]. split; [apply sublist_nil_l|].
    intros Hdup. exact (sublist_NoDup _ _ Hdup Hsub1). }
  rewrite Hmuseum. destruct (Py.truthy_opt p2) eqn:Hp2.
  { exists visited1, visited2, []. rewrite record_success_world, !app_nil_r.
    split; [rewrite Hnav2, Hnav1, app_assoc; reflexivity|]. split; [exact Hlist1|].
    split; [exact Hlist2|]. split; [intros x Hx; apply (Hfresh2 x Hx)|].
    split; [apply sublist_nil_l|].
    intros Hdup. apply NoDup_app.
    split; [exact (sublist_NoDup _ _ Hdup Hsub1)|].
    split; [|exact (sublist_NoDup _ _ Hdup Hlist2)].
    intros x Hx1 Hx2. apply list_elem_of_In in Hx1, Hx2.
    exact (proj1 (Hfresh2 x Hx2) (Hwiki1 eq_refl x Hx1)). }
  rewrite Hremaining.
  exists visited1, visited2, visited3.
  assert (Hall : navigations (calls w3)
                 = navigations (calls w) ++ visited1 ++ visited2 ++ visited3)
    by (rewrite Hnav3, Hnav2, Hnav1, !app_assoc; reflexivity).
  split.
  { destruct (Py.truthy_opt p3); [rewrite record_success_world; exact Hall|].
    destruct (cur_batch_names_to_imgs !! painting_name); exact Hall. }
  split; [exact Hlist1|]. split; [exact Hlist2|].
  split; [intros x Hx; apply (Hfresh2 x Hx)|]. split; [exact Hlist3|].
  intros Hdup. apply NoDup_app.
  split; [exact (sublist_NoDup _ _ Hdup Hsub1)|]. split.
  - intros x Hx1 Hx. apply list_elem_of_In in Hx1. apply list_elem_of_In in Hx.
    apply in_app_or in Hx as [Hx2 | Hx3].
    + exact (proj1 (Hfresh2 x Hx2) (Hwiki1 eq_refl x Hx1)).
    + apply (Hfresh3 x Hx3), (Hmuseum2 eq_refl). left. exact (Hwiki1 eq_refl x Hx1).
  - apply NoDup_app. split; [exact (sublist_NoDup _ _ Hdup Hlist2)|].
    split; [|exact (sublist_NoDup _ _ Hdup Hlist3)].
    intros x Hx2 Hx3. apply list_elem_of_In in Hx2, Hx3.
    apply (Hfresh3 x Hx3), (Hmuseum2 eq_refl). right. exact Hx2.
Qed.
End DispatcherFrame.

(** ** The files of a painting *)

Section Files.

Context `{rt : Runtime}.

(** One visit, as one turn of a tier: the files it adds to those of the
    turns before it. *)
Lemma visit_saved (painting_name url : string) (w : World) :
  exists found w' tail,
    extract_main_image_from_page painting_name url w = (Ok found, w')
    /\ saved_paths (calls w') = saved_paths (calls w) ++ tail
    /\ Forall (image_file_of painting_name) tail
    /\ (forall path, fst found = Some path -> exists earlier, tail = earlier ++ [path]).
Proof.
  destruct (extract_main_image_from_page_saved painting_name url w)
    as (found & w' & tail & Hrun & Hsaved & Hform & Hsome & _).
  exists found, w', tail. do 2 (split; [assumption|]). split.
  - destruct Hform as [-> | (path & Hfile & ->)]; repeat constructor. exact Hfile.
  - intros path Hpath. exists []. exact (proj1 (Hsome path Hpath)).
Qed.

(** A tier that goes on after a visit: the files of both. *)
Lemma saved_paths_then (w w1 w' : World) (tail later : list string) (painting_name : string) :
  saved_paths (calls w1) = saved_paths (calls w) ++ tail ->
  saved_paths (calls w') = saved_paths (calls w1) ++ later ->
  Forall (image_file_of painting_name) tail ->
  Forall (image_file_of painting_name) later ->
  saved_paths (calls w') = saved_paths (calls w) ++ (tail ++ later)
  /\ Forall (image_file_of painting_name) (tail ++ later).
Proof.
  intros Htail Hlater Hfiles Hfiles'. split.
  - rewrite Hlater, Htail, app_assoc. reflexivity.
  - apply Forall_app. auto.
Qed.

Lemma wikipedia_loop_saved (painting_name : string) (urls : list string)
    (invalid_urls : gset string) (w : World) :
  exists img_path img_url invalid_urls' w' tail,
    wikipedia_loop painting_name urls invalid_urls w
    = (Ok (img_path, img_url, invalid_urls'), w')
    /\ saved_paths (calls w') = saved_paths (calls w) ++ tail
    /\ Forall (image_file_of painting_name) tail
    /\ (forall path, img_path = Some path -> exists earlier, tail = earlier ++ [path]).
Proof.
  revert invalid_urls w. induction urls as [|url urls IH]; intros invalid_urls w.
  - exists None, None, invalid_urls, w, []. rewrite app_nil_r.
    split; [reflexivity|]. split; [reflexivity|]. split; [constructor|discriminate].
  - cbn [wikipedia_loop]. destruct (Py.contains "wikipedia" url); [|apply IH].
    unfold bind.
    destruct (visit_saved painting_name url w)
      as ([img_path img_url] & w1 & tail & -> & Hsaved & Hfiles & Hlast).
    destruct (Py.truthy_opt img_path).
    + exists img_path, img_url, invalid_urls, w1, tail. auto.
    + destruct (IH ({[url]} ∪ invalid_urls) w1)
        as (p & u & inv' & w' & later & -> & Hlater & Hfiles' & Hlast').
      exists p, u, inv', w', (tail ++ later). split; [reflexivity|].
      destruct (saved_paths_then _ _ _ _ _ _ Hsaved Hlater Hfiles Hfiles') as [Hall Hnamed].
      do 2 (split; [assumption|]). intros path Hp.
      destruct (Hlast' path Hp) as (earlier & ->). exists (tail ++ earlier).
      rewrite app_assoc. reflexivity.
Qed.

Lemma _try_museum_urls_saved (painting_name : string) (urls : list string)
    (invalid_urls : gset string) (w : World) :
  exists img_path img_url museum_location invalid_urls' w' tail,
    _try_museum_urls painting_name urls invalid_urls w
    = (Ok (img_path, img_url, museum_location, invalid_urls'), w')
    /\ saved_paths (calls w') = saved_paths (calls w) ++ tail
    /\ Forall (image_file_of painting_name) tail
    /\ (forall path, img_path = Some path -> exists earlier, tail = earlier ++ [path]).
Proof.
  revert invalid_urls w. induction urls as [|url urls IH]; intros invalid_urls w.
  - exists None, None, "Unknown location", invalid_urls, w, []. rewrite app_nil_r.
    split; [reflexivity|]. split; [reflexivity|]. split; [constructor|discriminate].
  - cbn [_try_museum_urls]. destruct (decide (url ∈ invalid_urls)); [apply IH|].
    destruct (museum_of url) as [museum_name|]; [|apply IH].
    unfold bind.
    destruct (visit_saved painting_name url w)
      as ([img_path img_url] & w1 & tail & -> & Hsaved & Hfiles & Hlast).
    destruct (Py.truthy_opt img_path).
    + exists img_path, img_url, museum_name, invalid_urls, w1, tail. auto.
    + destruct (IH ({[url]} ∪ invalid_urls) w1)
        as (p & u & loc & inv' & w' & later & -> & Hlater & Hfiles' & Hlast').
      exists p, u, loc, inv', w', (tail ++ later). split; [reflexivity|].
      destruct (saved_paths_then _ _ _ _ _ _ Hsaved Hlater Hfiles Hfiles') as [Hall Hnamed].
      do 2 (split; [assumption|]). intros path Hp.
      destruct (Hlast' path Hp) as (earlier & ->). exists (tail ++ earlier).
      rewrite app_assoc. reflexivity.
Qed.

Lemma _try_remaining_urls_saved (painting_name : string) (urls : list string)
    (invalid_urls : gset string) (w : World) :
  exists img_path img_url w' tail,
    _try_remaining_urls painting_name urls invalid_urls w = (Ok (img_path, img_url), w')
    /\ saved_paths (calls w') = saved_paths (calls w) ++ tail
    /\ Forall (image_file_of painting_name) tail
    /\ (forall path, img_path = Some path -> exists earlier, tail = earlier ++ [path]).
Proof.
  revert w. induction urls as [|url urls IH]; intros w.
  - exists None, None, w, []. rewrite app_nil_r.
    split; [reflexivity|]. split; [reflexivity|]. split; [constructor|discriminate].
  - cbn [_try_remaining_urls]. destruct (decide (url ∈ invalid_urls)); [apply IH|].
    unfold bind.
    destruct (visit_saved painting_name url w)
      as ([img_path img_url] & w1 & tail & -> & Hsaved & Hfiles & Hlast).
    destruct (Py.truthy_opt img_path).
    + exists img_path, img_url, w1, tail. auto.
    + destruct (IH w1) as (p & u & w' & later & -> & Hlater & Hfiles' & Hlast').
      exists p, u, w', (tail ++ later). split; [reflexivity|].
      destruct (saved_paths_then _ _ _ _ _ _ Hsaved Hlater Hfiles Hfiles') as [Hall Hnamed].
      do 2 (split; [assumption|]). intros path Hp.
      destruct (Hlast' path Hp) as (earlier & ->). exists (tail ++ earlier).
      rewrite app_assoc. reflexivity.
Qed.

(** What [record_success] records for a path that is not empty. *)
Lemma record_success_path (painting_name urls0 : string) (img_path : option string)
    (label : string) (img_url : option string) (cur_batch_names_to_imgs : gmap string string)
    (cur_batch_results results' : gmap string BatchResult) (w : World)
    (record : BatchResult) (path : string) :
  fst (record_success painting_name urls0 img_path label img_url
         cur_batch_names_to_imgs cur_batch_results w) = Ok results' ->
  results' !! painting_name = Some record ->
  image_path record = PathStr path ->
  Py.truthy_opt img_path = true ->
  img_path = Some path.
Proof.
  unfold record_success, bind, getitem.
  destruct (cur_batch_names_to_imgs !! painting_name) as [text|]; [|discriminate].
  intros [= <-]. rewrite lookup_insert_eq. intros [= <-]. cbn [image_path].
  intros [= <-] Htruthy. destruct img_path; [reflexivity|discriminate].
Qed.

(** X12: the files [process_a_painting] writes are images named after its
    painting, in [EXTRACTED_IMAGES_DIR]: it writes nowhere else. The path of
    a record it returns is that of the last file it wrote; the files written
    before it, by visits that saved an image and then failed, stay on the
    disk. *)
Theorem process_a_painting_writes_only_its_image (painting_name : string) (urls : Urls)
    (cur_batch_names_to_imgs : gmap string string)
    (cur_batch_results : gmap string BatchResult) (w : World) :
  let run := process_a_painting painting_name urls cur_batch_names_to_imgs
               cur_batch_results w in
  exists tail,
    saved_paths (calls (snd run)) = saved_paths (calls w) ++ tail
    /\ Forall (image_file_of painting_name) tail
    /\ (forall results' record path,
          fst run = Ok results' ->
          results' !! painting_name = Some record ->
          image_path record = PathStr path ->
          exists earlier, tail = earlier ++ [path]).
Proof.
  cbn zeta.
  assert (Hnone : exists tail,
            saved_paths
              (calls (snd (bind (getitem cur_batch_names_to_imgs painting_name)
                             (fun text =>
                                ret (<[painting_name := no_urls_record text]>
                                     cur_batch_results)) w)))
            = saved_paths (calls w) ++ tail
            /\ Forall (image_file_of painting_name) tail
            /\ (forall results' record path,
                  fst (bind (getitem cur_batch_names_to_imgs painting_name)
                         (fun text =>
                            ret (<[painting_name := no_urls_record text]>
                                 cur_batch_results)) w) = Ok results' ->
                  results' !! painting_name = Some record ->
                  image_path record = PathStr path ->
                  exists earlier, tail = earlier ++ [path])).
  { exists []. rewrite app_nil_r. unfold bind, getitem.
    destruct (cur_batch_names_to_imgs !! painting_name) as [text|];
      (split; [reflexivity|]); (split; [constructor|]); [|discriminate].
    intros results' record path [= <-]. rewrite lookup_insert_eq. intros [= <-].
    discriminate. }
  destruct urls as [[|urls0 rest]|message]; [exact Hnone| |exact Hnone]. clear Hnone.
  rewrite process_a_painting_tiers. cbn zeta. unfold _try_wikipedia_urls.
  destruct (wikipedia_loop_saved painting_name (urls0 :: rest) ∅ w)
    as (p1 & u1 & inv1 & w1 & tail1 & -> & Hsaved1 & Hfiles1 & Hlast1).
  destruct (Py.truthy_opt p1) eqn:Hp1.
  { exists tail1. rewrite record_success_world. do 2 (split; [assumption|]).
    intros results' record path Hrun Hrecord Hpath.
    apply Hlast1. exact (record_success_path _ _ _ _ _ _ _ _ _ _ _ Hrun Hrecord Hpath Hp1). }
  destruct (_try_museum_urls_saved painting_name (urls0 :: rest) inv1 w1)
    as (p2 & u2 & loc & inv2 & w2 & tail2 & -> & Hsaved2 & Hfiles2 & Hlast2).
  destruct (saved_paths_then _ _ _ _ _ _ Hsaved1 Hsaved2 Hfiles1 Hfiles2) as [Hall2 Hnamed2].
  destruct (Py.truthy_opt p2) eqn:Hp2.
  { exists (tail1 ++ tail2). rewrite record_success_world. do 2 (split; [assumption|]).
    intros results' record path Hrun Hrecord Hpath.
    destruct (Hlast2 path (record_success_path _ _ _ _ _ _ _ _ _ _ _ Hrun Hrecord Hpath Hp2))
      as (earlier & ->).
    exists (tail1 ++ earlier). rewrite app_assoc. reflexivity. }
  destruct (_try_remaining_urls_saved painting_name (urls0 :: rest) inv2 w2)
    as (p3 & u3 & w3 & tail3 & -> & Hsaved3 & Hfiles3 & Hlast3).
  destruct (saved_paths_then _ _ _ _ _ _ Hall2 Hsaved3 Hnamed2 Hfiles3) as [Hall3 Hnamed3].
  exists ((tail1 ++ tail2) ++ tail3).
  destruct (Py.truthy_opt p3) eqn:Hp3.
  { rewrite record_success_world. do 2 (split; [assumption|]).
    intros results' record path Hrun Hrecord Hpath.
    destruct (Hlast3 path (record_success_path _ _ _ _ _ _ _ _ _ _ _ Hrun Hrecord Hpath Hp3))
      as (earlier & ->).
    exists ((tail1 ++ tail2) ++ earlier). rewrite app_assoc. reflexivity. }
  destruct (cur_batch_names_to_imgs !! painting_name) as [text|];
    (do 2 (split; [assumption|])); [|discriminate].
  intros results' record path [= <-]. rewrite lookup_insert_eq. intros [= <-].
  discriminate.
Qed.

End Files.

(** ** The image of a record *)

Section ProvenanceFacts.

Context `{rt : Runtime}.

Lemma download_result_bytes (absolute_url : string) (outcome : Result Response)
    (r : ImageData) :
  download_result absolute_url outcome = Ok r ->
  Py.truthy_bytes (fst (fst r)) = true ->
  exists response content ext,
    outcome = Ok response
    /\ r = (Some content, Some absolute_url, Some ext)
    /\ status response = 200
    /\ Py.startswith "image/" (content_type_or_empty response) = true
    /\ read response = Ok content
    /\ content <> [].
Proof.
  unfold download_result. destruct outcome as [response|e].
  2:{ destruct e; intros [= <-]; discriminate. }
  destruct (Z.eqb_spec (status response) 200) as [Hstatus|]; cbn [andb].
  2:{ intros [= <-]; discriminate. }
  destruct (Py.startswith "image/" (content_type_or_empty response)) eqn:Htype.
  2:{ intros [= <-]; discriminate. }
  destruct (read response) as [content|e] eqn:Hread.
  2:{ destruct e; intros [= <-]; discriminate. }
  intros [= <-] Hbytes. eexists response, content, _.
  split; [reflexivity|]. split; [reflexivity|].
  do 3 (split; [assumption|]). destruct content; discriminate.
Qed.

(** A walk that found an image ended with the fetch that gave it. *)
Lemma attempts_found_last (base_url : string) (urls : list string) (log : list Call)
    (res : Result (option ImageData)) :
  Attempts base_url urls log res ->
  forall r, res = Ok (Some r) ->
  exists absolute_url content ext,
    r = (Some content, Some absolute_url, Some ext)
    /\ fetched_image log absolute_url content.
Proof.
  induction 1 as [|url urls outcome r Hres Hbytes|url urls outcome e _
                  |url urls outcome r log res _ _ _ IH]; intros r0 Hr0;
    try discriminate.
  - injection Hr0 as <-.
    destruct (download_result_bytes _ _ _ Hres Hbytes)
      as (response & content & ext & -> & -> & Hstatus & Htype & Hread & Hcontent).
    exists (urljoin base_url url), content, ext. split; [reflexivity|].
    exists [], base_url, response. auto.
  - destruct (IH r0 Hr0) as (absolute_url & content & ext & -> & earlier & referer
                             & response & -> & Hrest).
    exists absolute_url, content, ext. split; [reflexivity|].
    exists (HttpGet (urljoin base_url url) base_url outcome :: earlier), referer, response.
    auto.
Qed.

Lemma fetched_image_app (before log : list Call) (absolute_url : string) (content : bytes) :
  fetched_image log absolute_url content ->
  fetched_image (before ++ log) absolute_url content.
Proof.
  intros (earlier & referer & response & -> & Hrest).
  exists (before ++ earlier), referer, response. rewrite <- app_assoc. auto.
Qed.

Lemma extract_best_image_from_url_fetched (img_block : ImgBlock) (base_url : string)
    (w w' : World) (r : ImageData) :
  extract_best_image_from_url img_block base_url w = (Ok r, w') ->
  Py.truthy_bytes (fst (fst r)) = true ->
  exists absolute_url content ext,
    r = (Some content, Some absolute_url, Some ext)
    /\ fetched_image (calls w') absolute_url content.
Proof.
  rewrite extract_best_image_from_url_walk.
  destruct (resolver_candidates img_block) as [candidates|e]; [|discriminate].
  destruct (try_downloads_attempts candidates base_url w) as (log & Hlog & Hattempts).
  destruct (try_downloads candidates base_url w) as [res w1]. cbn [fst snd] in *.
  intros [= Hres <-] Hbytes. destruct res as [[r1|]|e]; cbn [found_or_nothing] in Hres.
  - injection Hres as ->.
    destruct (attempts_found_last _ _ _ _ Hattempts r eq_refl)
      as (absolute_url & content & ext & -> & Hfetched).
    exists absolute_url, content, ext. split; [reflexivity|].
    rewrite Hlog. apply fetched_image_app, Hfetched.
  - injection Hres as <-. discriminate.
  - discriminate.
Qed.

Lemma get_img_delivers (page : Page) (base_url img_name : string) (w w' : World)
    (path : string) (img_url : option string) :
  get_img page base_url img_name w = (Ok (Some path, img_url), w') ->
  delivered (calls w') path img_url.
Proof.
  unfold get_img. destruct (largest_image (img_blocks page)) as [img_to_download|];
    [|discriminate].
  unfold bind.
  destruct (extract_best_image_from_url img_to_download base_url w)
    as [[found|e] w1] eqn:Hbest; [|discriminate].
  destruct found as [[[data|] [url|]] [ext|]]; try discriminate.
  destruct (Py.truthy_bytes (Some data) && Py.truthy url && Py.truthy ext) eqn:Htruthy.
  2:{ unfold save_image. rewrite Htruthy. discriminate. }
  rewrite (save_image_found img_name data url ext w1 Htruthy).
  apply andb_true_iff in Htruthy as [Htruthy _].
  apply andb_true_iff in Htruthy as [Hbytes _].
  destruct (extract_best_image_from_url_fetched _ _ _ _ _ Hbest Hbytes)
    as (absolute_url & content & ext0 & [= -> -> ->] & Hfetched).
  unfold convert_to_jpeg.
  assert (Hwrite : forall jpeg ext',
            (image_to_jpeg content = Ok jpeg \/ jpeg = content) ->
            (let img_path := EXTRACTED_IMAGES_DIR +:+ "/" +:+ img_name +:+ ext' in
             let '(r, e) := file_write img_path jpeg (env w1) in
             (match r with
              | Ok _ => Ok (Some img_path, Some absolute_url)
              | Raise e => Raise e
              end,
              {| env := e; calls := calls w1 ++ [WriteFile img_path jpeg] |}))
            = (Ok (Some path, img_url), w') ->
            delivered (calls w') path img_url).
  { intros jpeg ext' Hjpeg. cbn zeta.
    destruct (file_write _ jpeg (env w1)) as [[[]|e] env']; [|discriminate].
    intros [= <- <- <-]. exists (calls w1), absolute_url, content, jpeg. auto. }
  destruct (image_to_jpeg content) as [jpeg|e] eqn:Hjpeg.
  - apply Hwrite. left. reflexivity.
  - destruct e; try discriminate; apply Hwrite; right; reflexivity.
Qed.

Lemma page_body_delivers (painting_name url : string) (w w' : World) (path : string)
    (img_url : option string) :
  page_body painting_name url w = (Ok (Some path, img_url), w') ->
  delivered (calls w') path img_url.
Proof.
  unfold page_body. unfold bind at 1.
  destruct (goto url w) as [[content|e] w1]; [|discriminate].
  destruct (_is_captcha_page content).
  { unfold bind. destruct (close w1) as [[[]|e] w2]; discriminate. }
  unfold bind at 1. destruct (settle w1) as [[page|e] w2]; [|discriminate].
  unfold bind at 1.
  destruct (get_img page (page_url page) painting_name w2) as [[[p u]|e] w3] eqn:Himg;
    [|discriminate].
  unfold bind, close, perform. destruct (page_close (env w3)) as [[[]|e] env'];
    [|discriminate].
  intros [= -> -> <-]. cbn [calls]. rewrite app_nil_r.
  exact (get_img_delivers _ _ _ _ _ _ _ Himg).
Qed.

Lemma extract_main_image_from_page_delivers (painting_name url : string) (w w' : World)
    (path : string) (img_url : option string) :
  extract_main_image_from_page painting_name url w = (Ok (Some path, img_url), w') ->
  delivered (calls w') path img_url.
Proof.
  unfold extract_main_image_from_page. fold (page_body painting_name url).
  unfold bind at 1. unfold attempt at 1.
  destruct (new_page w) as [[[]|e] w1]; [|discriminate].
  unfold bind at 1. unfold attempt at 1.
  destruct (page_body painting_name url w1) as [r w2] eqn:Hbody.
  unfold bind, attempt, close, perform. destruct (page_close (env w2)) as [c env'].
  destruct r as [[p u]|e]; [|discriminate].
  intros [= -> -> <-]. cbn [calls]. rewrite app_nil_r.
  exact (page_body_delivers _ _ _ _ _ _ Hbody).
Qed.

Lemma wikipedia_loop_delivers (painting_name : string) (urls : list string)
    (invalid_urls invalid_urls' : gset string) (w w' : World) (path : string)
    (img_url : option string) :
  wikipedia_loop painting_name urls invalid_urls w
  = (Ok (Some path, img_url, invalid_urls'), w') ->
  delivered (calls w') path img_url.
Proof.
  revert invalid_urls w. induction urls as [|url urls IH]; intros invalid_urls w;
    [discriminate|].
  cbn [wikipedia_loop]. destruct (Py.contains "wikipedia" url); [|apply IH].
  unfold bind.
  destruct (extract_main_image_from_page painting_name url w) as [[[p u]|e] w1] eqn:Hvisit;
    [|discriminate].
  destruct (Py.truthy_opt p); [|apply IH].
  intros [= -> -> _ <-]. exact (extract_main_image_from_page_delivers _ _ _ _ _ _ Hvisit).
Qed.

Lemma _try_museum_urls_delivers (painting_name : string) (urls : list string)
    (invalid_urls invalid_urls' : gset string) (w w' : World) (path label : string)
    (img_url : option string) :
  _try_museum_urls painting_name urls invalid_urls w
  = (Ok (Some path, img_url, label, invalid_urls'), w') ->
  delivered (calls w') path img_url.
Proof.
  revert invalid_urls w. induction urls as [|url urls IH]; intros invalid_urls w;
    [discriminate|].
  cbn [_try_museum_urls]. destruct (decide (url ∈ invalid_urls)); [apply IH|].
  destruct (museum_of url) as [museum_name|]; [|apply IH].
  unfold bind.
  destruct (extract_main_image_from_page painting_name url w) as [[[p u]|e] w1] eqn:Hvisit;
    [|discriminate].
  destruct (Py.truthy_opt p); [|apply IH].
  intros [= -> -> _ _ <-]. exact (extract_main_image_from_page_delivers _ _ _ _ _ _ Hvisit).
Qed.

Lemma _try_remaining_urls_delivers (painting_name : string) (urls : list string)
    (invalid_urls : gset string) (w w' : World) (path : string) (img_url : option string) :
  _try_remaining_urls painting_name urls invalid_urls w = (Ok (Some path, img_url), w') ->
  delivered (calls w') path img_url.
Proof.
  revert w. induction urls as [|url urls IH]; intros w; [discriminate|].
  cbn [_try_remaining_urls]. destruct (decide (url ∈ invalid_urls)); [apply IH|].
  unfold bind.
  destruct (extract_main_image_from_page painting_name url w) as [[[p u]|e] w1] eqn:Hvisit;
    [|discriminate].
  destruct (Py.truthy_opt p); [|apply IH].
  intros [= -> -> <-]. exact (extract_main_image_from_page_delivers _ _ _ _ _ _ Hvisit).
Qed.

(** X13: the image of a record is the image that was fetched: when
    [process_a_painting] returns a record with an image path, the last two
    calls of the run are the fetch of the recorded image URL, answered with
    status 200, an image type and a body that is not empty, and the writing
    of that body, or of its conversion to JPEG, to the recorded path. *)
Theorem recorded_image_was_fetched_and_saved (painting_name : string) (urls : Urls)
    (cur_batch_names_to_imgs : gmap string string)
    (cur_batch_results results' : gmap string BatchResult) (w w' : World)
    (record : BatchResult) (path : string) :
  process_a_painting painting_name urls cur_batch_names_to_imgs cur_batch_results w
  = (Ok results', w') ->
  results' !! painting_name = Some record ->
  image_path record = PathStr path ->
  delivered (calls w') path (Some (image_url record)).
Proof.
  intros Hrun Hrecord Hpath. destruct urls as [[|urls0 rest]|message].
  1,3: exfalso; revert Hrun; unfold process_a_painting, bind, getitem;
       destruct (cur_batch_names_to_imgs !! painting_name) as [text|]; [|discriminate];
       intros [= <- <-]; rewrite lookup_insert_eq in Hrecord; injection Hrecord as <-;
       discriminate.
  destruct (process_a_painting_outcome _ _ _ _ _ _ _ _ Hrun)
    as (text & p1 & u1 & inv1 & w1 & _ & Hwiki & Hcases).
  assert (Hurl : forall img_url : option string,
            delivered (calls w') path img_url ->
            delivered (calls w') path (Some (default "" img_url))).
  { intros img_url (fetches & absolute_url & content & data & Hlog & Hfetched & -> & Hdata).
    exists fetches, absolute_url, content, data. auto. }
  destruct Hcases as [(path1 & -> & _ & -> & ->)
    | (_ & p2 & u2 & loc & inv2 & w2 & Hmuseum &
       [(path2 & url & -> & _ & -> & -> & _)
       | (_ & p3 & u3 & Hremaining & [(path3 & -> & _ & ->) | (_ & ->)])])];
    rewrite lookup_insert_eq in Hrecord; injection Hrecord as <-;
    cbn [image_path image_url success_record exhausted_record] in *;
    try discriminate; injection Hpath as ->; apply Hurl.
  - exact (wikipedia_loop_delivers _ _ _ _ _ _ _ _ Hwiki).
  - exact (_try_museum_urls_delivers _ _ _ _ _ _ _ _ _ Hmuseum).
  - exact (_try_remaining_urls_delivers _ _ _ _ _ _ _ Hremaining).
Qed.

End ProvenanceFacts.

(** The scenario of the specification: the page of the encyclopedia, the
    fetch of its image, the file. *)
Lemma recorded_image_was_fetched_and_saved_witness :
  let site := Scenario.encyclopedia in
  let run := @process_a_painting (Demo.runtime site) "Mona Lisa"
               (UrlList [Scenario.wikipedia; Scenario.elsewhere])
               Scenario.names ∅ (Demo.start site) in
  calls (snd run)
  = [Goto Scenario.wikipedia;
     HttpGet Scenario.image Scenario.wikipedia (Ok (snd (Demo.png_at Scenario.image)));
     WriteFile "extracted_images/Mona Lisa.jpg" [Byte.x89; Byte.x50; Byte.x4e]]
  /\ @delivered (Demo.runtime site) (calls (snd run)) "extracted_images/Mona Lisa.jpg"
       (Some Scenario.image).
Proof.
  intros site run. subst run. split; [vm_compute; reflexivity|].
  assert (Hfst : fst (@process_a_painting (Demo.runtime site) "Mona Lisa"
                        (UrlList [Scenario.wikipedia; Scenario.elsewhere])
                        Scenario.names ∅ (Demo.start site))
                 = Ok (<["Mona Lisa" :=
                         success_record "Mona Lisa, Leonardo da Vinci"
                           "extracted_images/Mona Lisa.jpg" Scenario.wikipedia
                           "Unknown location" (Some Scenario.image)]> ∅))
    by (vm_compute; reflexivity).
  destruct (@process_a_painting (Demo.runtime site) "Mona Lisa"
              (UrlList [Scenario.wikipedia; Scenario.elsewhere])
              Scenario.names ∅ (Demo.start site)) as [res w'] eqn:Hrun.
  cbn [fst snd] in *. subst res.
  exact (recorded_image_was_fetched_and_saved (rt := Demo.runtime site) _ _ _ _ _ _ _ _ _
           Hrun (lookup_insert_eq _ _ _) eq_refl).
Defined.

(** ** Cookie banners *)

Example word_boundaries :
  Re.search COOKIE_CONSENT_KEYWORDS "<button id=x>accept all</button>" = true
  /\ Re.search COOKIE_CONSENT_KEYWORDS "<button>unacceptable</button>" = false
  /\ Re.search COOKIE_CONSENT_KEYWORDS "<a class=btn_accept>ok</a>" = false
  /\ Re.search COOKIE_CONSENT_KEYWORDS "<a>ho capito</a>" = true
  /\ Re.search COOKIE_CONSENT_KEYWORDS "<a>ho  capito</a>" = false
  /\ Re.search COOKIE_CONSENT_KEYWORDS "<a>accepté</a>" = false
  /\ Re.search COOKIE_CONSENT_KEYWORDS "<a>éaccept</a>" = false
  /\ Re.search COOKIE_CONSENT_KEYWORDS "<a>«accept»</a>" = true.
Proof. vm_compute. repeat split. Qed.

Section CookiesFacts.

Context `{rt : Runtime} `{buttons : Buttons}.

Lemma filter_buttons_log (all_buttons : list ElementHandle) (s s' : Session)
    (res : Result (list ElementHandle)) :
  filter_buttons all_buttons s = (res, s') ->
  exists log,
    events s' = events s ++ log
    /\ Forall is_probe log
    /\ match res with
       | Ok filtered_buttons =>
           filtered_buttons `sublist_of` all_buttons
           /\ (forall b, In b filtered_buttons -> kept log b)
           /\ (forall b e, ~ In (Visible b (Raise e)) log /\ ~ In (Disabled b (Raise e)) log)
       | Raise e =>
           exists before b,
             log = before ++ [Visible b (Raise e)] \/ log = before ++ [Disabled b (Raise e)]
       end.
Proof.
  revert s s' res. induction all_buttons as [|b rest IH]; intros s s' res.
  - intros [= <- <-]. exists []. rewrite app_nil_r. split; [reflexivity|].
    split; [constructor|]. split; [constructor|]. split; [intros b []|].
    intros b e. split; intros [].
  - cbn [filter_buttons]. unfold call.
    destruct (is_visible b (dom s)) as [[visible|e] d1].
    2:{ intros [= <- <-]. exists [Visible b (Raise e)]. cbn [events].
        split; [reflexivity|]. split; [repeat constructor|]. exists [], b. left. reflexivity. }
    destruct visible.
    2:{ intros Hrun. destruct (IH _ _ _ Hrun) as (log & Hlog & Hprobe & Hres).
        exists (Visible b (Ok false) :: log). split.
        { rewrite Hlog. cbn [events]. rewrite <- app_assoc. reflexivity. }
        split; [constructor; [exact I|exact Hprobe]|].
        destruct res as [filtered|e].
        - destruct Hres as (Hsub & Hkept & Hok). split; [apply sublist_cons, Hsub|]. split.
          + intros x Hx. destruct (Hkept x Hx) as (Hv & disabled & Hd & Ht).
            split; [right; exact Hv|]. exists disabled. split; [right; exact Hd|exact Ht].
          + intros x e. destruct (Hok x e) as [Hv Hd].
            split; intros [Heq | Hin]; try discriminate; auto.
        - destruct Hres as (before & x & [-> | ->]);
            exists (Visible b (Ok false) :: before), x; [left|right]; reflexivity. }
    cbn [dom events].
    destruct (get_disabled b d1) as [[disabled|e] d2].
    2:{ intros [= <- <-]. exists [Visible b (Ok true); Disabled b (Raise e)]. cbn [events].
        split; [rewrite <- app_assoc; reflexivity|].
        split; [repeat constructor|]. exists [Visible b (Ok true)], b. right. reflexivity. }
    assert (Hlift : forall log x, kept log x ->
              kept (Visible b (Ok true) :: Disabled b (Ok disabled) :: log) x).
    { intros log x (Hv & d & Hd & Ht). split; [right; right; exact Hv|].
      exists d. split; [right; right; exact Hd|exact Ht]. }
    assert (Hnoraise : forall log,
              (forall x e, ~ In (Visible x (Raise e)) log
                           /\ ~ In (Disabled x (Raise e)) log) ->
              forall x e,
                ~ In (Visible x (Raise e)) (Visible b (Ok true) :: Disabled b (Ok disabled) :: log)
                /\ ~ In (Disabled x (Raise e))
                       (Visible b (Ok true) :: Disabled b (Ok disabled) :: log)).
    { intros log Hok x e. destruct (Hok x e) as [Hv Hd].
      split; intros [Heq | [Heq | Hin]]; try discriminate; auto. }
    assert (Hfailed : forall log e,
              (exists before x,
                 log = before ++ [Visible x (Raise e)]
                 \/ log = before ++ [Disabled x (Raise e)]) ->
              exists before x,
                Visible b (Ok true) :: Disabled b (Ok disabled) :: log
                = before ++ [Visible x (Raise e)]
                \/ Visible b (Ok true) :: Disabled b (Ok disabled) :: log
                   = before ++ [Disabled x (Raise e)]).
    { intros log e (before & x & [-> | ->]);
        exists (Visible b (Ok true) :: Disabled b (Ok disabled) :: before), x;
        [left|right]; reflexivity. }
    destruct (Py.truthy_opt disabled) eqn:Hdisabled.
    + intros Hrun. destruct (IH _ _ _ Hrun) as (log & Hlog & Hprobe & Hres).
      exists (Visible b (Ok true) :: Disabled b (Ok disabled) :: log). split.
      { rewrite Hlog. cbn [events]. rewrite <- !app_assoc. reflexivity. }
      split; [repeat constructor; exact Hprobe|].
      destruct res as [filtered|e]; [|apply Hfailed, Hres].
      destruct Hres as (Hsub & Hkept & Hok). split; [apply sublist_cons, Hsub|].
      split; [intros x Hx; apply Hlift, Hkept, Hx|apply Hnoraise, Hok].
    + match goal with
      | |- context [filter_buttons rest ?s2] =>
          destruct (filter_buttons rest s2) as [r s3] eqn:Hrest
      end.
      destruct (IH _ _ _ Hrest) as (log & Hlog & Hprobe & Hres). cbn [events] in Hlog.
      assert (Hevents : events s3
                        = events s ++ Visible b (Ok true) :: Disabled b (Ok disabled) :: log)
        by (rewrite Hlog, <- !app_assoc; reflexivity).
      destruct r as [filtered|e]; intros [= <- <-];
        exists (Visible b (Ok true) :: Disabled b (Ok disabled) :: log);
        (split; [exact Hevents|]); (split; [repeat constructor; exact Hprobe|]);
        [|apply Hfailed, Hres].
      destruct Hres as (Hsub & Hkept & Hok). split; [apply sublist_skip, Hsub|].
      split; [|apply Hnoraise, Hok].
      intros x [<- | Hx]; [|apply Hlift, Hkept, Hx].
      split; [left; reflexivity|]. exists disabled. split; [right; left; reflexivity|].
      exact Hdisabled.
Qed.

(** The first loop keeps every button that answered that it has no
    [disabled] attribute, or an empty one. *)
Lemma filter_buttons_keeps (all_buttons filtered_buttons : list ElementHandle)
    (s s' : Session) :
  filter_buttons all_buttons s = (Ok filtered_buttons, s') ->
  exists log,
    events s' = events s ++ log
    /\ forall b disabled,
         In (Disabled b (Ok disabled)) log -> Py.truthy_opt disabled = false ->
         In b filtered_buttons.
Proof.
  revert s s' filtered_buttons.
  induction all_buttons as [|b0 rest IH]; intros s s' filtered_buttons.
  - intros [= <- <-]. exists []. rewrite app_nil_r. split; [reflexivity|].
    intros b disabled [].
  - cbn [filter_buttons]. unfold call.
    destruct (is_visible b0 (dom s)) as [[visible|e] d1]; [|discriminate].
    destruct visible.
    2:{ intros Hrun. destruct (IH _ _ _ Hrun) as (log & Hlog & Hkeeps).
        exists (Visible b0 (Ok false) :: log). split.
        { rewrite Hlog. cbn [events]. rewrite <- app_assoc. reflexivity. }
        intros b disabled [Heq | Hin]; [discriminate|]. exact (Hkeeps b disabled Hin). }
    cbn [dom events].
    destruct (get_disabled b0 d1) as [[disabled0|e] d2]; [|discriminate].
    destruct (Py.truthy_opt disabled0) eqn:Hdisabled.
    + intros Hrun. destruct (IH _ _ _ Hrun) as (log & Hlog & Hkeeps).
      exists (Visible b0 (Ok true) :: Disabled b0 (Ok disabled0) :: log). split.
      { rewrite Hlog. cbn [events]. rewrite <- !app_assoc. reflexivity. }
      intros b disabled [Heq | [Heq | Hin]]; [discriminate| |exact (Hkeeps b disabled Hin)].
      injection Heq as <- <-. congruence.
    + match goal with
      | |- context [filter_buttons rest ?s2] =>
          destruct (filter_buttons rest s2) as [[filtered|e] s3] eqn:Hrest
      end; [|discriminate].
      intros [= <- <-]. destruct (IH _ _ _ Hrest) as (log & Hlog & Hkeeps).
      cbn [events] in Hlog.
      exists (Visible b0 (Ok true) :: Disabled b0 (Ok disabled0) :: log). split.
      { rewrite Hlog, <- !app_assoc. reflexivity. }
      intros b disabled [Heq | [Heq | Hin]]; [discriminate| |].
      * injection Heq as <- <-. intros _. left. reflexivity.
      * intros Hd. right. exact (Hkeeps b disabled Hin Hd).
Qed.

Lemma click_first_log (filtered_buttons : list ElementHandle) (s : Session) :
  exists log,
    events (click_first filtered_buttons s) = events s ++ log
    /\ Clicks filtered_buttons log.
Proof.
  revert s. induction filtered_buttons as [|button rest IH]; intros s.
  - exists []. simpl. rewrite app_nil_r. split; [reflexivity|constructor].
  - cbn [click_first]. unfold call.
    destruct (outer_html button (dom s)) as [[html|e] d1].
    2:{ match goal with
        | |- context [click_first rest ?s1] => destruct (IH s1) as (log & -> & H)
        end.
        exists (OuterHtml button (Raise e) :: log). cbn [events]. rewrite <- app_assoc.
        split; [reflexivity|]. constructor. exact H. }
    destruct (Re.search COOKIE_CONSENT_KEYWORDS (str_lower html)) eqn:Hmatch.
    2:{ match goal with
        | |- context [click_first rest ?s1] => destruct (IH s1) as (log & -> & H)
        end.
        exists (OuterHtml button (Ok html) :: log). cbn [events]. rewrite <- app_assoc.
        split; [reflexivity|]. apply clicks_no_match; assumption. }
    cbn [dom events].
    destruct (click button d1) as [[[]|e] d2].
    + exists [OuterHtml button (Ok html); Clicked button (Ok tt)]. cbn [events].
      rewrite <- app_assoc. split; [reflexivity|]. apply clicks_done. exact Hmatch.
    + match goal with
      | |- context [click_first rest ?s1] => destruct (IH s1) as (log & -> & H)
      end.
      exists (OuterHtml button (Ok html) :: Clicked button (Raise e) :: log). cbn [events].
      rewrite <- !app_assoc. split; [reflexivity|]. apply clicks_failed; assumption.
Qed.

(** In the events of the second loop, a click comes right after the
    [outerHTML] of the same button, which matched the pattern; the button is
    one of the list; and nothing follows a click that did not raise. *)
Lemma clicks_inv (filtered_buttons : list ElementHandle) (log : list Event) :
  Clicks filtered_buttons log ->
  forall before button outcome after,
    log = before ++ Clicked button outcome :: after ->
    In button filtered_buttons
    /\ (exists html earlier,
          before = earlier ++ [OuterHtml button (Ok html)]
          /\ Re.search COOKIE_CONSENT_KEYWORDS (str_lower html) = true)
    /\ (outcome = Ok tt -> after = []).
Proof.
  induction 1 as [|b rest e log _ IH|b rest html log Hmatch _ IH
                  |b rest html e log Hmatch _ IH|b rest html Hmatch];
    intros before button outcome after Hlog.
  - destruct before; discriminate.
  - destruct before as [|x before]; [discriminate|]. injection Hlog as <- Hlog.
    destruct (IH _ _ _ _ Hlog) as (Hin & (h & earlier & -> & Hh) & Hlast).
    split; [right; exact Hin|]. split; [|exact Hlast].
    exists h, (OuterHtml b (Raise e) :: earlier). auto.
  - destruct before as [|x before]; [discriminate|]. injection Hlog as <- Hlog.
    destruct (IH _ _ _ _ Hlog) as (Hin & (h & earlier & -> & Hh) & Hlast).
    split; [right; exact Hin|]. split; [|exact Hlast].
    exists h, (OuterHtml b (Ok html) :: earlier). auto.
  - destruct before as [|x before]; [discriminate|]. injection Hlog as <- Hlog.
    destruct before as [|y before].
    + injection Hlog as <- <- <-. split; [left; reflexivity|]. split; [|discriminate].
      exists html, []. auto.
    + injection Hlog as <- Hlog.
      destruct (IH _ _ _ _ Hlog) as (Hin & (h & earlier & -> & Hh) & Hlast).
      split; [right; exact Hin|]. split; [|exact Hlast].
      exists h, (OuterHtml b (Ok html) :: Clicked b (Raise e) :: earlier). auto.
  - destruct before as [|x before]; [discriminate|]. injection Hlog as <- Hlog.
    destruct before as [|y before].
    + injection Hlog as <- <- <-. split; [left; reflexivity|]. split; [|reflexivity].
      exists html, []. auto.
    + injection Hlog as _ Hlog. destruct before; discriminate.
Qed.

Lemma clicks_events (filtered_buttons : list ElementHandle) (log : list Event) :
  Clicks filtered_buttons log ->
  Forall (fun event => match event with OuterHtml _ _ | Clicked _ _ => True | _ => False end)
    log.
Proof. induction 1; repeat constructor; assumption. Qed.

(** After a click that raised, the second loop goes on with the buttons
    that follow the one it clicked. *)
Lemma clicks_go_on (filtered_buttons : list ElementHandle) (log : list Event) :
  Clicks filtered_buttons log ->
  forall before button e after,
    log = before ++ Clicked button (Raise e) :: after ->
    exists done todo,
      filtered_buttons = done ++ button :: todo /\ Clicks todo after.
Proof.
  induction 1 as [|b rest e0 log _ IH|b rest html log Hmatch _ IH
                  |b rest html e0 log Hmatch Hrest IH|b rest html Hmatch];
    intros before button e after Hlog.
  - destruct before; discriminate.
  - destruct before as [|x before]; [discriminate|]. injection Hlog as <- Hlog.
    destruct (IH _ _ _ _ Hlog) as (done & todo & -> & Htodo).
    exists (b :: done), todo. auto.
  - destruct before as [|x before]; [discriminate|]. injection Hlog as <- Hlog.
    destruct (IH _ _ _ _ Hlog) as (done & todo & -> & Htodo).
    exists (b :: done), todo. auto.
  - destruct before as [|x before]; [discriminate|]. injection Hlog as <- Hlog.
    destruct before as [|y before].
    + injection Hlog as <- <- <-. exists [], rest. auto.
    + injection Hlog as <- Hlog.
      destruct (IH _ _ _ _ Hlog) as (done & todo & -> & Htodo).
      exists (b :: done), todo. auto.
  - destruct before as [|x before]; [discriminate|]. injection Hlog as <- Hlog.
    destruct before as [|y before]; [discriminate|].
    injection Hlog as _ Hlog. destruct before; discriminate.
Qed.

(** The second loop evaluates the buttons in the order of the list, and all
    of them unless a click went through. *)
Lemma clicks_evaluated (filtered_buttons : list ElementHandle) (log : list Event) :
  Clicks filtered_buttons log ->
  (exists todo, filtered_buttons = evaluated log ++ todo)
  /\ ((forall button, ~ In (Clicked button (Ok tt)) log) ->
      evaluated log = filtered_buttons).
Proof.
  induction 1 as [|b rest e0 log _ [(todo & Hpre) IH]|b rest html log Hmatch _ [(todo & Hpre) IH]
                  |b rest html e0 log Hmatch _ [(todo & Hpre) IH]|b rest html Hmatch].
  - split; [exists []; reflexivity|reflexivity].
  - cbn [evaluated omap]. fold (evaluated log). split.
    + exists todo. simpl. f_equal. exact Hpre.
    + intros Hnone. simpl. f_equal. apply IH. intros x Hx. apply (Hnone x). right. exact Hx.
  - cbn [evaluated omap]. fold (evaluated log). split.
    + exists todo. simpl. f_equal. exact Hpre.
    + intros Hnone. simpl. f_equal. apply IH. intros x Hx. apply (Hnone x). right. exact Hx.
  - cbn [evaluated omap]. fold (evaluated log). split.
    + exists todo. simpl. f_equal. exact Hpre.
    + intros Hnone. simpl. f_equal. apply IH. intros x Hx. apply (Hnone x).
      right. right. exact Hx.
  - split; [exists rest; reflexivity|]. intros Hnone. exfalso.
    apply (Hnone b). right. left. reflexivity.
Qed.

(** A button whose [outerHTML] matched is clicked at once. *)
Lemma clicks_matched (filtered_buttons : list ElementHandle) (log : list Event) :
  Clicks filtered_buttons log ->
  forall before button html after,
    log = before ++ OuterHtml button (Ok html) :: after ->
    Re.search COOKIE_CONSENT_KEYWORDS (str_lower html) = true ->
    exists outcome later, after = Clicked button outcome :: later.
Proof.
  induction 1 as [|b rest e0 log _ IH|b rest html0 log Hmatch _ IH
                  |b rest html0 e0 log Hmatch _ IH|b rest html0 Hmatch];
    intros before button html after Hlog Hhtml.
  - destruct before; discriminate.
  - destruct before as [|x before]; [discriminate|]. injection Hlog as <- Hlog.
    exact (IH _ _ _ _ Hlog Hhtml).
  - destruct before as [|x before].
    + injection Hlog as <- <- <-. congruence.
    + injection Hlog as <- Hlog. exact (IH _ _ _ _ Hlog Hhtml).
  - destruct before as [|x before].
    + injection Hlog as <- <- <-. eauto.
    + injection Hlog as <- Hlog. destruct before as [|y before]; [discriminate|].
      injection Hlog as <- Hlog. exact (IH _ _ _ _ Hlog Hhtml).
  - destruct before as [|x before].
    + injection Hlog as <- <- <-. eauto.
    + injection Hlog as <- Hlog. destruct before as [|y before]; [discriminate|].
      injection Hlog as _ Hlog. destruct before; discriminate.
Qed.

(** An event of the second part of a log is found after the whole of the
    first part, when the first part holds no such event. *)
Lemma split_after {A} (P : A -> Prop) (l1 l2 before after : list A) (x : A) :
  List.Forall P l1 -> ~ P x ->
  l1 ++ l2 = before ++ x :: after ->
  exists before', before = l1 ++ before' /\ l2 = before' ++ x :: after.
Proof.
  revert before. induction l1 as [|a l1 IH]; intros before Hall Hx Heq.
  - exists before. auto.
  - apply List.Forall_cons_iff in Hall as [Ha Hall].
    destruct before as [|b before]; simpl in Heq.
    + injection Heq as -> _. contradiction.
    + injection Heq as <- Heq. destruct (IH before Hall Hx Heq) as (before' & -> & ->).
      exists before'. auto.
Qed.

(** The events of a run of [accept_cookies]: the query, the first loop, the
    second loop over the buttons the first loop kept. *)
Lemma accept_cookies_log (s : Session) :
  exists log,
    events (snd (accept_cookies s)) = events s ++ log
    /\ match fst (accept_cookies s) with
       | Ok _ =>
           exists all_buttons probes filtered_buttons clicks,
             log = Queried (Ok all_buttons) :: probes ++ clicks
             /\ Forall is_probe probes
             /\ filtered_buttons `sublist_of` all_buttons
             /\ (forall b, In b filtered_buttons -> kept probes b)
             /\ (forall b e, ~ In (Visible b (Raise e)) probes
                             /\ ~ In (Disabled b (Raise e)) probes)
             /\ Clicks filtered_buttons clicks
             /\ (forall b disabled,
                   In (Disabled b (Ok disabled)) probes ->
                   Py.truthy_opt disabled = false -> In b filtered_buttons)
       | Raise e =>
           log = [Queried (Raise e)]
           \/ exists all_buttons probes b,
                Forall is_probe (probes ++ [Visible b (Raise e)])
                /\ (log = Queried (Ok all_buttons) :: probes ++ [Visible b (Raise e)]
                    \/ log = Queried (Ok all_buttons) :: probes ++ [Disabled b (Raise e)])
       end.
Proof.
  unfold accept_cookies, call.
  destruct (query_selector_all (dom s)) as [[all_buttons|e] d1].
  2:{ exists [Queried (Raise e)]. cbn [fst snd events]. auto. }
  match goal with
  | |- context [filter_buttons all_buttons ?s1] =>
      destruct (filter_buttons all_buttons s1) as [[filtered|e] s2] eqn:Hfilter
  end; destruct (filter_buttons_log _ _ _ _ Hfilter) as (probes & Hprobes & Hall & Hres);
    cbn [events] in Hprobes.
  - destruct Hres as (Hsub & Hkept & Hok).
    destruct (click_first_log filtered s2) as (clicks & Hclicks & Hform).
    destruct (filter_buttons_keeps _ _ _ _ Hfilter) as (probes' & Hprobes' & Hkeeps).
    cbn [events] in Hprobes'. rewrite Hprobes in Hprobes'.
    apply app_inv_head in Hprobes' as <-.
    exists (Queried (Ok all_buttons) :: probes ++ clicks). cbn [fst snd]. split.
    { rewrite Hclicks, Hprobes, <- !app_assoc. reflexivity. }
    exists all_buttons, probes, filtered, clicks. auto 10.
  - destruct Hres as (before & b & Hlast). exists (Queried (Ok all_buttons) :: probes).
    cbn [fst snd]. split; [rewrite Hprobes, <- !app_assoc; reflexivity|]. right.
    exists all_buttons, before, b. split.
    + destruct Hlast as [-> | ->]; [exact Hall|].
      apply Forall_app in Hall as [Hbefore _]. apply Forall_app. split; [exact Hbefore|].
      repeat constructor.
    + destruct Hlast as [-> | ->]; auto.
Qed.

(** X14: [accept_cookies] clicks only a button that the page listed, that
    answered that it is visible and that it has no [disabled] attribute or
    an empty one, and whose [outerHTML], in lower case, holds a consent
    keyword as a whole word: the click follows that answer at once. After a
    click that did not raise nothing more is called, so one button at most
    is clicked with success. A run in which a button was clicked returns.
    A run that returns kept exactly the buttons that answered so, in the
    order of the page; it evaluated them in that order, all of them unless a
    click went through; it clicked every button whose [outerHTML] matched;
    and after a click that raised it went on with the buttons that follow. *)
Theorem accept_cookies_clicks_one_consent_button (s : Session) :
  exists log,
    events (snd (accept_cookies s)) = events s ++ log
    /\ (forall before button outcome after,
          log = before ++ Clicked button outcome :: after ->
          fst (accept_cookies s) = Ok tt
          /\ (exists all_buttons,
                In (Queried (Ok all_buttons)) before /\ In button all_buttons)
          /\ kept before button
          /\ (exists html earlier,
                before = earlier ++ [OuterHtml button (Ok html)]
                /\ Re.search COOKIE_CONSENT_KEYWORDS (str_lower html) = true)
          /\ (outcome = Ok tt -> after = []))
    /\ (fst (accept_cookies s) = Ok tt ->
        exists all_buttons probes filtered_buttons clicks,
          log = Queried (Ok all_buttons) :: probes ++ clicks
          /\ Forall is_probe probes
          /\ filtered_buttons `sublist_of` all_buttons
          /\ (forall b, In b filtered_buttons <-> kept probes b)
          /\ Clicks filtered_buttons clicks
          /\ (exists todo, filtered_buttons = evaluated clicks ++ todo)
          /\ ((forall button, ~ In (Clicked button (Ok tt)) clicks) ->
              evaluated clicks = filtered_buttons)
          /\ (forall before button html after,
                clicks = before ++ OuterHtml button (Ok html) :: after ->
                Re.search COOKIE_CONSENT_KEYWORDS (str_lower html) = true ->
                exists outcome later, after = Clicked button outcome :: later)
          /\ (forall before button e after,
                clicks = before ++ Clicked button (Raise e) :: after ->
                exists done todo,
                  filtered_buttons = done ++ button :: todo /\ Clicks todo after)).
Proof.
  destruct (accept_cookies_log s) as (log & Hlog & Hform).
  exists log. split; [exact Hlog|]. split.
  2:{ intros Hok. rewrite Hok in Hform.
      destruct Hform as (all_buttons & probes & filtered & clicks & -> & Hprobes & Hsub
                         & Hkept & _ & Hclicks & Hkeeps).
      exists all_buttons, probes, filtered, clicks.
      split; [reflexivity|]. do 2 (split; [assumption|]). split.
      { intros b. split; [apply Hkept|].
        intros (_ & disabled & Hin & Hfalse). exact (Hkeeps b disabled Hin Hfalse). }
      split; [exact Hclicks|].
      destruct (clicks_evaluated _ _ Hclicks) as [Hprefix Hall].
      split; [exact Hprefix|]. split; [exact Hall|].
      split; [exact (clicks_matched _ _ Hclicks)|exact (clicks_go_on _ _ Hclicks)]. }
  intros before button outcome after Hsplit.
  destruct (fst (accept_cookies s)) as [[]|e].
  - destruct Hform as (all_buttons & probes & filtered & clicks & -> & Hprobes & Hsub
                       & Hkept & _ & Hclicks & _).
    change (Queried (Ok all_buttons) :: probes ++ clicks)
      with ((Queried (Ok all_buttons) :: probes) ++ clicks) in Hsplit.
    apply (split_after (fun event => match event with Clicked _ _ => False | _ => True end))
      in Hsplit as (before' & -> & ->).
    2:{ constructor; [exact I|]. eapply List.Forall_impl; [|exact Hprobes].
        intros []; simpl; auto. }
    2:{ intros []. }
    destruct (clicks_inv _ _ Hclicks _ _ _ _ eq_refl) as (Hin & (html & earlier & -> & Hhtml)
                                                         & Hlast).
    split; [reflexivity|]. split.
    { exists all_buttons. split; [left; reflexivity|]. exact (sublist_In _ _ _ Hsub Hin). }
    split.
    { destruct (Hkept button Hin) as (Hv & d & Hd & Ht). split.
      - right. apply in_or_app. left. exact Hv.
      - exists d. split; [|exact Ht]. right. apply in_or_app. left. exact Hd. }
    split; [|exact Hlast].
    exists html, ((Queried (Ok all_buttons) :: probes) ++ earlier).
    rewrite <- app_assoc. auto.
  - exfalso. destruct Hform as [-> | (all_buttons & probes & b & Hprobes & Hcases)].
    + destruct before as [|x [|y before]]; discriminate.
    + assert (Hnone : Forall is_probe (probes ++ [Visible b (Raise e)])
                      -> forall last, is_probe last ->
                         Queried (Ok all_buttons) :: probes ++ [last]
                         = before ++ Clicked button outcome :: after -> False).
      { intros Hall last Hlast Heq.
        assert (Hin : In (Clicked button outcome)
                        (Queried (Ok all_buttons) :: probes ++ [last]))
          by (rewrite Heq; apply in_or_app; right; left; reflexivity).
        destruct Hin as [Hin | Hin]; [discriminate|].
        apply in_app_or in Hin as [Hin | [Heq' | []]]; [|subst last; exact Hlast].
        apply Forall_app in Hall as [Hall _].
        apply (proj1 (List.Forall_forall _ _) Hall) in Hin. exact Hin. }
      destruct Hcases as [-> | ->]; eapply (Hnone Hprobes); try exact Hsplit; exact I.
Qed.

(** X15: [accept_cookies] raises exactly when the query of the buttons or a
    call of the first loop ([is_visible], [get_attribute]) raised: that call
    is then the last one, and no button was evaluated or clicked. The
    exceptions of the second loop ([evaluate], [click]) never leave the
    function. *)
Theorem accept_cookies_raises_before_any_click (s : Session) :
  exists log,
    events (snd (accept_cookies s)) = events s ++ log
    /\ match fst (accept_cookies s) with
       | Ok _ =>
           forall e,
             ~ In (Queried (Raise e)) log
             /\ forall b, ~ In (Visible b (Raise e)) log /\ ~ In (Disabled b (Raise e)) log
       | Raise e =>
           (exists before last,
              log = before ++ [last]
              /\ (last = Queried (Raise e)
                  \/ exists b, last = Visible b (Raise e) \/ last = Disabled b (Raise e)))
           /\ forall button,
                (forall outcome, ~ In (OuterHtml button outcome) log)
                /\ (forall outcome, ~ In (Clicked button outcome) log)
       end.
Proof.
  destruct (accept_cookies_log s) as (log & Hlog & Hform).
  exists log. split; [exact Hlog|].
  destruct (fst (accept_cookies s)) as [[]|e].
  - destruct Hform as (all_buttons & probes & filtered & clicks & -> & Hprobes & _ & _
                       & Hok & Hclicks & _).
    apply clicks_events in Hclicks.
    assert (Hclick : forall event,
              match event with OuterHtml _ _ | Clicked _ _ => False | _ => True end ->
              ~ In event clicks).
    { intros event Hevent Hin. apply (proj1 (List.Forall_forall _ _) Hclicks) in Hin.
      destruct event; auto. }
    intros e. split; [|intros b; split].
    + intros [Heq | Hin]; [discriminate|]. apply in_app_or in Hin as [Hin | Hin].
      * apply (proj1 (List.Forall_forall _ _) Hprobes) in Hin. exact Hin.
      * exact (Hclick (Queried (Raise e)) I Hin).
    + intros [Heq | Hin]; [discriminate|]. apply in_app_or in Hin as [Hin | Hin].
      * exact (proj1 (Hok b e) Hin).
      * exact (Hclick (Visible b (Raise e)) I Hin).
    + intros [Heq | Hin]; [discriminate|]. apply in_app_or in Hin as [Hin | Hin].
      * exact (proj2 (Hok b e) Hin).
      * exact (Hclick (Disabled b (Raise e)) I Hin).
  - destruct Hform as [-> | (all_buttons & probes & b & Hprobes & Hcases)].
    + split; [exists [], (Queried (Raise e)); auto|].
      intros button. split; intros outcome [Heq | []]; discriminate.
    + assert (Hnone : forall last, is_probe last ->
                forall button,
                  (forall outcome,
                     ~ In (OuterHtml button outcome)
                         (Queried (Ok all_buttons) :: probes ++ [last]))
                  /\ (forall outcome,
                        ~ In (Clicked button outcome)
                            (Queried (Ok all_buttons) :: probes ++ [last]))).
      { apply Forall_app in Hprobes as [Hprobes _].
        intros last Hlast button.
        split; intros outcome [Heq | Hin]; try discriminate;
          (apply in_app_or in Hin as [Hin | [Heq' | []]]; [|subst last; exact Hlast]);
          apply (proj1 (List.Forall_forall _ _) Hprobes) in Hin; exact Hin. }
      destruct Hcases as [-> | ->].
      * split; [|apply Hnone; exact I].
        exists (Queried (Ok all_buttons) :: probes), (Visible b (Raise e)). eauto.
      * split; [|apply Hnone; exact I].
        exists (Queried (Ok all_buttons) :: probes), (Disabled b (Raise e)). eauto.
Qed.

End CookiesFacts.

(** ** The search *)

Section SearchFacts.

Context `{api : SearchService}.

Lemma links_spec (items : list (gmap string string)) (urls : list string) :
  links items = Ok urls <-> map (fun item => item !! "link") items = map Some urls.
Proof.
  revert urls. induction items as [|item items IH]; intros urls; simpl.
  - split; [intros [= <-]; reflexivity|]. destruct urls; [reflexivity|discriminate].
  - destruct (item !! "link") as [link|].
    + destruct (links items) as [rest|e].
      * split.
        -- intros [= <-]. simpl. f_equal. apply IH. reflexivity.
        -- destruct urls as [|url urls]; [discriminate|]. simpl. intros [= -> H].
           apply IH in H. injection H as ->. reflexivity.
      * split; [discriminate|]. destruct urls as [|url urls]; [discriminate|].
        simpl. intros [= -> H]. apply IH in H. discriminate.
    + split; [discriminate|]. destruct urls; discriminate.
Qed.

(** X16: [google_search_top3] raises only what building the service raises.
    When the service is built it returns the links of all the items of the
    response, in their order, when there is at least one item and every item
    has a link, and ["Unsuccessful search"] in every other case: a failed
    query, no item, an item without link. So the list it returns is never
    empty, and it is as long as the response, whatever [num] asked for. *)
Theorem google_search_top3_spec (query api_key cse_id : string) :
  match build api_key with
  | Raise e => google_search_top3 query api_key cse_id = Raise e
  | Ok service =>
      exists urls,
        google_search_top3 query api_key cse_id = Ok urls
        /\ (urls = UrlError "Unsuccessful search"
            \/ exists items links,
                 execute service query cse_id 3 = Ok (Some items)
                 /\ urls = UrlList links
                 /\ links <> []
                 /\ map (fun item => item !! "link") items = map Some links)
        /\ (forall items links,
              execute service query cse_id 3 = Ok (Some items) ->
              items <> [] ->
              map (fun item => item !! "link") items = map Some links ->
              urls = UrlList links)
  end.
Proof.
  unfold google_search_top3. destruct (build api_key) as [service|e]; [|reflexivity].
  change SEARCH_RESULTS_COUNT with 3.
  destruct (execute service query cse_id 3) as [[items|]|e].
  - destruct items as [|item items].
    + eexists. split; [reflexivity|]. split; [left; reflexivity|].
      intros items links [= <-] Hne. contradiction.
    + cbn [default from_option id].
      destruct (links (item :: items)) as [urls|e] eqn:Hlinks.
      * eexists. split; [reflexivity|]. apply links_spec in Hlinks. split.
        -- right. exists (item :: items), urls. split; [reflexivity|].
           split; [reflexivity|]. split; [|exact Hlinks]. destruct urls; discriminate.
        -- intros items' links' [= <-] _ Heq. rewrite Hlinks in Heq.
           f_equal. apply (inj (map Some)) in Heq. exact Heq.
      * eexists. split; [reflexivity|]. split; [left; reflexivity|].
        intros items' links' [= <-] _ Heq. apply links_spec in Heq. congruence.
  - eexists. split; [reflexivity|]. split; [left; reflexivity|]. discriminate.
  - eexists. split; [reflexivity|]. split; [left; reflexivity|]. discriminate.
Qed.

End SearchFacts.

(** ** Preparing the photograph *)

Section InvertFacts.

Import Ocr.

Lemma bitwise_not_uint8 (p : Z) : uint8 p -> Z.lnot p mod 256 = 255 - p.
Proof.
  unfold uint8. intros Hp. unfold Z.lnot, Z.pred.
  symmetry. apply (Z.mod_unique _ _ (-1)); lia.
Qed.

Lemma count_black (image : Image) : count 0 (threshold image 125 255) = dark image.
Proof.
  unfold count, dark, threshold. f_equal.
  induction image as [|p image IH]; [reflexivity|]. simpl.
  destruct (Z.ltb_spec 125 p), (Z.leb_spec p 125); try lia; simpl; lia.
Qed.

Lemma count_white (image : Image) : count 255 (threshold image 125 255) = light image.
Proof.
  unfold count, light, threshold. f_equal.
  induction image as [|p image IH]; [reflexivity|]. simpl.
  destruct (Z.ltb_spec 125 p); simpl; lia.
Qed.

(** [invert], in terms of the pixels it counts. *)
Lemma invert_unfold (image : Image) :
  invert image = if light image <? dark image then bitwise_not image else image.
Proof. unfold invert. cbn zeta. rewrite count_black, count_white. reflexivity. Qed.

(** A pixel counted as black after the inversion was counted as white
    before it, and a pixel counted as black before it is counted as white
    after it. *)
Lemma bitwise_not_counts (image : Image) :
  Forall uint8 image ->
  dark (bitwise_not image) <= light image /\ dark image <= light (bitwise_not image).
Proof.
  unfold dark, light, bitwise_not.
  induction 1 as [|p image Hp _ IH]; [simpl; lia|]. simpl.
  rewrite (bitwise_not_uint8 p Hp). unfold uint8 in Hp.
  destruct (Z.leb_spec (255 - p) 125), (Z.ltb_spec 125 p), (Z.leb_spec p 125),
    (Z.ltb_spec 125 (255 - p)); simpl; lia.
Qed.

Lemma bitwise_not_range (image : Image) :
  Forall uint8 image -> Forall uint8 (bitwise_not image).
Proof.
  unfold bitwise_not. induction 1 as [|p image Hp _ IH]; [constructor|]. simpl.
  constructor; [|exact IH]. rewrite (bitwise_not_uint8 p Hp). unfold uint8 in *. lia.
Qed.

(** X17: the image [invert] returns never has more dark pixels (at most 125)
    than light ones, so [invert] applied to its own result changes nothing.
    It has the pixels of the image, inverted or not: the same number of
    them, all of them bytes. *)
Theorem invert_leaves_no_dark_majority (image : Image) :
  Forall uint8 image ->
  dark (invert image) <= light (invert image)
  /\ invert (invert image) = invert image
  /\ length (invert image) = length image
  /\ Forall uint8 (invert image)
  /\ (invert image = image \/ invert image = map (fun p => 255 - p) image).
Proof.
  intros Hbytes.
  assert (Hmajority : dark (invert image) <= light (invert image)).
  { rewrite invert_unfold. destruct (Z.ltb_spec (light image) (dark image)); [|lia].
    destruct (bitwise_not_counts image Hbytes). lia. }
  split; [exact Hmajority|]. split.
  { rewrite (invert_unfold (invert image)).
    destruct (Z.ltb_spec (light (invert image)) (dark (invert image))); [lia|reflexivity]. }
  rewrite invert_unfold. destruct (light image <? dark image).
  - split; [apply length_map|]. split; [apply bitwise_not_range, Hbytes|]. right.
    unfold bitwise_not. apply map_ext_in. intros p Hp. apply bitwise_not_uint8.
    exact (proj1 (List.Forall_forall _ _) Hbytes p Hp).
  - auto.
Qed.

End InvertFacts.

(** Two dark pixels and a light one: the image is inverted, once. *)
Lemma invert_leaves_no_dark_majority_witness :
  Ocr.invert [10; 20; 200] = [245; 235; 55]
  /\ Ocr.dark (Ocr.invert [10; 20; 200]) <= Ocr.light (Ocr.invert [10; 20; 200])
  /\ Ocr.invert (Ocr.invert [10; 20; 200]) = Ocr.invert [10; 20; 200].
Proof.
  split; [reflexivity|].
  destruct (invert_leaves_no_dark_majority [10; 20; 200]) as (Hmajority & Hagain & _).
  - repeat constructor; unfold Ocr.uint8; lia.
  - split; [exact Hmajority|exact Hagain].
Defined.

Section SweepFacts.

Import Ocr.

Context (image_to_data_conf : Image -> Result (list Z)).

Lemma sweep_raise (thresholds : list Z) (image : Image) (best : Q * Z * option Image)
    (e : exn) :
  sweep image_to_data_conf thresholds image best = Raise e ->
  exists t, In t thresholds /\ image_to_data_conf (threshold image t 255) = Raise e.
Proof.
  revert best. induction thresholds as [|t thresholds IH]; intros best; [discriminate|].
  cbn [sweep]. cbn zeta.
  destruct (image_to_data_conf (threshold image t 255)) as [confidences|e'] eqn:Hconf.
  - intros Hrun.
    assert (Hlater : exists t', In t' thresholds
                                /\ image_to_data_conf (threshold image t' 255) = Raise e).
    { destruct (Qcompare _ _); exact (IH _ Hrun). }
    destruct Hlater as (t' & Hin & Ht'). exists t'. split; [right; exact Hin|exact Ht'].
  - intros [= <-]. exists t. split; [left; reflexivity|exact Hconf].
Qed.

Lemma sweep_spec (thresholds : list Z) (image : Image) (best_conf : Q) (best_thresh_val : Z)
    (best_binary : option Image) (c : Q) (t : Z) (b : option Image) :
  sweep image_to_data_conf thresholds image (best_conf, best_thresh_val, best_binary)
  = Ok (c, t, b) ->
  ((c, t, b) = (best_conf, best_thresh_val, best_binary)
   /\ forall t', In t' thresholds ->
        exists c', confidence_at image_to_data_conf image t' = Some c' /\ (c' <= best_conf)%Q)
  \/ (exists earlier later,
        thresholds = earlier ++ t :: later
        /\ b = Some (threshold image t 255)
        /\ confidence_at image_to_data_conf image t = Some c
        /\ (best_conf < c)%Q
        /\ (forall t', In t' earlier ->
              exists c', confidence_at image_to_data_conf image t' = Some c' /\ (c' < c)%Q)
        /\ (forall t', In t' later ->
              exists c', confidence_at image_to_data_conf image t' = Some c' /\ (c' <= c)%Q)).
Proof.
  revert best_conf best_thresh_val best_binary.
  induction thresholds as [|t0 thresholds IH]; intros best_conf best_thresh_val best_binary.
  - intros [= <- <- <-]. left. split; [reflexivity|]. intros t' [].
  - cbn [sweep]. cbn zeta.
    destruct (image_to_data_conf (threshold image t0 255)) as [confidences|e] eqn:Hconf;
      [|discriminate].
    assert (Hat : confidence_at image_to_data_conf image t0 = Some (avg_conf confidences))
      by (unfold confidence_at; rewrite Hconf; reflexivity).
    cbn [fst].
    destruct (Qcompare (avg_conf confidences) best_conf) eqn:Hcmp.
    1,2: assert (Hle : (avg_conf confidences <= best_conf)%Q)
           by (apply Qle_alt; rewrite Hcmp; discriminate).
    1,2: intros Hrun; destruct (IH _ _ _ Hrun)
           as [[Hsame Hall] | (earlier & later & -> & Hb & Hc & Hlt & Hearlier & Hlater)];
         [left; split; [exact Hsame|];
          intros t' [<- | Hin]; [exists (avg_conf confidences); auto|exact (Hall t' Hin)]
         |right; exists (t0 :: earlier), later;
          split; [reflexivity|]; split; [exact Hb|]; split; [exact Hc|];
          split; [exact Hlt|]; split; [|exact Hlater];
          intros t' [<- | Hin]; [|exact (Hearlier t' Hin)];
          exists (avg_conf confidences); split; [exact Hat|];
          exact (Qle_lt_trans _ _ _ Hle Hlt)].
    assert (Hgt : (best_conf < avg_conf confidences)%Q) by (apply Qgt_alt; exact Hcmp).
    intros Hrun. right. destruct (IH _ _ _ Hrun)
      as [[Hsame Hall] | (earlier & later & -> & Hb & Hc & Hlt & Hearlier & Hlater)].
    + injection Hsame as -> -> ->. exists [], thresholds.
      split; [reflexivity|]. split; [reflexivity|]. split; [exact Hat|].
      split; [exact Hgt|]. split; [intros t' []|exact Hall].
    + exists (t0 :: earlier), later.
      split; [reflexivity|]. split; [exact Hb|]. split; [exact Hc|].
      split; [exact (Qlt_trans _ _ _ Hgt Hlt)|]. split; [|exact Hlater].
      intros t' [<- | Hin]; [|exact (Hearlier t' Hin)].
      exists (avg_conf confidences). auto.
Qed.

(** X18: [custom_binarize] tries the thresholds 0, 10, ..., 230 in that
    order. It returns the first threshold whose average confidence is the
    highest, with the image binarized at it, provided that average is above
    zero; it returns [(0, None)] when no threshold has an average above
    zero, a result whose threshold cannot be told from a best threshold of 0
    but by the missing image. An exception of the recognition at any
    threshold leaves the function, whatever the earlier thresholds gave. *)
Theorem custom_binarize_picks_first_best (image : Image) :
  let thresholds := range 0 240 10 in
  thresholds = map (fun k => 10 * Z.of_nat k) (seq 0 24)
  /\ match custom_binarize image_to_data_conf image with
     | Ok (best_thresh_val, Some best_binary) =>
         exists earlier later best_conf,
           thresholds = earlier ++ best_thresh_val :: later
           /\ best_binary = threshold image best_thresh_val 255
           /\ confidence_at image_to_data_conf image best_thresh_val = Some best_conf
           /\ (0 < best_conf)%Q
           /\ (forall t, In t earlier ->
                 exists c, confidence_at image_to_data_conf image t = Some c
                           /\ (c < best_conf)%Q)
           /\ (forall t, In t later ->
                 exists c, confidence_at image_to_data_conf image t = Some c
                           /\ (c <= best_conf)%Q)
     | Ok (best_thresh_val, None) =>
         best_thresh_val = 0
         /\ forall t, In t thresholds ->
              exists c, confidence_at image_to_data_conf image t = Some c /\ (c <= 0)%Q
     | Raise e =>
         exists t, In t thresholds /\ image_to_data_conf (threshold image t 255) = Raise e
     end.
Proof.
  cbn zeta. split; [reflexivity|].
  unfold custom_binarize, BINARIZE_THRESHOLD_RANGE.
  destruct (sweep image_to_data_conf (range 0 240 10) image (0%Q, 0, None))
    as [[[c t] b]|e] eqn:Hrun.
  - destruct (sweep_spec _ _ _ _ _ _ _ _ Hrun)
      as [[Hsame Hall] | (earlier & later & Hsplit & -> & Hc & Hlt & Hearlier & Hlater)].
    + injection Hsame as -> -> ->. split; [reflexivity|exact Hall].
    + exists earlier, later, c. auto 10.
  - exact (sweep_raise _ _ _ _ Hrun).
Qed.

End SweepFacts.

(** ** The script, again *)

Section LegacyFacts.

Context `{rt : Runtime}.

Lemma legacy_museum_domains_loop_ignores_set (painting_name url : string)
    (table : list (string * string)) (painting_location : string)
    (invalid_urls invalid_urls' : gset string) (w : World) :
  let run := Legacy.museum_domains_loop painting_name url table painting_location
               invalid_urls w in
  let run' := Legacy.museum_domains_loop painting_name url table painting_location
                invalid_urls' w in
  without_set (fst run) = without_set (fst run') /\ snd run = snd run'.
Proof.
  cbn zeta. revert painting_location invalid_urls invalid_urls' w.
  induction table as [|[museum_domain museum_name] table IH];
    intros painting_location invalid_urls invalid_urls' w; [split; reflexivity|].
  cbn [Legacy.museum_domains_loop]. destruct (Py.contains museum_domain url); [|apply IH].
  unfold bind.
  destruct (Legacy.extract_main_image_from_page painting_name url w)
    as [[[img_path img_url]|e] w1]; [|split; reflexivity].
  destruct (Py.truthy_opt img_path); [split; reflexivity|apply IH].
Qed.

(** X19: the museum loop of the script never reads the set of invalid URLs:
    what it opens, fetches and writes, the image it finds and the label it
    leaves are the same whatever the set holds. A URL the first loop marked
    invalid is therefore tried again when it matches the museum table. *)
Theorem legacy_museum_loop_ignores_invalid_urls (painting_name : string)
    (urls : list string) (painting_location : string)
    (invalid_urls invalid_urls' : gset string) (w : World) :
  let run := Legacy.museum_loop painting_name urls painting_location invalid_urls w in
  let run' := Legacy.museum_loop painting_name urls painting_location invalid_urls' w in
  without_set (fst run) = without_set (fst run') /\ snd run = snd run'.
Proof.
  cbn zeta. revert painting_location invalid_urls invalid_urls' w.
  induction urls as [|url urls IH]; intros painting_location invalid_urls invalid_urls' w;
    [split; reflexivity|].
  cbn [Legacy.museum_loop]. unfold bind.
  destruct (legacy_museum_domains_loop_ignores_set painting_name url KNOWN_MUSEUMS
              painting_location invalid_urls invalid_urls' w) as [Hresult Hworld].
  cbn zeta in *.
  destruct (Legacy.museum_domains_loop painting_name url KNOWN_MUSEUMS painting_location
              invalid_urls w) as [[[found|[label inv]]|e] w1];
    destruct (Legacy.museum_domains_loop painting_name url KNOWN_MUSEUMS painting_location
                invalid_urls' w) as [[[found'|[label' inv']]|e'] w1'];
    cbn [fst snd without_set] in *; try discriminate; subst w1'.
  - injection Hresult as <-. split; reflexivity.
  - injection Hresult as <-. apply IH.
  - injection Hresult as <-. split; reflexivity.
Qed.

End LegacyFacts.

Section LegacySelector.

Context `{rt : Runtime}.

(** X20: on a page none of whose images has a box of area other than zero,
    the heap of [get_img] stays empty: the script reads [heap[0]] and raises
    [IndexError], the package returns [(None, None)]. Neither calls
    anything. *)
Theorem legacy_get_img_raises_on_a_page_without_image (page : Page)
    (base_url img_name : string) (w : World) :
  (forall img_block box,
     In img_block (img_blocks page) ->
     bounding_box img_block = Some box ->
     (box_area box == 0)%Q) ->
  Legacy.get_img page base_url img_name w = (Raise IndexError, w)
  /\ get_img page base_url img_name w = (Ok (None, None), w).
Proof.
  intros Hflat. apply largest_image_None in Hflat.
  unfold Legacy.get_img, get_img. rewrite Hflat.
  unfold largest_image in Hflat.
  destruct (image_heap (img_blocks page)) as [|[[na i] x] heap]; [|discriminate].
  split; reflexivity.
Qed.

End LegacySelector.

(** A page with an image of height zero and an image that is not laid out. *)
Lemma legacy_get_img_raises_on_a_page_without_image_witness :
  let page := {| page_url := "https://example.org/";
                 img_blocks := [Demo.img_with_box (Some (640, 0)%Q) "a.jpg";
                                Demo.img_with_box None "b.jpg"] |} in
  @Legacy.get_img (Demo.runtime Demo.nothing) page "https://example.org/" "Mona Lisa"
    (Demo.start Demo.nothing)
  = (Raise IndexError, Demo.start Demo.nothing)
  /\ @get_img (Demo.runtime Demo.nothing) page "https://example.org/" "Mona Lisa"
       (Demo.start Demo.nothing)
     = (Ok (None, None), Demo.start Demo.nothing).
Proof.
  intros page.
  apply (legacy_get_img_raises_on_a_page_without_image (rt := Demo.runtime Demo.nothing)).
  intros img_block box [<- | [<- | []]]; [|discriminate].
  intros [= <-]. reflexivity.
Defined.

Section LegacySource.

Context `{rt : Runtime}.

Lemma answered_by_later (painting_name url0 : string) (urls : list string) (w' : World)
    (url : string) (img_path img_url : option string) :
  answered_by painting_name urls w' url img_path img_url ->
  answered_by painting_name (url0 :: urls) w' url img_path img_url.
Proof. intros (Hin & Hpath & Hvisit). split; [right; exact Hin|auto]. Qed.

Lemma legacy_wikipedia_loop_found (painting_name : string) (urls : list string)
    (invalid_urls : gset string) (w w' : World) (url : string)
    (img_path img_url : option string) :
  Legacy.wikipedia_loop painting_name urls invalid_urls w
  = (Ok (inl (url, img_path, img_url)), w') ->
  answered_by painting_name urls w' url img_path img_url.
Proof.
  revert invalid_urls w. induction urls as [|url0 urls IH]; intros invalid_urls w;
    [discriminate|].
  cbn [Legacy.wikipedia_loop]. destruct (Py.contains "wikipedia" url0).
  2:{ intros Hrun. apply answered_by_later, (IH _ _ Hrun). }
  unfold bind.
  destruct (Legacy.extract_main_image_from_page painting_name url0 w)
    as [[[p u]|e] w1] eqn:Hvisit; [|discriminate].
  destruct (Py.truthy_opt p) eqn:Hp.
  - intros [= <- <- <- <-]. split; [left; reflexivity|]. split; [exact Hp|]. eauto.
  - intros Hrun. apply answered_by_later, (IH _ _ Hrun).
Qed.

Lemma legacy_museum_domains_loop_found (painting_name url0 : string)
    (table : list (string * string)) (painting_location : string)
    (invalid_urls : gset string) (w w' : World) (url label : string)
    (img_path img_url : option string) :
  Legacy.museum_domains_loop painting_name url0 table painting_location invalid_urls w
  = (Ok (inl (url, img_path, img_url, label)), w') ->
  answered_by painting_name [url0] w' url img_path img_url.
Proof.
  revert painting_location invalid_urls w.
  induction table as [|[museum_domain museum_name] table IH];
    intros painting_location invalid_urls w; [discriminate|].
  cbn [Legacy.museum_domains_loop]. destruct (Py.contains museum_domain url0); [|apply IH].
  unfold bind.
  destruct (Legacy.extract_main_image_from_page painting_name url0 w)
    as [[[p u]|e] w1] eqn:Hvisit; [|discriminate].
  destruct (Py.truthy_opt p) eqn:Hp; [|apply IH].
  intros [= <- <- <- <- <-]. split; [left; reflexivity|]. split; [exact Hp|]. eauto.
Qed.

Lemma legacy_museum_loop_found (painting_name : string) (urls : list string)
    (painting_location : string) (invalid_urls : gset string) (w w' : World)
    (url label : string) (img_path img_url : option string) :
  Legacy.museum_loop painting_name urls painting_location invalid_urls w
  = (Ok (inl (url, img_path, img_url, label)), w') ->
  answered_by painting_name urls w' url img_path img_url.
Proof.
  revert painting_location invalid_urls w. induction urls as [|url0 urls IH];
    intros painting_location invalid_urls w; [discriminate|].
  cbn [Legacy.museum_loop]. unfold bind.
  destruct (Legacy.museum_domains_loop painting_name url0 KNOWN_MUSEUMS painting_location
              invalid_urls w) as [[[found|[loc inv]]|e] w1] eqn:Hinner; [| |discriminate].
  - intros [= -> <-].
    destruct (legacy_museum_domains_loop_found _ _ _ _ _ _ _ _ _ _ _ Hinner)
      as ([<- | []] & Hp & Hvisit).
    split; [left; reflexivity|auto].
  - intros Hrun. apply answered_by_later, (IH _ _ _ Hrun).
Qed.

Lemma legacy_remaining_loop_found (painting_name : string) (urls : list string)
    (invalid_urls : gset string) (w w' : World) (url : string)
    (img_path img_url : option string) :
  Legacy.remaining_loop painting_name urls invalid_urls w
  = (Ok (Some (url, img_path, img_url)), w') ->
  answered_by painting_name urls w' url img_path img_url.
Proof.
  revert w. induction urls as [|url0 urls IH]; intros w; [discriminate|].
  cbn [Legacy.remaining_loop]. destruct (decide (url0 ∈ invalid_urls)).
  { intros Hrun. apply answered_by_later, (IH _ Hrun). }
  unfold bind.
  destruct (Legacy.extract_main_image_from_page painting_name url0 w)
    as [[[p u]|e] w1] eqn:Hvisit; [|discriminate].
  destruct (Py.truthy_opt p) eqn:Hp.
  - intros [= <- <- <- <-]. split; [left; reflexivity|]. split; [exact Hp|]. eauto.
  - intros Hrun. apply answered_by_later, (IH _ Hrun).
Qed.

(** X21: in the script, the source page of a record with an image is the URL
    whose visit gave the image: the run ended with that visit, which
    returned the recorded path. (The package records the first URL of the
    list.) *)
Theorem legacy_source_is_the_page_that_answered (painting_name : string)
    (urls : list string) (cur_batch_names_to_imgs : gmap string string)
    (cur_batch_results results' : gmap string BatchResult) (w w' : World)
    (record : BatchResult) (path : string) :
  Legacy.process_a_painting painting_name urls cur_batch_names_to_imgs
    cur_batch_results w = (Ok results', w') ->
  results' !! painting_name = Some record ->
  image_path record = PathStr path ->
  exists img_url,
    answered_by painting_name urls w' (source record) (Some path) img_url.
Proof.
  assert (Hwritten : forall (url loc : string) (p u : option string) (w1 : World),
            answered_by painting_name urls w1 url p u ->
            bind (getitem cur_batch_names_to_imgs painting_name)
              (fun text =>
                 ret (<[painting_name := Legacy.found_record text p url loc u]>
                      cur_batch_results)) w1 = (Ok results', w') ->
            results' !! painting_name = Some record ->
            image_path record = PathStr path ->
            exists img_url,
              answered_by painting_name urls w' (source record) (Some path) img_url).
  { intros url loc p u w1 Hanswer. unfold bind, getitem.
    destruct (cur_batch_names_to_imgs !! painting_name) as [text|]; [|discriminate].
    intros [= <- <-]. rewrite lookup_insert_eq. intros [= <-]. cbn [image_path source].
    intros [= <-]. exists u. destruct Hanswer as (Hin & Hp & Hvisit).
    destruct p as [p|]; [exact (conj Hin (conj Hp Hvisit))|discriminate]. }
  assert (Hnone : forall (record0 : string -> BatchResult) (w1 : World),
            (forall text, image_path (record0 text) = PathList []) ->
            bind (getitem cur_batch_names_to_imgs painting_name)
              (fun text => ret (<[painting_name := record0 text]> cur_batch_results)) w1
            = (Ok results', w') ->
            results' !! painting_name = Some record ->
            image_path record = PathStr path -> False).
  { intros record0 w1 Hlist. unfold bind, getitem.
    destruct (cur_batch_names_to_imgs !! painting_name) as [text|]; [|discriminate].
    intros [= <- <-]. rewrite lookup_insert_eq. intros [= <-]. rewrite Hlist.
    discriminate. }
  unfold Legacy.process_a_painting. destruct urls as [|urls0 rest].
  { intros Hrun Hrecord Hpath.
    destruct (Hnone no_urls_record _ (fun _ => eq_refl) Hrun Hrecord Hpath). }
  set (urls := urls0 :: rest) in *. cbn zeta. unfold bind at 1.
  destruct (Legacy.wikipedia_loop painting_name urls ∅ w)
    as [[[[[url p] u]|inv1]|e] w1] eqn:Hwiki; [| |discriminate].
  { apply Hwritten, (legacy_wikipedia_loop_found _ _ _ _ _ _ _ _ Hwiki). }
  unfold bind at 1.
  destruct (Legacy.museum_loop painting_name urls (_detect_museum_from_urls urls) inv1 w1)
    as [[[[[[url p] u] loc]|[loc inv2]]|e] w2] eqn:Hmuseum; [| |discriminate].
  { apply Hwritten, (legacy_museum_loop_found _ _ _ _ _ _ _ _ _ _ Hmuseum). }
  unfold bind at 1.
  destruct (Legacy.remaining_loop painting_name urls inv2 w2)
    as [[[[[url p] u]|]|e] w3] eqn:Hremaining; [| |discriminate].
  { apply Hwritten, (legacy_remaining_loop_found _ _ _ _ _ _ _ _ Hremaining). }
  intros Hrun Hrecord Hpath.
  destruct (Hnone (fun text => exhausted_record text loc) _ (fun _ => eq_refl) Hrun Hrecord
              Hpath).
Qed.

End LegacySource.

(** The page of the first museum does not load; the script names the
    second URL as the source page. *)
Lemma legacy_source_is_the_page_that_answered_witness :
  let site := Scenario.two_museums in
  let urls := [Scenario.boston; Scenario.new_york] in
  let run := @Legacy.process_a_painting (Demo.runtime site) "Mona Lisa" urls
               Scenario.names ∅ (Demo.start site) in
  exists record img_url,
    Scenario.recorded (fst run) "Mona Lisa" = Some record
    /\ source record = Scenario.new_york
    /\ @answered_by (Demo.runtime site) "Mona Lisa" urls (snd run) (source record)
         (Some "final_results/extracted_images/Mona Lisa.jpg") img_url.
Proof.
  intros site urls run. subst run.
  assert (Hfst : fst (@Legacy.process_a_painting (Demo.runtime site) "Mona Lisa" urls
                        Scenario.names ∅ (Demo.start site))
                 = Ok (<["Mona Lisa" :=
                         Legacy.found_record "Mona Lisa, Leonardo da Vinci"
                           (Some "final_results/extracted_images/Mona Lisa.jpg")
                           Scenario.new_york "The Metropolitan Museum of Art"
                           (Some Scenario.image)]> ∅))
    by (vm_compute; reflexivity).
  destruct (@Legacy.process_a_painting (Demo.runtime site) "Mona Lisa" urls
              Scenario.names ∅ (Demo.start site)) as [res w'] eqn:Hrun.
  cbn [fst snd] in *. subst res.
  destruct (legacy_source_is_the_page_that_answered (rt := Demo.runtime site) _ _ _ _ _ _ _
              _ _ Hrun (lookup_insert_eq _ _ _) eq_refl) as (img_url & Hanswer).
  eexists _, img_url. cbn [Scenario.recorded].
  split; [apply lookup_insert_eq|]. split; [reflexivity|exact Hanswer].
Defined.
